(** * Frame pipeline of the media style-transfer web application

    A shallow embedding of the JavaScript sources:
    - [FunctionalCore]: the pure functions of functional-core.js;
    - [Effects]: the effect layer (effects.js);
    - [App]: the application script (styleFrames, the progressive video
      orchestration, createVideoFromFrames);
    - [MainApp]: the hybrid main application (initializeAI).

    JavaScript strings are modelled by [string], one character per code
    unit. JavaScript numbers that the code computes with are binary64
    floating-point numbers: the sample times are [float]s with the
    operations of the processor; the frame index, which holds an integer,
    is a [Z] with the rounding of [+ 1] at [2^53] written out. A scale
    factor only names a canvas encoding and is kept as a rational. A
    property that may be absent from an object (or a value that may be
    [undefined]) is an [option]. *)

From Stdlib Require Import PrimFloat.
From Stdlib Require Import String Ascii List Bool Arith Lia ZArith QArith.
From Stdlib Require Import DecimalString.
Import ListNotations.

Local Close Scope Q_scope.
Local Open Scope nat_scope.
Local Open Scope list_scope.
Local Open Scope string_scope.

(* ===================================================================== *)
(** ** JavaScript values and string primitives *)
(* ===================================================================== *)

Module Js.

(** The values a caller may hand to a function that expects a string. *)
Inductive Value :=
| Undefined
| Null
| Boolean (b : bool)
| Number (x : Q)
| Str (s : string)
| Object.

(** [typeof v] *)
Definition typeof (v : Value) : string :=
  match v with
  | Undefined => "undefined"
  | Null => "object"
  | Boolean _ => "boolean"
  | Number _ => "number"
  | Str _ => "string"
  | Object => "object"
  end.

(** Conversion performed by a template literal [`${v}`] on a value that is a
    string or [undefined]. *)
Definition tpl (v : option string) : string :=
  match v with
  | Some s => s
  | None => "undefined"
  end.

(** [`${n}`] for a non-negative integer. *)
Definition showNat (n : nat) : string := NilZero.string_of_uint (Nat.to_uint n).

(** The number [n]: what a counter holds after [n] increments from [0]
    ([i++]), and the index [n] of an array element. It is the integer [n]
    itself below [2^53], far above the length of an array. *)
Fixpoint number (n : nat) : float :=
  match n with
  | O => 0%float
  | S k => (number k + 1)%float
  end.

(** [s.startsWith(p)] *)
Definition startsWith (s p : string) : bool := String.prefix p s.

(** [s.includes(sub)] *)
Fixpoint includes (s sub : string) : bool :=
  String.prefix sub s
  || match s with
     | EmptyString => false
     | String _ rest => includes rest sub
     end.

(** [s.split(sep)] for a one-character separator: the pieces between the
    separators, never an empty array. *)
Fixpoint split (sep : ascii) (s : string) : list string :=
  match s with
  | EmptyString => [EmptyString]
  | String c rest =>
      if Ascii.eqb c sep then EmptyString :: split sep rest
      else match split sep rest with
           | piece :: pieces => String c piece :: pieces
           | [] => [String c EmptyString]
           end
  end.

(** Line terminators, which [.] does not match: LF and CR (U+2028 and
    U+2029 lie outside the code units of [ascii]). *)
Definition isLineTerminator (c : ascii) : bool :=
  Ascii.eqb c "010"%char || Ascii.eqb c "013"%char.

(** [(.*?);] anchored at the start of [s]: the shortest run of characters
    other than line terminators that is followed by [;]. The result is the
    captured group. *)
Fixpoint lazyUntilSemicolon (s : string) : option string :=
  match s with
  | EmptyString => None
  | String c rest =>
      if Ascii.eqb c ";"%char then Some EmptyString
      else if isLineTerminator c then None
      else option_map (String c) (lazyUntilSemicolon rest)
  end.

(** [s.match(/:(.*?);/)?.[1]]: the group of the leftmost match, or
    [undefined] when the expression does not match. *)
Fixpoint matchColonGroup (s : string) : option string :=
  match s with
  | EmptyString => None
  | String c rest =>
      if Ascii.eqb c ":"%char then
        match lazyUntilSemicolon rest with
        | Some group => Some group
        | None => matchColonGroup rest
        end
      else matchColonGroup rest
  end.

(** [v || fallback] on a string or [undefined]: the empty string is falsy. *)
Definition orDefault (v : option string) (fallback : string) : string :=
  match v with
  | Some EmptyString => fallback
  | Some s => s
  | None => fallback
  end.

(** How an evaluation ends: with a value, or with a thrown value (a
    rejected promise, under [await]). A thrown [Error] carries its
    [message]; an error raised by the styling SDK is known by the text of
    its [toString()]; any other thrown value (for instance the event passed
    to an [onerror] handler) has no [message]. *)
Inductive Thrown :=
| Error (message : string)
| ServiceError (text : string)
| OtherValue.

(** [error.toString()]; a [ServiceError] is identified by this text. *)
Definition toString (e : Thrown) : string :=
  match e with
  | Error message => "Error: " ++ message
  | ServiceError text => text
  | OtherValue => "[object Event]"
  end.

(** [error.message === m] *)
Definition messageIs (e : Thrown) (m : string) : bool :=
  match e with
  | Error message => String.eqb message m
  | ServiceError _ => false
  | OtherValue => false
  end.

Inductive Completion (A : Type) :=
| Normal (a : A)
| Throw (e : Thrown).

Arguments Normal {A} a.
Arguments Throw {A} e.

End Js.

(* ===================================================================== *)
(** ** functional-core.js *)
(* ===================================================================== *)

(** A frame object. The type definition of the source lists [data],
    [mimeType] and [src]; some producers build objects with [src] only, so
    the first two may be absent. *)
Record Frame := mkFrame {
  data : option string;
  mimeType : option string;
  src : string
}.

(** The result of [parseDataUrl]: [data] is [undefined] when the input has
    no comma. *)
Record ParsedDataUrl := mkParsed {
  parsedMimeType : string;
  parsedData : option string
}.

(** An entry of the codec table. *)
Record CodecOption := mkCodec {
  codecMimeType : string;
  extension : string
}.

Module FunctionalCore.

Import Js.

(** [isValidApiKey]:
    [typeof key === 'string' && key.length > 10 && key.startsWith('AIza')] *)
Definition isValidApiKey (key : Value) : bool :=
  String.eqb (typeof key) "string"
  && match key with
     | Str s => Nat.ltb 10 (String.length s) && startsWith s "AIza"
     | _ => false
     end.

(** [parseDataUrl]:
    [const [header, data] = dataUrl.split(',');]
    [const mimeType = header.match(/:(.*?);/)?.[1] || 'image/jpeg';] *)
Definition parseDataUrl (dataUrl : string) : Completion ParsedDataUrl :=
  let pieces := split ","%char dataUrl in
  match nth_error pieces 0 with
  | None => Throw (Error "Cannot read properties of undefined (reading 'match')")
  | Some header =>
      let data := nth_error pieces 1 in
      let mimeType := orDefault (matchColonGroup header) "image/jpeg" in
      Normal (mkParsed mimeType data)
  end.

(** [createDataUrl]: [`data:${mimeType};base64,${data}`] *)
Definition createDataUrl (mimeType data : option string) : string :=
  "data:" ++ tpl mimeType ++ ";base64," ++ tpl data.

(** [createFrame] *)
Definition createFrame (data mimeType : option string) : Frame :=
  mkFrame data mimeType (createDataUrl mimeType data).

(** [createStylePrompt] *)
Definition createStylePrompt (style : string) : string :=
  "Transform this image into a " ++ style ++ " style.".

(** [calculateFrameTimes]:
    [Array.from({ length: frameCount }, (_, i) => (i * duration) / frameCount)],
    for a [frameCount] that is a non-negative integer. The product and the
    quotient are those of binary64 numbers, each rounded. *)
Definition calculateFrameTimes (duration : float) (frameCount : nat) : list float :=
  map (fun i => ((number i * duration) / number frameCount)%float) (seq 0 frameCount).

Definition codecOptions : list CodecOption :=
  [ mkCodec "video/webm; codecs=vp9" "webm";
    mkCodec "video/webm; codecs=vp8" "webm";
    mkCodec "video/mp4" "mp4";
    mkCodec "video/webm" "webm" ].

(** [supportedTypes.includes(t)] *)
Definition arrayIncludes (xs : list string) (t : string) : bool :=
  existsb (String.eqb t) xs.

(** [selectBestCodec]:
    [codecOptions.find(option => supportedTypes.includes(option.mimeType)) || null] *)
Definition selectBestCodec (supportedTypes : list string) : option CodecOption :=
  find (fun option => arrayIncludes supportedTypes (codecMimeType option)) codecOptions.

End FunctionalCore.

(* ===================================================================== *)
(** ** The browser and the styling service *)
(* ===================================================================== *)

Module Runtime.

Import Js.

(** The inline image part of a response. *)
Record InlineData := mkInline {
  partMimeType : string;
  partData : string
}.

(** What [ai.models.generateContent] does with one request: it resolves
    with a response, of which only
    [response.candidates?.[0]?.content?.parts?.find(p => p.inlineData)]
    is used, or it rejects with an error known by its [toString()]. *)
Inductive ApiOutcome :=
| Responded (part : option InlineData)
| Rejected (text : string).

(** Everything outside the script. Image decoding, canvas encoding and the
    recorder are deterministic functions of their inputs; the styling
    service may answer differently from one request to the next, so it is
    indexed by the number of requests it has received before. Events that
    never fire (a seek or an image load that never completes) are not
    modelled, and a recorder that has been constructed records without an
    [error] event. *)
Record Env := mkEnv {
  selectedStyle : string;
  service : nat -> option string -> option string -> string -> ApiOutcome;
  imageLoads : string -> option (nat * nat);
  canvasJpeg : Q -> string -> string;
  videoJpeg : float -> string;
  isTypeSupported : string -> bool;
  recorderConstructs : string -> bool;
  createObjectURL : string -> string;
  dateNow : nat;
  clientConstructs : Value -> bool
}.

(** Effects in the order in which they happen. Console output is left
    out. *)
Inductive Event :=
| SetLoading (isLoading : bool) (message : string)
| ShowError (message : string)
| GenerateContent (data mimeType : option string) (prompt : string)
| RemoveStoredKey
| ShowApiKeyModal
| HideApiKeyModal
| StartOutputAnimation (frames : list Frame)
| OnProgress (progress total : nat)
| Seek (time : float)
| RecorderStart (mimeType : string)
| DrawImage (src : string)
| FillBlack (width height : nat)
| RecorderStop
| ShowVideo (url : string)
| OfferDownload (url filename : string).

(** The state that the script can change: the effects so far, oldest
    first; the number of requests that the styling service has received;
    the client [ai] (known by the key it was made with), [null] at first;
    the global [stylizedFrames]. *)
Record World := mkWorld {
  trace : list Event;
  served : nat;
  ai : option Value;
  stylizedFrames : list Frame
}.

Definition M (A : Type) : Type := World -> World * Completion A.

Definition ret {A} (a : A) : M A := fun w => (w, Normal a).

Definition bind {A B} (c : M A) (k : A -> M B) : M B :=
  fun w =>
    match c w with
    | (w', Normal a) => k a w'
    | (w', Throw e) => (w', Throw e)
    end.

Definition throw {A} (e : Thrown) : M A := fun w => (w, Throw e).

(** [try { c } catch (error) { handler }] *)
Definition tryCatch {A} (c : M A) (handler : Thrown -> M A) : M A :=
  fun w =>
    match c w with
    | (w', Normal a) => (w', Normal a)
    | (w', Throw e) => handler e w'
    end.

Definition emit (e : Event) : M unit :=
  fun w => (mkWorld (trace w ++ [e]) (served w) (ai w) (stylizedFrames w), Normal tt).

Definition setStylizedFrames (frames : list Frame) : M unit :=
  fun w => (mkWorld (trace w) (served w) (ai w) frames, Normal tt).

Definition setAi (client : option Value) : M unit :=
  fun w => (mkWorld (trace w) (served w) client (stylizedFrames w), Normal tt).

Definition getStylizedFrames : M (list Frame) :=
  fun w => (w, Normal (stylizedFrames w)).

(** The world after the further effects [events]. *)
Definition extend (w : World) (events : list Event) : World :=
  mkWorld (trace w ++ events) (served w) (ai w) (stylizedFrames w).

Declare Scope js_scope.
Delimit Scope js_scope with js.
Notation "x <- c ;; k" := (bind c (fun x => k))
  (at level 61, c at next level, right associativity) : js_scope.
Notation "c ;; k" := (bind c (fun _ => k))
  (at level 61, right associativity) : js_scope.

(** [await ai.models.generateContent(...)]: the request reaches the
    service, which resolves with the image part or rejects. *)
Definition generateContent (env : Env) (data mimeType : option string)
    (prompt : string) : M (option InlineData) :=
  fun w =>
    let w' := mkWorld (trace w ++ [GenerateContent data mimeType prompt])
                      (S (served w)) (ai w) (stylizedFrames w) in
    match service env (served w) data mimeType prompt with
    | Responded part => (w', Normal part)
    | Rejected text => (w', Throw (ServiceError text))
    end.

(** The drawing loop [for (const frame of frames) { await new Promise(...) }]
    that the two versions of [createVideoFromFrames] share: a frame whose
    image loads is drawn ([img.onload]); for one whose image does not load
    ([img.onerror]) the canvas is filled with black. The wait of
    [1000 / fps] ms after each frame, which only the version of the effect
    layer has, is not modelled. *)
Fixpoint drawFrames (env : Env) (width height : nat) (frames : list Frame) : M unit :=
  match frames with
  | [] => ret tt
  | frame :: rest =>
      (match imageLoads env (src frame) with
       | Some _ => emit (DrawImage (src frame))
       | None => emit (FillBlack width height)
       end ;;
       drawFrames env width height rest)%js
  end.

End Runtime.

(* ===================================================================== *)
(** ** effects.js *)
(* ===================================================================== *)

(** The value with which [createVideoFromFrames] resolves. *)
Record VideoFile := mkVideo {
  url : string;
  fileExtension : string
}.

Module Effects.

Import Js Runtime FunctionalCore.
Local Open Scope js_scope.

(** [generateStylizedFrame(ai, frame, prompt).run()] *)
Definition generateStylizedFrame (env : Env) (frame : Frame) (prompt : string)
    : M Frame :=
  part <- generateContent env (data frame) (mimeType frame) prompt ;;
  match part with
  | None => throw (Error "No image returned from API")
  | Some p => ret (createFrame (Some (partData p)) (Some (partMimeType p)))
  end.

(** The loop of [styleFramesBatch], on the frames from index [i] on;
    [results] holds the entries [{ success, frame }] pushed so far. *)
Fixpoint styleFramesBatchLoop (env : Env) (prompt : string) (total i : nat)
    (rest : list Frame) (results : list (bool * Frame)) : M (list (bool * Frame)) :=
  match rest with
  | [] => ret results
  | frame :: rest' =>
      emit (OnProgress (i + 1) total) ;;
      entry <- tryCatch
                 (styledFrame <- generateStylizedFrame env frame prompt ;;
                  ret (true, styledFrame))
                 (fun _ => ret (true, frame)) ;;
      styleFramesBatchLoop env prompt total (S i) rest' (results ++ [entry])
  end.

(** [styleFramesBatch(ai, frames, style, onProgress).run()] *)
Definition styleFramesBatch (env : Env) (frames : list Frame) (style : string)
    : M (list Frame) :=
  let prompt := createStylePrompt style in
  results <- styleFramesBatchLoop env prompt (List.length frames) 0 frames [] ;;
  ret (map snd (filter fst results)).

(** Lifts the completion of a pure function. *)
Definition lift {A} (c : Completion A) : M A := fun w => (w, c).

(** The loop of [extractFramesFromVideo]: seek, wait for [seeked], draw the
    video on the canvas, encode it, parse the data URL, push the frame. *)
Fixpoint extractFramesLoop (env : Env) (times : list float) (frames : list Frame)
    : M (list Frame) :=
  match times with
  | [] => ret frames
  | time :: rest =>
      emit (Seek time) ;;
      parsed <- lift (parseDataUrl (videoJpeg env time)) ;;
      extractFramesLoop env rest
        (frames ++ [createFrame (parsedData parsed) (Some (parsedMimeType parsed))])
  end.

(** [extractFramesFromVideo(video, times).run()] *)
Definition extractFramesFromVideo (env : Env) (times : list float)
    : M (list Frame) :=
  extractFramesLoop env times [].

(** [createVideoFromFrames(frames, fps).run()], for a recorder that records
    without an [error] event once it is constructed: the rejection by
    [recorder.onerror] is not modelled. *)
Definition createVideoFromFrames (env : Env) (frames : list Frame) (fps : nat)
    : M VideoFile :=
  match frames with
  | [] => throw (Error "No frames to create video")
  | first :: _ =>
      match imageLoads env (src first) with
      | None => throw (Error "Failed to load first frame")
      | Some (width, height) =>
          let supportedTypes :=
            filter (isTypeSupported env)
              [ "video/webm; codecs=vp9"; "video/webm; codecs=vp8";
                "video/mp4"; "video/webm" ] in
          match selectBestCodec supportedTypes with
          | None => throw (Error "No supported video codec found")
          | Some codec =>
              if recorderConstructs env (codecMimeType codec) then
                emit (RecorderStart (codecMimeType codec)) ;;
                drawFrames env width height frames ;;
                emit RecorderStop ;;
                ret (mkVideo (createObjectURL env (codecMimeType codec))
                             (extension codec))
              else throw (Error "Failed to initialize MediaRecorder")
          end
      end
  end.

End Effects.

(* ===================================================================== *)
(** ** The application script *)
(* ===================================================================== *)

Module App.

Import Js Runtime.
Local Open Scope js_scope.

(** The test of the [catch] block of [styleFrames]:
    [error.toString().includes('403') || error.toString().includes('API_KEY_INVALID')] *)
Definition isInvalidKeyError (error : Thrown) : bool :=
  includes (toString error) "403" || includes (toString error) "API_KEY_INVALID".

(** [setLoading(true, `${loadingMessagePrefix} ${i + 1} of ${framesToStyle.length}...`)] *)
Definition progressMessage (loadingMessagePrefix : string) (i total : nat) : string :=
  loadingMessagePrefix ++ " " ++ showNat (i + 1) ++ " of " ++ showNat total ++ "...".

(** The entry pushed for a styled frame: an object with [src] only. *)
Definition styledEntry (part : InlineData) : Frame :=
  mkFrame None None ("data:" ++ partMimeType part ++ ";base64," ++ partData part).

(** The entry pushed as fallback: [{ src: frame.src }]. *)
Definition fallbackEntry (frame : Frame) : Frame :=
  mkFrame None None (src frame).

(** What the [catch] block does before [throw new Error("Invalid API Key")]. *)
Definition reportInvalidKey : M unit :=
  emit (ShowError "API Key Invalid. Please check your settings.") ;;
  emit RemoveStoredKey ;;
  emit ShowApiKeyModal.

(** The loop of [styleFrames], on the frames from index [i] on. The result
    gives the local array [styledResults] as it stands when the loop is
    left, and the error thrown out of the loop, if any. *)
Fixpoint styleFramesLoop (env : Env) (loadingMessagePrefix prompt : string)
    (total i : nat) (rest : list Frame) (styledResults : list Frame) (w : World)
    : World * list Frame * option Thrown :=
  match rest with
  | [] => (w, styledResults, None)
  | frame :: rest' =>
      let (w1, _) := emit (SetLoading true (progressMessage loadingMessagePrefix i total)) w in
      match generateContent env (data frame) (mimeType frame) prompt w1 with
      | (w2, Normal (Some part)) =>
          styleFramesLoop env loadingMessagePrefix prompt total (S i) rest'
            (styledResults ++ [styledEntry part]) w2
      | (w2, Normal None) =>
          styleFramesLoop env loadingMessagePrefix prompt total (S i) rest'
            (styledResults ++ [fallbackEntry frame]) w2
      | (w2, Throw error) =>
          if isInvalidKeyError error then
            let (w3, _) := reportInvalidKey w2 in
            (w3, styledResults, Some (Error "Invalid API Key"))
          else
            styleFramesLoop env loadingMessagePrefix prompt total (S i) rest'
              (styledResults ++ [fallbackEntry frame]) w2
      end
  end.

(** [styleFrames(framesToStyle, loadingMessagePrefix)] *)
Definition styleFrames (env : Env) (framesToStyle : list Frame)
    (loadingMessagePrefix : string) : M (list Frame) :=
  fun w =>
    let prompt := "Transform this image into a " ++ selectedStyle env ++ " style." in
    match styleFramesLoop env loadingMessagePrefix prompt
            (List.length framesToStyle) 0 framesToStyle [] w with
    | (w', styledResults, None) => (w', Normal styledResults)
    | (w', _, Some error) => (w', Throw error)
    end.

(** [createLowResFrames(highResFrames, scale)]: [Promise.all] of one
    conversion per frame; a frame that does not load rejects the whole. *)
Fixpoint createLowResFrames (env : Env) (highResFrames : list Frame) (scale : Q)
    : M (list Frame) :=
  match highResFrames with
  | [] => ret []
  | frame :: rest =>
      match imageLoads env (src frame) with
      | None => throw OtherValue
      | Some _ =>
          let dataUrl := canvasJpeg env scale (src frame) in
          more <- createLowResFrames env rest scale ;;
          ret (mkFrame (nth_error (split ","%char dataUrl) 1) (Some "image/jpeg") dataUrl
               :: more)
      end
  end.

(** [startOutputAnimation()] shows the frames of [stylizedFrames]. *)
Definition startOutputAnimation : M unit :=
  frames <- getStylizedFrames ;;
  emit (StartOutputAnimation frames).

(** The codec loop of [createVideoFromFrames]: the first option that
    [MediaRecorder.isTypeSupported] accepts and for which
    [new MediaRecorder] does not throw. *)
Fixpoint pickRecorder (env : Env) (videoOptions : list CodecOption)
    : option CodecOption :=
  match videoOptions with
  | [] => None
  | options :: more =>
      if isTypeSupported env (codecMimeType options) then
        if recorderConstructs env (codecMimeType options) then Some options
        else pickRecorder env more
      else pickRecorder env more
  end.

Definition videoOptions : list CodecOption :=
  [ mkCodec "video/webm; codecs=vp9" "webm";
    mkCodec "video/webm; codecs=vp8" "webm";
    mkCodec "video/mp4" "mp4";
    mkCodec "video/webm" "webm" ].

(** [createVideoFromFrames(frames, fps)], for a recorder that records
    without an [error] event once it is constructed: the rejection by
    [recorder.onerror] is not modelled. *)
Definition createVideoFromFrames (env : Env) (frames : list Frame) (fps : nat)
    : M VideoFile :=
  match frames with
  | [] => throw (Error "No frames to create video from.")
  | first :: _ =>
      match imageLoads env (src first) with
      | None => throw (Error "Could not load first frame to get video dimensions.")
      | Some (width, height) =>
          match pickRecorder env videoOptions with
          | None => throw (Error "MediaRecorder could not be initialized. Cannot create video.")
          | Some selectedOptions =>
              emit (RecorderStart (codecMimeType selectedOptions)) ;;
              drawFrames env width height frames ;;
              emit RecorderStop ;;
              ret (mkVideo (createObjectURL env (codecMimeType selectedOptions))
                           (extension selectedOptions))
          end
      end
  end.

(** Pass 1 of [processVideoWithProgressivePreview], the body of its first
    [try]. *)
Definition previewPass (env : Env) (capturedFrames : list Frame) : M unit :=
  emit (SetLoading true "Generating low-quality preview...") ;;
  lowResFrames <- createLowResFrames env capturedFrames (1 # 4)%Q ;;
  styledLowResFrames <- styleFrames env lowResFrames "Styling preview frame" ;;
  if Nat.eqb (List.length styledLowResFrames) 0 then
    throw (Error "Preview generation failed. No frames were returned.")
  else
    setStylizedFrames styledLowResFrames ;;
    startOutputAnimation.

(** Pass 2, the body of the second [try]. *)
Definition finalPass (env : Env) (capturedFrames : list Frame) : M unit :=
  styledHighResFrames <- styleFrames env capturedFrames "Styling high-quality frame" ;;
  (if negb (Nat.eqb (List.length styledHighResFrames) (List.length capturedFrames)) then
     emit (ShowError ("Could not stylize all high-quality frames ("
                      ++ showNat (List.length styledHighResFrames) ++ "/"
                      ++ showNat (List.length capturedFrames)
                      ++ " succeeded). Video will be generated with available frames."))
   else ret tt) ;;
  emit (SetLoading true "Encoding final video...") ;;
  video <- createVideoFromFrames env styledHighResFrames 10 ;;
  emit (ShowVideo (url video)) ;;
  emit (OfferDownload (url video)
          ("stylized-video-" ++ showNat (dateNow env) ++ "." ++ fileExtension video)).

(** [processVideoWithProgressivePreview()] on the global [capturedFrames]. *)
Definition processVideoWithProgressivePreview (env : Env)
    (capturedFrames : list Frame) : M unit :=
  fun w =>
    match previewPass env capturedFrames w with
    | (w1, Throw error) =>
        if messageIs error "Invalid API Key" then (w1, Normal tt)
        else (emit (ShowError "Could not generate a preview. Please try again.") ;;
              emit (SetLoading false "Loading...")) w1
    | (w1, Normal _) =>
        (tryCatch (finalPass env capturedFrames)
           (fun error =>
              if messageIs error "Invalid API Key" then ret tt
              else emit (ShowError "Failed to generate final video, but the preview is available.")) ;;
         emit (SetLoading false "Loading...")) w1
    end.

(** The times that [handleExtractFrames] assigns to [currentTime]:
    [interval = duration / frameCountVal], [time = i * interval], each
    rounded. *)
Definition handleExtractFramesTimes (duration : float) (frameCountVal : nat)
    : list float :=
  let interval := (duration / number frameCountVal)%float in
  map (fun i => (number i * interval)%float) (seq 0 frameCountVal).

(** The frame that the script builds by hand from the data URL of a
    canvas, in [createLowResFrames] and in [handleExtractFrames]:
    [{ data: dataUrl.split(',')[1], mimeType: 'image/jpeg', src: dataUrl }] *)
Definition jpegFrame (dataUrl : string) : Frame :=
  mkFrame (nth_error (split ","%char dataUrl) 1) (Some "image/jpeg") dataUrl.

(** The frame that [processImageFile] builds from the result of the
    reader and the type of the file:
    [{ data, mimeType, src: `data:${mimeType};base64,${data}` }] with
    [data = reader.result.split(',')[1]] and [mimeType = file.type]. *)
Definition imageFileFrame (fileType readerResult : string) : Frame :=
  let data := nth_error (split ","%char readerResult) 1 in
  mkFrame data (Some fileType) ("data:" ++ fileType ++ ";base64," ++ tpl data).

(** The [for] loop of [handleExtractFrames], for the [count] iterations
    from [i] on. The executor of [new Promise] runs at once: an iteration
    adds its [seeked] listener and assigns [currentTime], which is
    recorded as [Seek], and the loop goes on without waiting. The result
    is the number of listeners added. *)
Fixpoint addSeekedListeners (interval : float) (i count listeners : nat) : M nat :=
  match count with
  | O => ret listeners
  | S count' =>
      emit (Seek (number i * interval)%float) ;;
      addSeekedListeners interval (S i) count' (S listeners)
  end.

(** [seekedListener]: the video is drawn as it stands, at [position],
    and the frame is pushed on [capturedFrames]. The listener does not
    use the [time] of its iteration. *)
Definition seekedListener (env : Env) (position : float)
    (capturedFrames : list Frame) : list Frame :=
  capturedFrames ++ [jpegFrame (videoJpeg env position)].

(** The dispatch of a [seeked] event to [listeners] listeners: they all
    run, in the order in which they were added, before anything else
    happens to the video; each is removed. *)
Fixpoint dispatchSeeked (env : Env) (position : float) (listeners : nat)
    (capturedFrames : list Frame) : list Frame :=
  match listeners with
  | O => capturedFrames
  | S more =>
      dispatchSeeked env position more (seekedListener env position capturedFrames)
  end.

(** [handleExtractFrames()]. [ready] is the negation of
    [!videoPreview.src || videoPreview.readyState < 2], [frameCountVal]
    the value of the slider, [duration] that of the video, and [position]
    the position of the video at the first [seeked] event after the loop,
    which the browser chooses. [capturedFrames] is the global before the
    call and the result is the global after it. [await Promise.all] ends
    when every listener has run. The display of the preview, after
    [setLoading(false)], is not recorded. *)
Definition handleExtractFrames (env : Env) (ready : bool) (frameCountVal : nat)
    (duration position : float) (capturedFrames : list Frame) : M (list Frame) :=
  if negb ready then
    emit (ShowError "Video is not ready yet.") ;;
    ret capturedFrames
  else
    emit (SetLoading true "Extracting frames...") ;;
    listeners <- addSeekedListeners (duration / number frameCountVal)%float
                   0 frameCountVal 0 ;;
    let captured := dispatchSeeked env position listeners [] in
    emit (SetLoading false "Loading...") ;;
    ret captured.

End App.

(* ===================================================================== *)
(** ** The hybrid main application *)
(* ===================================================================== *)

Module MainApp.

Import Js Runtime FunctionalCore.
Local Open Scope js_scope.

(** [initializeAI(key)]: [renderError] is recorded as [ShowError],
    [renderModal(elements, false)] as [HideApiKeyModal]. *)
Definition initializeAI (env : Env) (key : Value) : M unit :=
  if negb (isValidApiKey key) then
    emit (ShowError "Invalid API Key format")
  else if clientConstructs env key then
    setAi (Some key) ;;
    emit HideApiKeyModal
  else
    emit (ShowError "Invalid API Key").

(** The frame with which [fileToGenerativePart] of the hybrid main
    application resolves:
    [{ mimeType: file.type, data: reader.result.split(',')[1], src: reader.result }] *)
Definition fileFrame (fileType readerResult : string) : Frame :=
  mkFrame (nth_error (split ","%char readerResult) 1) (Some fileType) readerResult.

(** The [for] loop of [handleExtractFrames], for the [count] iterations
    from [i] on: an iteration assigns [currentTime], waits for [seeked],
    after which the video is at [time], and pushes the frame. *)
Fixpoint extractLoop (env : Env) (interval : float) (i count : nat)
    (capturedFrames : list Frame) : M (list Frame) :=
  match count with
  | O => ret capturedFrames
  | S count' =>
      let time := (number i * interval)%float in
      emit (Seek time) ;;
      extractLoop env interval (S i) count'
        (capturedFrames ++ [App.jpegFrame (videoJpeg env time)])
  end.

(** [handleExtractFrames()] of the hybrid main application, which awaits
    each seek: [renderError] is recorded as [ShowError],
    [renderLoadingState] as [SetLoading]. The parameters are those of
    [App.handleExtractFrames]. *)
Definition handleExtractFrames (env : Env) (ready : bool) (frameCount : nat)
    (duration : float) (capturedFrames : list Frame) : M (list Frame) :=
  if negb ready then
    emit (ShowError "Video is not ready yet.") ;;
    ret capturedFrames
  else
    emit (SetLoading true "Extracting frames...") ;;
    captured <- extractLoop env (duration / number frameCount)%float 0 frameCount [] ;;
    emit (SetLoading false "Loading...") ;;
    ret captured.

End MainApp.

(* ===================================================================== *)
(** ** Vocabulary of the properties *)
(* ===================================================================== *)

Module Props.

Import Js Runtime FunctionalCore.

(** The character [c] occurs in [s]. *)
Fixpoint mentions (c : ascii) (s : string) : bool :=
  match s with
  | EmptyString => false
  | String d rest => Ascii.eqb d c || mentions c rest
  end.

(** The base64 alphabet: letters, digits, [+], [/] and the padding [=]. *)
Definition isBase64Char (c : ascii) : bool :=
  let n := nat_of_ascii c in
  (((65 <=? n) && (n <=? 90)) || ((97 <=? n) && (n <=? 122))
   || ((48 <=? n) && (n <=? 57)) || (n =? 43) || (n =? 47) || (n =? 61))%nat.

Fixpoint isBase64 (s : string) : bool :=
  match s with
  | EmptyString => true
  | String c rest => isBase64Char c && isBase64 rest
  end.

(** A MIME string without parameters: not empty, and free of [,], [;] and
    line terminators. *)
Fixpoint plainChars (s : string) : bool :=
  match s with
  | EmptyString => true
  | String c rest =>
      negb (Ascii.eqb c ","%char) && negb (Ascii.eqb c ";"%char)
      && negb (isLineTerminator c) && plainChars rest
  end.

Definition plainMimeType (m : string) : bool :=
  negb (String.eqb m "") && plainChars m.

(** The structure [type;base64,payload] of a data reference. *)
Definition hasDataReferenceStructure (s : string) : Prop :=
  exists type payload, s = type ++ ";base64," ++ payload.

(** The invariant of a frame: [src = 'data:' + mimeType + ';base64,' + data]. *)
Definition frameInvariant (f : Frame) : Prop :=
  src f = "data:" ++ tpl (mimeType f) ++ ";base64," ++ tpl (data f).

(** A data URL [data:image/jpeg;base64,<payload>], the payload without
    comma. *)
Definition jpegDataUrl (s : string) : Prop :=
  exists payload,
    s = "data:image/jpeg;base64," ++ payload /\ mentions ","%char payload = false.

(** [c] is the first entry of [options] that satisfies [usable]. *)
Definition firstSuch (usable : CodecOption -> bool) (options : list CodecOption)
    (c : CodecOption) : Prop :=
  exists before after,
    options = (before ++ c :: after)%list
    /\ usable c = true
    /\ Forall (fun o => usable o = false) before.

(** The outcome of a request is an authentication failure. *)
Definition isAuthenticationFailure (outcome : ApiOutcome) : bool :=
  match outcome with
  | Responded _ => false
  | Rejected text => App.isInvalidKeyError (ServiceError text)
  end.

(** The entry that [styleFrames] pushes for [frame] after [outcome]. *)
Definition entryFor (outcome : ApiOutcome) (frame : Frame) : Frame :=
  match outcome with
  | Responded (Some part) => App.styledEntry part
  | Responded None => App.fallbackEntry frame
  | Rejected _ => App.fallbackEntry frame
  end.

(** The outcome of the request for [frame] when the service has received
    [n] requests before. *)
Definition outcomeAt (env : Env) (prompt : string) (n : nat) (frame : Frame)
    : ApiOutcome :=
  service env n (data frame) (mimeType frame) prompt.

(** The entries for [frames], styled one after the other from request
    number [n] on. *)
Fixpoint expectedEntries (env : Env) (prompt : string) (n : nat)
    (frames : list Frame) : list Frame :=
  match frames with
  | [] => []
  | frame :: rest =>
      entryFor (outcomeAt env prompt n frame) frame
      :: expectedEntries env prompt (S n) rest
  end.

(** The effects of styling [frames], which start at index [i] of [total]:
    for each frame the progress message, then the request. *)
Fixpoint loopEvents (loadingMessagePrefix prompt : string) (total i : nat)
    (frames : list Frame) : list Event :=
  match frames with
  | [] => []
  | frame :: rest =>
      SetLoading true (App.progressMessage loadingMessagePrefix i total)
      :: GenerateContent (data frame) (mimeType frame) prompt
      :: loopEvents loadingMessagePrefix prompt total (S i) rest
  end.

(** No request for one of [frames], from request number [n] on, is an
    authentication failure. *)
Fixpoint noAuthenticationFailure (env : Env) (prompt : string) (n : nat)
    (frames : list Frame) : Prop :=
  match frames with
  | [] => True
  | frame :: rest =>
      isAuthenticationFailure (outcomeAt env prompt n frame) = false
      /\ noAuthenticationFailure env prompt (S n) rest
  end.

(** What the drawing loop puts on the canvas for [frame]. *)
Definition drawn (env : Env) (width height : nat) (frame : Frame) : Event :=
  match imageLoads env (src frame) with
  | Some _ => DrawImage (src frame)
  | None => FillBlack width height
  end.

(** The prompt that [styleFrames] sends. *)
Definition promptOf (env : Env) : string :=
  "Transform this image into a " ++ selectedStyle env ++ " style.".

(** A codec that [isTypeSupported] accepts and whose recorder can be
    constructed. *)
Definition usable (env : Env) (o : CodecOption) : bool :=
  isTypeSupported env (codecMimeType o) && recorderConstructs env (codecMimeType o).

(** The request did not yield a styled image. *)
Definition stylingFailed (outcome : ApiOutcome) : bool :=
  match outcome with
  | Responded (Some _) => false
  | Responded None => true
  | Rejected _ => true
  end.

(** Every request for one of [frames], from request number [n] on, fails
    without being an authentication failure. *)
Fixpoint everyRequestFallsBack (env : Env) (prompt : string) (n : nat)
    (frames : list Frame) : Prop :=
  match frames with
  | [] => True
  | frame :: rest =>
      stylingFailed (outcomeAt env prompt n frame) = true
      /\ isAuthenticationFailure (outcomeAt env prompt n frame) = false
      /\ everyRequestFallsBack env prompt (S n) rest
  end.

(** The frame that [styleFramesBatch] keeps for [frame] after [outcome]. *)
Definition batchEntry (outcome : ApiOutcome) (frame : Frame) : Frame :=
  match outcome with
  | Responded (Some part) => createFrame (Some (partData part)) (Some (partMimeType part))
  | Responded None => frame
  | Rejected _ => frame
  end.

Fixpoint batchEntries (env : Env) (prompt : string) (n : nat)
    (frames : list Frame) : list Frame :=
  match frames with
  | [] => []
  | frame :: rest =>
      batchEntry (outcomeAt env prompt n frame) frame
      :: batchEntries env prompt (S n) rest
  end.

(** The effects of [styleFramesBatch] on [frames]: for each frame the
    progress callback, then the request. *)
Fixpoint batchEvents (prompt : string) (total i : nat) (frames : list Frame)
    : list Event :=
  match frames with
  | [] => []
  | frame :: rest =>
      OnProgress (i + 1) total
      :: GenerateContent (data frame) (mimeType frame) prompt
      :: batchEvents prompt total (S i) rest
  end.

(** The low-resolution frame that [createLowResFrames] makes of [frame]. *)
Definition lowResFrame (env : Env) (scale : Q) (frame : Frame) : Frame :=
  let dataUrl := canvasJpeg env scale (src frame) in
  mkFrame (nth_error (split ","%char dataUrl) 1) (Some "image/jpeg") dataUrl.

(** What [styleFrames] does before it throws on an invalid key. *)
Definition invalidKeyEvents : list Event :=
  [ ShowError "API Key Invalid. Please check your settings.";
    RemoveStoredKey; ShowApiKeyModal ].

(** An entry of the array that [styleFrames] builds from [frames]: an
    object with [src] only, which is the data URL of a returned image part
    or the [src] of one of [frames]. *)
Definition srcOnlyEntry (frames : list Frame) (entry : Frame) : Prop :=
  data entry = None
  /\ mimeType entry = None
  /\ ((exists part,
          src entry = "data:" ++ partMimeType part ++ ";base64," ++ partData part)
      \/ (exists frame, In frame frames /\ src entry = src frame)).

(** Whatever the world, the first effects of [c] are [events]. *)
Definition emitsFirst {A : Type} (events : list Event) (c : M A) : Prop :=
  forall w, exists tail, trace (fst (c w)) = (trace w ++ events ++ tail)%list.

(** The frame built from a canvas data URL by
    [const { data, mimeType } = parseDataUrl(dataUrl); createFrame(data, mimeType)].
    [parseDataUrl] does not throw, so the second branch is never taken. *)
Definition frameOfDataUrl (dataUrl : string) : Frame :=
  match parseDataUrl dataUrl with
  | Normal parsed => createFrame (parsedData parsed) (Some (parsedMimeType parsed))
  | Throw _ => createFrame None None
  end.

(** The world after [n] more requests with the effects [events]. *)
Definition advance (w : World) (n : nat) (events : list Event) : World :=
  mkWorld (trace w ++ events) (served w + n) (ai w) (stylizedFrames w).

End Props.

(* ===================================================================== *)
(** ** Concrete frames and environments *)
(* ===================================================================== *)

Module Examples.

Import Js Runtime FunctionalCore.

Definition frameA : Frame := createFrame (Some "QUFB") (Some "image/png").
Definition frameB : Frame := createFrame (Some "QkJC") (Some "image/png").
Definition frameC : Frame := createFrame (Some "Q0ND") (Some "image/png").
Definition frameD : Frame := createFrame (Some "RERE") (Some "image/png").
Definition frameE : Frame := createFrame (Some "RUVF") (Some "image/png").

(** A frame whose image does not decode. *)
Definition frameBroken : Frame := createFrame (Some "!") (Some "image/png").

Definition styledPart : InlineData := mkInline "image/png" "c3R5bGVk".

(** A browser in which every image but [frameBroken] decodes to 640x480,
    with the given styling service and recorder. *)
Definition browserWith
    (service : nat -> option string -> option string -> string -> ApiOutcome)
    (isTypeSupported recorderConstructs : string -> bool) : Env :=
  mkEnv "Pencil Sketch" service
    (fun s => if String.eqb s (src frameBroken) then None else Some (640, 480))
    (fun _ _ => "data:image/jpeg;base64,bG93cmVz")
    (fun _ => "data:image/jpeg;base64,dmlkZW8=")
    isTypeSupported recorderConstructs
    (fun t => "blob:" ++ t) 1000
    (fun _ => true).

(** Every request is answered with a styled image; every codec works. *)
Definition browser : Env :=
  browserWith (fun _ _ _ _ => Responded (Some styledPart))
    (fun _ => true) (fun _ => true).

(** The service answers every request without an image. *)
Definition browserNoImage : Env :=
  browserWith (fun _ _ _ _ => Responded None) (fun _ => true) (fun _ => true).

(** The service rejects the request number [k] with a 403 and answers the
    others with a styled image. *)
Definition browserForbiddenAt (k : nat) : Env :=
  browserWith
    (fun n _ _ _ =>
       if Nat.eqb n k then Rejected "ApiError: 403 Forbidden. API_KEY_INVALID"
       else Responded (Some styledPart))
    (fun _ => true) (fun _ => true).

(** The service styles the first frame, returns no image for the second,
    fails to answer the third, and styles the others. *)
Definition browserFlaky : Env :=
  browserWith
    (fun n _ _ _ =>
       match n with
       | 1 => Responded None
       | 2 => Rejected "TypeError: Failed to fetch"
       | _ => Responded (Some styledPart)
       end)
    (fun _ => true) (fun _ => true).

(** [isTypeSupported] accepts vp9 and mp4, and [new MediaRecorder] throws
    for vp9. *)
Definition browserVp9Throws : Env :=
  browserWith (fun _ _ _ _ => Responded (Some styledPart))
    (fun t => String.eqb t "video/webm; codecs=vp9" || String.eqb t "video/mp4")
    (fun t => String.eqb t "video/mp4").

(** Only [video/mp4] is supported. *)
Definition browserMp4Only : Env :=
  browserWith (fun _ _ _ _ => Responded (Some styledPart))
    (fun t => String.eqb t "video/mp4") (fun _ => true).

Definition start : World := mkWorld [] 0 None [].

(** A video that shows, at each of the times 0, 2, 4, 6 and 8, a picture
    of its own. *)
Definition picture (time : float) : string :=
  "data:image/jpeg;base64,"
  ++ (if PrimFloat.eqb time 0 then "dDA="
      else if PrimFloat.eqb time 2 then "dDI="
      else if PrimFloat.eqb time 4 then "dDQ="
      else if PrimFloat.eqb time 6 then "dDY="
      else if PrimFloat.eqb time 8 then "dDg="
      else "dD8=").

(** The browser [browser] with this video. *)
Definition camcorder : Env :=
  mkEnv "Pencil Sketch" (fun _ _ _ _ => Responded (Some styledPart))
    (fun s => if String.eqb s (src frameBroken) then None else Some (640, 480))
    (fun _ _ => "data:image/jpeg;base64,bG93cmVz")
    picture
    (fun _ => true) (fun _ => true)
    (fun t => "blob:" ++ t) 1000
    (fun _ => true).

(** A browser whose canvas has no pixel, as for an image less than four
    pixels wide scaled by 0.25: [toDataURL] returns ["data:,"]. *)
Definition browserEmptyCanvas : Env :=
  mkEnv "Pencil Sketch" (fun _ _ _ _ => Responded (Some styledPart))
    (fun s => if String.eqb s (src frameBroken) then None else Some (2, 2))
    (fun _ _ => "data:,")
    (fun _ => "data:,")
    (fun _ => true) (fun _ => true)
    (fun t => "blob:" ++ t) 1000
    (fun _ => true).

End Examples.

(* ===================================================================== *)
(** ** Further string primitives *)
(* ===================================================================== *)

Module JsText.

(** White space and line terminators that [trim] removes, among the code
    units of [ascii]: U+0009 to U+000D, U+0020 and U+00A0. *)
Definition isWhiteSpace (c : ascii) : bool :=
  let n := nat_of_ascii c in
  (((9 <=? n) && (n <=? 13)) || (n =? 32) || (n =? 160))%nat.

(** [s.trimStart()] *)
Fixpoint trimStart (s : string) : string :=
  match s with
  | EmptyString => EmptyString
  | String c rest => if isWhiteSpace c then trimStart rest else s
  end.

(** [s.trimEnd()] *)
Fixpoint trimEnd (s : string) : string :=
  match s with
  | EmptyString => EmptyString
  | String c rest =>
      match trimEnd rest with
      | EmptyString => if isWhiteSpace c then EmptyString else String c EmptyString
      | kept => String c kept
      end
  end.

(** [s.trim()] *)
Definition trim (s : string) : string := trimEnd (trimStart s).

(** Truthiness of a value that is a string, [null] or [undefined]: the
    empty string is falsy. *)
Definition truthy (v : option string) : bool :=
  match v with
  | Some EmptyString => false
  | Some _ => true
  | None => false
  end.

(** The string that a truthy value is. *)
Definition text (v : option string) : string :=
  match v with
  | Some s => s
  | None => EmptyString
  end.

End JsText.

(* ===================================================================== *)
(** ** functional-core.js: the application state *)
(* ===================================================================== *)

Module CoreState.

Import JsText.

Inductive MediaType := MediaNone | MediaImage | MediaVideo.

Record AppState := mkAppState {
  capturedFrames : list Frame;
  stylizedFrames : list Frame;
  mediaType : MediaType;
  downloadableUrl : option string;
  downloadableFilename : string;
  isLoading : bool;
  loadingMessage : string;
  currentFrameIndex : Z;
  error : option string
}.

(** [currentFrameIndex] is a number that holds an integer of magnitude at
    most [2^53], the range in which a number counts. [i + 1] is exact
    there but for [2^53 + 1], which is rounded to [2^53]. *)
Definition increment (i : Z) : Z :=
  if Z.eqb i (2 ^ 53) then i else (i + 1)%Z.

(** A [Partial<AppState>]: the properties that an update object has. *)
Record Updates := mkUpdates {
  newCapturedFrames : option (list Frame);
  newStylizedFrames : option (list Frame);
  newMediaType : option MediaType;
  newDownloadableUrl : option (option string);
  newDownloadableFilename : option string;
  newIsLoading : option bool;
  newLoadingMessage : option string;
  newCurrentFrameIndex : option Z;
  newError : option (option string)
}.

(** The update object [{}]. *)
Definition noUpdates : Updates :=
  mkUpdates None None None None None None None None None.

(** The value of a property after a spread. *)
Definition spread {A : Type} (old : A) (new : option A) : A :=
  match new with
  | Some a => a
  | None => old
  end.

(** [createInitialState] *)
Definition createInitialState : AppState :=
  mkAppState [] [] MediaNone None "" false "" 0%Z None.

(** [updateState]: [({ ...state, ...updates })] *)
Definition updateState (state : AppState) (updates : Updates) : AppState :=
  mkAppState
    (spread (capturedFrames state) (newCapturedFrames updates))
    (spread (stylizedFrames state) (newStylizedFrames updates))
    (spread (mediaType state) (newMediaType updates))
    (spread (downloadableUrl state) (newDownloadableUrl updates))
    (spread (downloadableFilename state) (newDownloadableFilename updates))
    (spread (isLoading state) (newIsLoading updates))
    (spread (loadingMessage state) (newLoadingMessage updates))
    (spread (currentFrameIndex state) (newCurrentFrameIndex updates))
    (spread (error state) (newError updates)).

(** [setLoadingState(state, isLoading, message = 'Loading...')] *)
Definition setLoadingState (state : AppState) (loading : bool)
    (message : option string) : AppState :=
  updateState state
    (mkUpdates None None None None None (Some loading)
       (Some (match message with Some m => m | None => "Loading..." end))
       None (Some None)).

(** [setErrorState] *)
Definition setErrorState (state : AppState) (errorMessage : string) : AppState :=
  updateState state
    (mkUpdates None None None None None (Some false) None None
       (Some (Some errorMessage))).

(** [resetAppState]: [({ ...createInitialState() })] *)
Definition resetAppState (state : AppState) : AppState :=
  createInitialState.

(** [addCapturedFrames] *)
Definition addCapturedFrames (state : AppState) (frames : list Frame)
    (type : MediaType) : AppState :=
  updateState state
    (mkUpdates (Some frames) None (Some type) None None None None None (Some None)).

(** [addStylizedFrames] *)
Definition addStylizedFrames (state : AppState) (frames : list Frame) : AppState :=
  updateState state
    (mkUpdates None (Some frames) None None None None None None None).

(** [setDownloadable] *)
Definition setDownloadable (state : AppState) (url filename : string) : AppState :=
  updateState state
    (mkUpdates None None None (Some (Some url)) (Some filename) None None None None).

(** [nextFrameIndex]: [%] is the remainder that has the sign of the
    dividend, and is exact; the lengths of arrays are below [2^32]. *)
Definition nextFrameIndex (state : AppState) : AppState :=
  let maxIndex :=
    Z.max (Z.of_nat (List.length (stylizedFrames state)))
          (Z.of_nat (List.length (capturedFrames state))) in
  if Z.eqb maxIndex 0 then state
  else
    updateState state
      (mkUpdates None None None None None None None
         (Some (Z.rem (increment (currentFrameIndex state)) maxIndex)) None).

(** [hasFrames] *)
Definition hasFrames (state : AppState) : bool :=
  Nat.ltb 0 (List.length (capturedFrames state)).

(** [canGenerate]: [hasFrames(state) && !state.isLoading && !state.error] *)
Definition canGenerate (state : AppState) : bool :=
  hasFrames state && negb (isLoading state) && negb (truthy (error state)).

End CoreState.

(* ===================================================================== *)
(** ** functional-core.js: helpers *)
(* ===================================================================== *)

Module CoreHelpers.

(** An entry [{ success, frame }]; [frame] may be missing. *)
Record StyleResult := mkResult {
  success : bool;
  frame : option Frame
}.

(** [extractSuccessfulFrames]:
    [results.filter(r => r.success && r.frame).map(r => r.frame)].
    An element of the result is [r.frame], which for a JavaScript caller
    may be [undefined]. *)
Definition extractSuccessfulFrames (results : list StyleResult)
    : list (option Frame) :=
  map frame
    (filter (fun r => success r && match frame r with Some _ => true | None => false end)
       results).

(** [compose(...fns)(x)]: [fns.reduceRight((acc, fn) => fn(acc), x)] *)
Definition compose {A : Type} (fns : list (A -> A)) (x : A) : A :=
  fold_right (fun fn acc => fn acc) x fns.

(** [pipe(...fns)(x)]: [fns.reduce((acc, fn) => fn(acc), x)] *)
Definition pipe {A : Type} (fns : list (A -> A)) (x : A) : A :=
  fold_left (fun acc fn => fn acc) fns x.

(** [generateFilename(type, extension)], [Date.now()] being [now]. *)
Definition generateFilename (type extension : string) (now : nat) : string :=
  "stylized-" ++ type ++ "-" ++ Js.showNat now ++ "." ++ extension.

Section Memoize.

Variables A B : Type.

(** [JSON.stringify], and the function that is memoized, which is pure. *)
Variable stringify : A -> string.
Variable fn : A -> B.

(** The [Map] of the closure, in insertion order, and the number of times
    that [fn] has been called. *)
Record MemoState := mkMemo {
  cache : list (string * B);
  calls : nat
}.

Definition emptyMemo : MemoState := mkMemo [] 0.

(** [cache.get(key)], [None] when [cache.has(key)] is false. *)
Definition cacheGet (key : string) (m : MemoState) : option B :=
  option_map snd (find (fun entry => String.eqb (fst entry) key) (cache m)).

(** The function that [memoize(fn)] returns. *)
Definition memoized (arg : A) (m : MemoState) : MemoState * B :=
  let key := stringify arg in
  match cacheGet key m with
  | Some cached => (m, cached)
  | None =>
      let result := fn arg in
      (mkMemo (cache m ++ [(key, result)]) (S (calls m)), result)
  end.

End Memoize.

Arguments mkMemo {B} _ _.
Arguments cache {B} _.
Arguments calls {B} _.
Arguments emptyMemo {B}.
Arguments cacheGet {B} _ _.
Arguments memoized {A B} _ _ _ _.

End CoreHelpers.

(* ===================================================================== *)
(** ** effects.js: the IO class, storage and file effects *)
(* ===================================================================== *)

(** [localStorage]: the items, without two items of the same key. *)
Module Storage.

Definition t : Type := list (string * string).

(** [localStorage.getItem(key)], [None] for [null]. *)
Definition getItem (key : string) (s : t) : option string :=
  option_map snd (find (fun item => String.eqb (fst item) key) s).

(** [localStorage.removeItem(key)] *)
Definition removeItem (key : string) (s : t) : t :=
  filter (fun item => negb (String.eqb (fst item) key)) s.

(** [localStorage.setItem(key, value)] *)
Definition setItem (key value : string) (s : t) : t :=
  (removeItem key s ++ [(key, value)])%list.

End Storage.

(** The page: the world of the script, its [localStorage], and the
    messages shown by [alert]. *)
Record Page := mkPage {
  world : Runtime.World;
  localStorage : Storage.t;
  alerts : list string
}.

Module IO.

Import Js Runtime FunctionalCore.

(** An [IO] holds an effect, a function without arguments that acts on a
    state [S] when it is called. *)
Definition t (S A : Type) : Type := S -> S * Completion A.

(** [IO.of(value)] ([of] is a reserved word) *)
Definition of_ {S A : Type} (value : A) : t S A := fun s => (s, Normal value).

(** [io.map(fn)]: [new IO(() => fn(this.effect()))] *)
Definition map {S A B : Type} (io : t S A) (fn : A -> B) : t S B :=
  fun s =>
    match io s with
    | (s', Normal a) => (s', Normal (fn a))
    | (s', Throw e) => (s', Throw e)
    end.

(** [io.flatMap(fn)]: [new IO(() => fn(this.effect()).effect())] *)
Definition flatMap {S A B : Type} (io : t S A) (fn : A -> t S B) : t S B :=
  fun s =>
    match io s with
    | (s', Normal a) => fn a s'
    | (s', Throw e) => (s', Throw e)
    end.

(** [io.run()] *)
Definition run {S A : Type} (io : t S A) (s : S) : S * Completion A := io s.

(** [getStoredApiKey()] *)
Definition getStoredApiKey : t Page (option string) :=
  fun p => (p, Normal (Storage.getItem "gemini_api_key" (localStorage p))).

(** [saveApiKey(key)] *)
Definition saveApiKey (key : string) : t Page unit :=
  fun p =>
    (mkPage (world p) (Storage.setItem "gemini_api_key" key (localStorage p)) (alerts p),
     Normal tt).

(** [removeApiKey()] *)
Definition removeApiKey : t Page unit :=
  fun p =>
    (mkPage (world p) (Storage.removeItem "gemini_api_key" (localStorage p)) (alerts p),
     Normal tt).

(** What a [FileReader] ends with: a string result, a result that is not
    a string, or an error event. *)
Inductive ReadOutcome :=
| ReadString (result : string)
| ReadOther
| ReadFailed.

(** The frame that the effect layer makes of a data URL:
    [const { data, mimeType } = parseDataUrl(dataUrl); createFrame(data, mimeType)] *)
Definition frameFromDataUrl (dataUrl : string) : t World Frame :=
  flatMap (fun w => (w, parseDataUrl dataUrl))
    (fun parsed => of_ (createFrame (parsedData parsed) (Some (parsedMimeType parsed)))).

(** [fileToFrame(file).run()], the reader ending with [outcome]. *)
Definition fileToFrame (outcome : ReadOutcome) : t World Frame :=
  match outcome with
  | ReadString result => frameFromDataUrl result
  | ReadOther => fun w => (w, Throw (Error "Failed to read file"))
  | ReadFailed => fun w => (w, Throw OtherValue)
  end.

(** [captureVideoFrame(video).run()], the video being at [time]. *)
Definition captureVideoFrame (env : Env) (time : float) : t World Frame :=
  frameFromDataUrl (videoJpeg env time).

(** [scaleFrame(frame, scale).run()] *)
Definition scaleFrame (env : Env) (frame : Frame) (scale : Q) : t World Frame :=
  match imageLoads env (src frame) with
  | Some _ => frameFromDataUrl (canvasJpeg env scale (src frame))
  | None => fun w => (w, Throw OtherValue)
  end.

End IO.

(* ===================================================================== *)
(** ** The application script: the dispatcher, single images and the key *)
(* ===================================================================== *)

Module AppFlow.

Import Js JsText Runtime.
Local Open Scope js_scope.

(** [generateSingleImage()] on the global [capturedFrames]. *)
Definition generateSingleImage (env : Env) (capturedFrames : list Frame) : M unit :=
  emit (SetLoading true "Applying artistic style...") ;;
  tryCatch
    (styledResults <- App.styleFrames env capturedFrames "Styling image" ;;
     setStylizedFrames styledResults ;;
     match styledResults with
     | [] => emit (ShowError "The model did not return an image. Please try again.")
     | first :: _ =>
         App.startOutputAnimation ;;
         emit (OfferDownload (src first)
                 ("stylized-image-" ++ showNat (dateNow env) ++ ".png"))
     end)
    (fun error =>
       if messageIs error "Invalid API Key" then ret tt
       else emit (ShowError
                    "Failed to generate image. Please check your connection and try again.")) ;;
  emit (SetLoading false "Loading...").

(** [handleGenerateClick()]; the two [clearInterval] calls are not
    modelled. *)
Definition handleGenerateClick (env : Env) (capturedFrames : list Frame) : M unit :=
  fun w =>
    match ai w with
    | None =>
        (emit (ShowError "API Key is missing. Please configure it in settings.") ;;
         emit ShowApiKeyModal) w
    | Some _ =>
        match capturedFrames with
        | [] => emit (ShowError "Please upload an image or extract frames first.") w
        | [_] => generateSingleImage env capturedFrames w
        | _ => App.processVideoWithProgressivePreview env capturedFrames w
        end
    end.

(** [initializeAI(key)] of the application script: no format check. *)
Definition initializeAI (env : Env) (key : string) : M unit :=
  if clientConstructs env (Str key) then setAi (Some (Str key))
  else emit (ShowError "Invalid API Key format.").

Definition PageM (A : Type) : Type := Page -> Page * Completion A.

(** What the [localStorage.removeItem('gemini_api_key')] calls recorded in
    [events] leave of the storage. *)
Definition storageAfter (events : list Event) (s : Storage.t) : Storage.t :=
  fold_left
    (fun st e =>
       match e with
       | RemoveStoredKey => Storage.removeItem "gemini_api_key" st
       | _ => st
       end)
    events s.

(** An action of the script, run in the page: the removals of the stored
    key that it records are applied to the storage. *)
Definition inWorld {A : Type} (c : M A) : PageM A :=
  fun p =>
    let (w', r) := c (world p) in
    (mkPage w'
       (storageAfter (skipn (List.length (trace (world p))) (trace w')) (localStorage p))
       (alerts p),
     r).

(** [const isPlaceholder = !envKey || envKey === 'TU_API_KEY_AQUI'] *)
Definition isPlaceholder (envKey : option string) : bool :=
  negb (truthy envKey)
  || match envKey with
     | Some k => String.eqb k "TU_API_KEY_AQUI"
     | None => false
     end.

(** [checkApiKey()], [process.env.API_KEY] being [envKey]. *)
Definition checkApiKey (env : Env) (envKey : option string) : PageM unit :=
  fun p =>
    let storedKey := Storage.getItem "gemini_api_key" (localStorage p) in
    if negb (isPlaceholder envKey) then inWorld (initializeAI env (text envKey)) p
    else if truthy storedKey then inWorld (initializeAI env (text storedKey)) p
    else inWorld (emit ShowApiKeyModal) p.

(** [saveApiKey()], [apiKeyInput.value] being [input]. *)
Definition saveApiKey (env : Env) (input : string) : PageM unit :=
  fun p =>
    let key := trim input in
    if Nat.ltb 0 (String.length key) then
      let p1 := mkPage (world p)
                  (Storage.setItem "gemini_api_key" key (localStorage p)) (alerts p) in
      inWorld (initializeAI env key ;; emit HideApiKeyModal) p1
    else
      (mkPage (world p) (localStorage p)
         (alerts p ++ ["Please enter a valid API Key."])%list,
       Normal tt).

(** The page after the [click] handler of the generate button. *)
Definition clickGenerate (env : Env) (capturedFrames : list Frame) : PageM unit :=
  inWorld (handleGenerateClick env capturedFrames).

End AppFlow.

(* ===================================================================== *)
(** ** The hybrid main application: the key *)
(* ===================================================================== *)

Module MainFlow.

Import Js JsText Runtime.
Local Open Scope js_scope.

(** [checkApiKey()], [process.env.API_KEY] being [envKey];
    [renderModal(elements, true)] is recorded as [ShowApiKeyModal]. *)
Definition checkApiKey (env : Env) (envKey : option string) : AppFlow.PageM unit :=
  fun p =>
    let storedKey := Storage.getItem "gemini_api_key" (localStorage p) in
    if negb (AppFlow.isPlaceholder envKey) then
      AppFlow.inWorld (MainApp.initializeAI env (Str (text envKey))) p
    else if truthy storedKey then
      AppFlow.inWorld (MainApp.initializeAI env (Str (text storedKey))) p
    else AppFlow.inWorld (emit ShowApiKeyModal) p.

(** [handleSaveApiKey()], [elements.apiKeyInput.value] being [input]. *)
Definition handleSaveApiKey (env : Env) (input : string) : AppFlow.PageM unit :=
  fun p =>
    let key := trim input in
    if Nat.ltb 0 (String.length key) then
      let p1 := mkPage (world p)
                  (Storage.setItem "gemini_api_key" key (localStorage p)) (alerts p) in
      AppFlow.inWorld (MainApp.initializeAI env (Str key)) p1
    else
      (mkPage (world p) (localStorage p)
         (alerts p ++ ["Please enter a valid API Key."])%list,
       Normal tt).

End MainFlow.

(* ===================================================================== *)
(** ** view.js *)
(* ===================================================================== *)

Module View.

(** What the rendering functions read and write of a DOM element. *)
Record Element := mkElement {
  classList : list string;
  attributes : list (string * string);
  disabled : bool;
  textContent : string;
  innerHTML : string;
  source : string;
  value : string;
  style : list (string * string)
}.

(** The object that [getDOMElements()] returns: an element, or [null],
    under each of its property names. The elements are distinct nodes. *)
Definition Elements : Type := string -> option Element.

(** [if (element) ...] on the element under [name]. *)
Definition on (name : string) (change : Element -> Element) (elements : Elements)
    : Elements :=
  fun n => if String.eqb n name then option_map change (elements n) else elements n.

Definition hasClass (className : string) (e : Element) : bool :=
  existsb (String.eqb className) (classList e).

(** [element.classList.add(className)] *)
Definition classAdd (className : string) (e : Element) : Element :=
  mkElement
    (if hasClass className e then classList e else (classList e ++ [className])%list)
    (attributes e) (disabled e) (textContent e) (innerHTML e) (source e) (value e)
    (style e).

(** [element.classList.remove(className)] *)
Definition classRemove (className : string) (e : Element) : Element :=
  mkElement
    (filter (fun c => negb (String.eqb c className)) (classList e))
    (attributes e) (disabled e) (textContent e) (innerHTML e) (source e) (value e)
    (style e).

(** [element.setAttribute(attr, value)] *)
Definition attributeSet (attr v : string) (e : Element) : Element :=
  mkElement (classList e)
    (filter (fun a => negb (String.eqb (fst a) attr)) (attributes e) ++ [(attr, v)])%list
    (disabled e) (textContent e) (innerHTML e) (source e) (value e) (style e).

(** [element.removeAttribute(attr)] *)
Definition attributeRemove (attr : string) (e : Element) : Element :=
  mkElement (classList e)
    (filter (fun a => negb (String.eqb (fst a) attr)) (attributes e))
    (disabled e) (textContent e) (innerHTML e) (source e) (value e) (style e).

Definition hasAttribute (attr : string) (e : Element) : bool :=
  existsb (fun a => String.eqb (fst a) attr) (attributes e).

(** [addClass], [removeClass], [toggleClass] with a boolean [force] *)
Definition addClass (name className : string) : Elements -> Elements :=
  on name (classAdd className).

Definition removeClass (name className : string) : Elements -> Elements :=
  on name (classRemove className).

Definition toggleClass (name className : string) (force : bool)
    : Elements -> Elements :=
  on name (if force then classAdd className else classRemove className).

(** [show], [hide] *)
Definition show (name : string) : Elements -> Elements := removeClass name "hidden".
Definition hide (name : string) : Elements -> Elements := addClass name "hidden".

(** [setAttribute], [removeAttribute] *)
Definition setAttribute (name attr v : string) : Elements -> Elements :=
  on name (attributeSet attr v).

Definition removeAttribute (name attr : string) : Elements -> Elements :=
  on name (attributeRemove attr).

(** [setDisabled] *)
Definition setDisabled (name : string) (d : bool) (elements : Elements) : Elements :=
  let elements1 :=
    on name
       (fun e => mkElement (classList e) (attributes e) d (textContent e) (innerHTML e)
                   (source e) (value e) (style e))
       elements in
  if d then setAttribute name "aria-disabled" "true" elements1
  else removeAttribute name "aria-disabled" elements1.

(** [setText], [setHTML], [setSrc], [setStyle] *)
Definition setText (name t : string) : Elements -> Elements :=
  on name (fun e => mkElement (classList e) (attributes e) (disabled e) t (innerHTML e)
                      (source e) (value e) (style e)).

Definition setHTML (name html : string) : Elements -> Elements :=
  on name (fun e => mkElement (classList e) (attributes e) (disabled e) (textContent e)
                      html (source e) (value e) (style e)).

Definition setSrc (name s : string) : Elements -> Elements :=
  on name (fun e => mkElement (classList e) (attributes e) (disabled e) (textContent e)
                      (innerHTML e) s (value e) (style e)).

Definition setStyle (name property v : string) : Elements -> Elements :=
  on name (fun e => mkElement (classList e) (attributes e) (disabled e) (textContent e)
                      (innerHTML e) (source e) (value e)
                      (filter (fun a => negb (String.eqb (fst a) property)) (style e)
                       ++ [(property, v)])%list).

(** [f1 ; f2 ; ...] on the elements. *)
Definition thenDo (first next : Elements -> Elements) : Elements -> Elements :=
  fun elements => next (first elements).

Declare Scope view_scope.
Delimit Scope view_scope with view.
Notation "f ;; g" := (thenDo f g) (at level 61, right associativity) : view_scope.
Local Open Scope view_scope.

(** [renderLoadingState(elements, isLoading, message = 'Loading...')] *)
Definition renderLoadingState (isLoading : bool) (message : option string)
    : Elements -> Elements :=
  let message := match message with Some m => m | None => "Loading..." end in
  setDisabled "generateBtn" isLoading ;;
  setDisabled "cameraBtn" isLoading ;;
  setDisabled "extractFramesBtn" isLoading ;;
  if isLoading then
    setAttribute "uploadLabel" "aria-disabled" "true" ;;
    show "loader" ;;
    setText "outputPlaceholder" message ;;
    show "outputPlaceholder" ;;
    setStyle "outputPlaceholder" "color" "var(--text-color)"
  else
    removeAttribute "uploadLabel" "aria-disabled" ;;
    hide "loader".

(** [renderError] *)
Definition renderError (errorMessage : string) : Elements -> Elements :=
  setText "outputPlaceholder" ("Error: " ++ errorMessage) ;;
  setStyle "outputPlaceholder" "color" "var(--error-color)" ;;
  show "outputPlaceholder" ;;
  hide "generatedImageWrapper" ;;
  hide "outputVideo" ;;
  hide "downloadBtn".

(** [renderModal] *)
Definition renderModal (visible : bool) : Elements -> Elements :=
  toggleClass "apiKeyModal" "hidden" (negb visible).

(** [renderImagePreview] *)
Definition renderImagePreview (s : string) : Elements -> Elements :=
  setSrc "imagePreview" s ;;
  show "imagePreview" ;;
  hide "videoPreview" ;;
  hide "previewPlaceholder" ;;
  hide "frameControls".

(** [renderVideoPreview] *)
Definition renderVideoPreview (s : string) : Elements -> Elements :=
  setSrc "videoPreview" s ;;
  show "videoPreview" ;;
  hide "imagePreview" ;;
  hide "previewPlaceholder" ;;
  show "frameControls".

(** [renderGenerateButton] *)
Definition renderGenerateButton (t : string) (enabled : bool) : Elements -> Elements :=
  setText "generateBtn" t ;;
  setDisabled "generateBtn" (negb enabled).

(** [renderStylizedImage] *)
Definition renderStylizedImage (s : string) : Elements -> Elements :=
  setSrc "generatedImageA" s ;;
  setSrc "generatedImageB" "" ;;
  setStyle "generatedImageA" "opacity" "1" ;;
  setStyle "generatedImageB" "opacity" "0" ;;
  show "generatedImageWrapper" ;;
  hide "outputVideo" ;;
  hide "outputPlaceholder".

(** [renderOutputVideo] *)
Definition renderOutputVideo (s : string) : Elements -> Elements :=
  setSrc "outputVideo" s ;;
  show "outputVideo" ;;
  hide "generatedImageWrapper" ;;
  hide "outputPlaceholder".

(** [clearPreview] *)
Definition clearPreview : Elements -> Elements :=
  hide "imagePreview" ;;
  hide "videoPreview" ;;
  hide "frameControls" ;;
  show "previewPlaceholder" ;;
  setSrc "imagePreview" "" ;;
  setSrc "videoPreview" "".

(** [clearOutput] *)
Definition clearOutput : Elements -> Elements :=
  hide "generatedImageWrapper" ;;
  hide "outputVideo" ;;
  hide "downloadBtn" ;;
  setText "outputPlaceholder" "Your stylized image will appear here." ;;
  setStyle "outputPlaceholder" "color" "#888" ;;
  show "outputPlaceholder".

(** [resetUI] *)
Definition resetUI : Elements -> Elements :=
  clearPreview ;;
  clearOutput ;;
  renderGenerateButton "Apply Style" false ;;
  renderLoadingState false None.

(** The element under [name] is there and is not hidden. *)
Definition visible (name : string) (elements : Elements) : bool :=
  match elements name with
  | Some e => negb (hasClass "hidden" e)
  | None => false
  end.

(** The element under [name] is there and is hidden. *)
Definition hidden (name : string) (elements : Elements) : bool :=
  match elements name with
  | Some e => hasClass "hidden" e
  | None => false
  end.

End View.

(* ===================================================================== *)
(** ** Vocabulary of the further properties *)
(* ===================================================================== *)

Module MoreProps.

Import Js Runtime FunctionalCore.

(** The state [state] with [index] as [currentFrameIndex]. *)
Definition withFrameIndex (state : CoreState.AppState) (index : Z)
    : CoreState.AppState :=
  CoreState.mkAppState
    (CoreState.capturedFrames state) (CoreState.stylizedFrames state)
    (CoreState.mediaType state) (CoreState.downloadableUrl state)
    (CoreState.downloadableFilename state) (CoreState.isLoading state)
    (CoreState.loadingMessage state) index (CoreState.error state).

(** The number of frames over which [nextFrameIndex] cycles. *)
Definition frameCycle (state : CoreState.AppState) : Z :=
  Z.max (Z.of_nat (List.length (CoreState.stylizedFrames state)))
        (Z.of_nat (List.length (CoreState.capturedFrames state))).

(** The frames of the results that succeeded with a frame. *)
Fixpoint successfulFrames (results : list CoreHelpers.StyleResult) : list Frame :=
  match results with
  | [] => []
  | r :: rest =>
      match CoreHelpers.success r, CoreHelpers.frame r with
      | true, Some f => f :: successfulFrames rest
      | _, _ => successfulFrames rest
      end
  end.

(** The memoized function called on each of [args] in turn: the state at
    the end and the values returned. *)
Fixpoint memoRun {A B : Type} (stringify : A -> string) (fn : A -> B)
    (args : list A) (m : CoreHelpers.MemoState B)
    : CoreHelpers.MemoState B * list B :=
  match args with
  | [] => (m, [])
  | arg :: rest =>
      let (m1, value) := CoreHelpers.memoized stringify fn arg m in
      let (m2, values) := memoRun stringify fn rest m1 in
      (m2, value :: values)
  end.

(** Every cached value is the value of [fn] at an argument with the key
    under which it is cached. *)
Definition cacheSound {A B : Type} (stringify : A -> string) (fn : A -> B)
    (m : CoreHelpers.MemoState B) : Prop :=
  forall key value,
    CoreHelpers.cacheGet key m = Some value ->
    exists a, stringify a = key /\ value = fn a.

(** A page in which a client has been made. *)
Definition ready : World := mkWorld [] 0 (Some (Str "AIzaSyExample-key")) [].

(** What the final pass of [processVideoWithProgressivePreview] does with
    the styled frames [frames] once it has announced the encoding: the
    recorder is started, every frame is drawn, the recorder is stopped and
    the video is shown and offered, when the first frame decodes and a
    recorder can be made; the failure is reported otherwise. *)
Definition assemblyEvents (env : Env) (frames : list Frame) : list Event :=
  match frames with
  | [] => [ShowError "Failed to generate final video, but the preview is available."]
  | first :: _ =>
      match imageLoads env (src first), find (Props.usable env) App.videoOptions with
      | Some (width, height), Some c =>
          (RecorderStart (codecMimeType c)
           :: map (Props.drawn env width height) frames
           ++ [ RecorderStop;
                ShowVideo (createObjectURL env (codecMimeType c));
                OfferDownload (createObjectURL env (codecMimeType c))
                  ("stylized-video-" ++ showNat (dateNow env) ++ "."
                   ++ extension c)%string ])%list
      | _, _ =>
          [ShowError "Failed to generate final video, but the preview is available."]
      end
  end.

(** The events of a single image up to its request. *)
Definition singleImageRequest (env : Env) (frame : Frame) : list Event :=
  [ SetLoading true "Applying artistic style...";
    SetLoading true "Styling image 1 of 1...";
    GenerateContent (data frame) (mimeType frame) (Props.promptOf env) ].

(** The element under [name] is there. *)
Definition present (name : string) (elements : View.Elements) : bool :=
  match elements name with
  | Some _ => true
  | None => false
  end.

(** The three displays of the output panel, and those of the preview. *)
Definition outputDisplays : list string :=
  ["generatedImageWrapper"; "outputVideo"; "outputPlaceholder"]%string.

Definition previewDisplays : list string :=
  ["imagePreview"; "videoPreview"; "previewPlaceholder"]%string.

(** The buttons that [renderLoadingState] disables. *)
Definition loadingControls : list string :=
  ["generateBtn"; "cameraBtn"; "extractFramesBtn"]%string.

(** A document in which every element is there, hidden and disabled. *)
Definition allHidden : View.Elements :=
  fun _ =>
    Some (View.mkElement ["hidden"%string] [("aria-disabled", "true")]%string true
            "" "" "" "" []).

End MoreProps.

(* ===================================================================== *)
(** ** Strings *)
(* ===================================================================== *)

Import Js Runtime FunctionalCore Props.

Lemma append_assoc (a b c : string) : (a ++ b) ++ c = a ++ (b ++ c).
Proof. induction a as [|x a IH]; simpl; [reflexivity | now rewrite IH]. Qed.

Lemma prefix_append (p s : string) :
  String.prefix p s = true <-> exists rest, s = p ++ rest.
Proof.
  revert s. induction p as [|c p IH]; intros s.
  - split; [intros _; now exists s | intros _; now destruct s].
  - destruct s as [|d s]; simpl.
    + split; [discriminate | intros [rest H]; discriminate H].
    + destruct (Ascii.ascii_dec c d) as [->|Hne].
      * rewrite IH. split; intros [rest H]; exists rest; [now rewrite H | now injection H].
      * split; [discriminate | intros [rest H]; injection H; congruence].
Qed.

Lemma mentions_append (c : ascii) (a b : string) :
  mentions c (a ++ b) = mentions c a || mentions c b.
Proof.
  induction a as [|x a IH]; simpl; [reflexivity|].
  now rewrite IH, orb_assoc.
Qed.

Lemma split_not_nil (sep : ascii) (s : string) : split sep s <> [].
Proof.
  induction s as [|c s IH]; simpl; [discriminate|].
  destruct (Ascii.eqb c sep); [discriminate|].
  destruct (split sep s); [contradiction | discriminate].
Qed.

Lemma split_without_separator (sep : ascii) (s : string) :
  mentions sep s = false -> split sep s = [s].
Proof.
  induction s as [|c s IH]; simpl; intros H; [reflexivity|].
  apply orb_false_iff in H. destruct H as [Hc Hs].
  rewrite Hc, (IH Hs). reflexivity.
Qed.

Lemma split_at_separator (sep : ascii) (a b : string) :
  mentions sep a = false ->
  split sep (a ++ String sep b) = a :: split sep b.
Proof.
  induction a as [|c a IH]; simpl; intros H.
  - now rewrite Ascii.eqb_refl.
  - apply orb_false_iff in H. destruct H as [Hc Ha].
    rewrite Hc, (IH Ha). reflexivity.
Qed.

(** The first piece of a split is the text before the first separator, so
    each of its characters is one of the input. *)
Lemma split_head_mentions (sep c : ascii) (s header : string) :
  nth_error (split sep s) 0 = Some header ->
  mentions c header = true -> mentions c s = true.
Proof.
  revert header. induction s as [|d s IH]; simpl; intros header Hh Hm.
  - injection Hh as <-. discriminate Hm.
  - destruct (Ascii.eqb d sep).
    + injection Hh as <-. discriminate Hm.
    + destruct (split sep s) as [|piece pieces] eqn:E.
      * injection Hh as <-. simpl in Hm. rewrite orb_false_r in Hm. now rewrite Hm.
      * injection Hh as <-. simpl in Hm.
        apply orb_true_iff in Hm. apply orb_true_iff.
        destruct Hm as [Hm|Hm]; [now left | right].
        now apply (IH piece).
Qed.

Lemma split_second_none (sep : ascii) (s : string) :
  mentions sep s = false -> nth_error (split sep s) 1 = None.
Proof. intros H. now rewrite split_without_separator. Qed.

Lemma split_pieces_without_separator (sep : ascii) (s : string) :
  Forall (fun piece => mentions sep piece = false) (split sep s).
Proof.
  induction s as [|c s IH]; simpl.
  - now repeat constructor.
  - destruct (Ascii.eqb c sep) eqn:Ec.
    + constructor; [reflexivity | exact IH].
    + destruct (split sep s) as [|piece pieces].
      * constructor; [|constructor]. simpl. now rewrite Ec.
      * inversion IH as [|? ? Hp Hrest]; subst.
        constructor; [|exact Hrest]. simpl. now rewrite Ec, Hp.
Qed.

Lemma lazyUntilSemicolon_plain (m rest : string) :
  plainChars m = true ->
  lazyUntilSemicolon (m ++ String ";"%char rest) = Some m.
Proof.
  induction m as [|c m IH]; simpl; intros H; [reflexivity|].
  repeat (apply andb_true_iff in H; destruct H as [H ?]).
  apply negb_true_iff in H.
  match goal with Hs : negb (Ascii.eqb c ";"%char) = true |- _ =>
    apply negb_true_iff in Hs; rewrite Hs end.
  match goal with Hl : negb (isLineTerminator c) = true |- _ =>
    apply negb_true_iff in Hl; rewrite Hl end.
  now rewrite IH.
Qed.

Lemma lazyUntilSemicolon_mentions (s group : string) :
  lazyUntilSemicolon s = Some group -> mentions ";"%char s = true.
Proof.
  revert group. induction s as [|c s IH]; simpl; intros group H; [discriminate|].
  destruct (Ascii.eqb c ";"%char); [reflexivity|].
  destruct (isLineTerminator c); [discriminate|].
  destruct (lazyUntilSemicolon s) as [g|]; [|discriminate].
  simpl. now apply (IH g).
Qed.

Lemma matchColonGroup_mentions (s group : string) :
  matchColonGroup s = Some group ->
  mentions ":"%char s = true /\ mentions ";"%char s = true.
Proof.
  revert group. induction s as [|c s IH]; simpl; intros group H; [discriminate|].
  destruct (Ascii.eqb c ":"%char) eqn:Ec.
  - split; [reflexivity|].
    destruct (lazyUntilSemicolon s) as [g|] eqn:El.
    + rewrite (lazyUntilSemicolon_mentions _ _ El). apply orb_true_r.
    + destruct (IH _ H) as [_ Hs]. rewrite Hs. apply orb_true_r.
  - destruct (IH _ H) as [Hc Hs]. rewrite Hc, Hs. split; [reflexivity | apply orb_true_r].
Qed.

Lemma plainChars_no_comma (m : string) :
  plainChars m = true -> mentions ","%char m = false.
Proof.
  induction m as [|c m IH]; simpl; intros H; [reflexivity|].
  repeat (apply andb_true_iff in H; destruct H as [H ?]).
  apply negb_true_iff in H. rewrite H. now apply IH.
Qed.

Lemma isBase64Char_not_comma (c : ascii) :
  isBase64Char c = true -> Ascii.eqb c ","%char = false.
Proof.
  intros H. destruct (Ascii.eqb_spec c ","%char) as [->|]; [|reflexivity].
  discriminate H.
Qed.

Lemma isBase64_no_comma (s : string) :
  isBase64 s = true -> mentions ","%char s = false.
Proof.
  induction s as [|c s IH]; simpl; intros H; [reflexivity|].
  apply andb_true_iff in H. destruct H as [Hc Hs].
  now rewrite (isBase64Char_not_comma _ Hc), (IH Hs).
Qed.

Lemma orDefault_nonempty (s fallback : string) :
  s <> "" -> orDefault (Some s) fallback = s.
Proof. destruct s; [contradiction | reflexivity]. Qed.

(* ===================================================================== *)
(** ** The frame codec: parseDataUrl, createDataUrl, createFrame *)
(* ===================================================================== *)

Lemma parseDataUrl_header (header payload : string) :
  mentions ","%char header = false ->
  mentions ","%char payload = false ->
  parseDataUrl (header ++ String ","%char payload)
  = Normal (mkParsed (orDefault (matchColonGroup header) "image/jpeg") (Some payload)).
Proof.
  intros Hh Hp. unfold parseDataUrl.
  rewrite (split_at_separator _ _ _ Hh), (split_without_separator _ _ Hp).
  reflexivity.
Qed.

Lemma createDataUrl_shape (mime payload : string) :
  createDataUrl (Some mime) (Some payload)
  = ("data:" ++ mime ++ ";base64") ++ String ","%char payload.
Proof.
  unfold createDataUrl. simpl. do 5 f_equal.
  now rewrite append_assoc.
Qed.

(** Claim C4, amended: for every valid base64 payload and every MIME
    string that is not empty and has no [,], no [;] and no line terminator,
    parsing the data URL made from the two parts (which is the [src] of the
    frame made from them) gives the two parts back. *)
Theorem parseDataUrl_createDataUrl_roundtrip (mime payload : string) :
  plainMimeType mime = true ->
  isBase64 payload = true ->
  parseDataUrl (createDataUrl (Some mime) (Some payload))
  = Normal (mkParsed mime (Some payload))
  /\ parseDataUrl (src (createFrame (Some payload) (Some mime)))
     = Normal (mkParsed mime (Some payload)).
Proof.
  intros Hm Hp.
  apply andb_true_iff in Hm. destruct Hm as [Hne Hplain].
  assert (Hmime : mime <> "").
  { intros ->. discriminate Hne. }
  assert (E : parseDataUrl (createDataUrl (Some mime) (Some payload))
              = Normal (mkParsed mime (Some payload))).
  { rewrite createDataUrl_shape, parseDataUrl_header.
    - simpl. rewrite (lazyUntilSemicolon_plain _ _ Hplain).
      now rewrite (orDefault_nonempty _ _ Hmime).
    - simpl. rewrite mentions_append, (plainChars_no_comma _ Hplain). reflexivity.
    - now apply isBase64_no_comma. }
  split; [exact E | exact E].
Qed.

Lemma parseDataUrl_createDataUrl_roundtrip_witness :
  parseDataUrl (createDataUrl (Some "image/png") (Some "iVBORw0KGgo="))
  = Normal (mkParsed "image/png" (Some "iVBORw0KGgo=")).
Proof.
  apply (parseDataUrl_createDataUrl_roundtrip "image/png" "iVBORw0KGgo=");
    reflexivity.
Defined.

(** Claim C4 as stated fails: a MIME string with a parameter, one that the
    codec table of the sources itself contains, does not come back. *)
Lemma parseDataUrl_createDataUrl_parameter_lost :
  isBase64 "AAAA" = true
  /\ parseDataUrl (createDataUrl (Some "video/webm; codecs=vp9") (Some "AAAA"))
     = Normal (mkParsed "video/webm" (Some "AAAA"))
  /\ parseDataUrl (createDataUrl (Some "video/webm; codecs=vp9") (Some "AAAA"))
     <> Normal (mkParsed "video/webm; codecs=vp9" (Some "AAAA")).
Proof.
  split; [reflexivity|]. split; [reflexivity|]. discriminate.
Qed.

(** [parseDataUrl] returns a value for every string. *)
Lemma parseDataUrl_returns (dataUrl : string) :
  exists parsed, parseDataUrl dataUrl = Normal parsed.
Proof.
  unfold parseDataUrl.
  destruct (split ","%char dataUrl) as [|header pieces] eqn:E.
  - now apply split_not_nil in E.
  - simpl. eexists. reflexivity.
Qed.

Lemma hasDataReferenceStructure_mentions (s : string) :
  hasDataReferenceStructure s ->
  mentions ";"%char s = true /\ mentions ","%char s = true.
Proof.
  intros (type & payload & ->).
  rewrite !mentions_append. simpl. split; apply orb_true_r.
Qed.

(** Claim C5, amended: for every input string [parseDataUrl] returns a
    result and never fails. A string without a comma gives an undefined
    payload, and a string without [:] or without [;], which therefore lacks
    the structure [type;base64,payload], gives the MIME type
    ['image/jpeg']. *)
Theorem parseDataUrl_never_fails (dataUrl : string) :
  exists parsed,
    parseDataUrl dataUrl = Normal parsed
    /\ (mentions ","%char dataUrl = false -> parsedData parsed = None)
    /\ (mentions ":"%char dataUrl = false \/ mentions ";"%char dataUrl = false ->
        parsedMimeType parsed = "image/jpeg").
Proof.
  unfold parseDataUrl.
  destruct (nth_error (split ","%char dataUrl) 0) as [header|] eqn:E.
  - eexists. split; [reflexivity|]. simpl. split.
    + apply split_second_none.
    + intros H.
      destruct (matchColonGroup header) as [group|] eqn:Eg; [|reflexivity].
      destruct (matchColonGroup_mentions _ _ Eg) as [Hc Hs].
      apply (split_head_mentions _ _ _ _ E) in Hc.
      apply (split_head_mentions _ _ _ _ E) in Hs.
      destruct H as [H|H]; congruence.
  - destruct (split ","%char dataUrl) eqn:Es; [|discriminate E].
    now apply split_not_nil in Es.
Qed.

Lemma parseDataUrl_never_fails_witness :
  exists parsed,
    parseDataUrl "hello" = Normal parsed
    /\ parsedData parsed = None
    /\ parsedMimeType parsed = "image/jpeg".
Proof.
  destruct (parseDataUrl_never_fails "hello") as (parsed & E & Hd & Hm).
  exists parsed. split; [exact E|]. split.
  - apply Hd. reflexivity.
  - apply Hm. left. reflexivity.
Defined.

(** Claim C5 as stated fails: ["hello"] lacks the structure
    [type;base64,payload], and [parseDataUrl] returns an object for it
    instead of failing. *)
Lemma parseDataUrl_accepts_malformed :
  ~ hasDataReferenceStructure "hello"
  /\ parseDataUrl "hello" = Normal (mkParsed "image/jpeg" None)
  /\ (forall e, parseDataUrl "hello" <> Throw e).
Proof.
  split; [|split].
  - intros H. apply hasDataReferenceStructure_mentions in H.
    destruct H as [H _]. discriminate H.
  - reflexivity.
  - intros e. discriminate.
Qed.

(* ===================================================================== *)
(** ** The credential check *)
(* ===================================================================== *)

(** Claim C10: [isValidApiKey key] is [true] exactly when [key] is a string
    of more than 10 characters that starts with ['AIza']; with a key that
    fails the check, [initializeAI] shows an error and leaves the client
    as it was. *)
Theorem isValidApiKey_iff_and_gate :
  (forall key : Value,
      isValidApiKey key = true
      <-> exists s, key = Str s /\ 10 < String.length s
                    /\ exists rest, s = "AIza" ++ rest)
  /\ (forall (env : Env) (key : Value) (w : World),
         isValidApiKey key = false ->
         MainApp.initializeAI env key w
         = (mkWorld (trace w ++ [ShowError "Invalid API Key format"])
                    (served w) (ai w) (stylizedFrames w),
            Normal tt)).
Proof.
  split.
  - intros key. unfold isValidApiKey. split.
    + intros H. destruct key as [| | b | x | s |]; try discriminate H.
      simpl in H. apply andb_true_iff in H. destruct H as [Hlen Hpre].
      exists s. split; [reflexivity|]. split.
      * now apply Nat.ltb_lt.
      * now apply prefix_append.
    + intros (s & -> & Hlen & Hpre). simpl.
      apply andb_true_iff. split.
      * now apply Nat.ltb_lt.
      * now apply prefix_append.
  - intros env key w H. unfold MainApp.initializeAI. now rewrite H.
Qed.

Lemma isValidApiKey_iff_and_gate_witness :
  isValidApiKey (Str "AIza-short") = false
  /\ ai (fst (MainApp.initializeAI Examples.browser (Str "AIza-short") Examples.start))
     = None.
Proof.
  split; [reflexivity|].
  rewrite (proj2 isValidApiKey_iff_and_gate Examples.browser (Str "AIza-short")
             Examples.start eq_refl).
  reflexivity.
Defined.

(* ===================================================================== *)
(** ** Worlds and traces *)
(* ===================================================================== *)

Local Open Scope list_scope.

Lemma extend_nil (w : World) : extend w [] = w.
Proof. destruct w. unfold extend. simpl. now rewrite app_nil_r. Qed.

Lemma extend_extend (w : World) (a b : list Event) :
  extend (extend w a) b = extend w (a ++ b).
Proof. unfold extend. simpl. now rewrite app_assoc. Qed.

Lemma emit_extend (e : Event) (w : World) : emit e w = (extend w [e], Normal tt).
Proof. reflexivity. Qed.

Lemma trace_extend (w : World) (events : list Event) :
  trace (extend w events) = trace w ++ events.
Proof. reflexivity. Qed.

(* ===================================================================== *)
(** ** Video assembly: the codec and the drawing loop *)
(* ===================================================================== *)

Section Assembly.

Variable env : Env.

Lemma find_firstSuch (P : CodecOption -> bool) (options : list CodecOption)
    (c : CodecOption) :
  find P options = Some c <-> firstSuch P options c.
Proof.
  induction options as [|o options IH]; simpl.
  - split; [discriminate|].
    intros (before & after & E & _). destruct before; discriminate E.
  - destruct (P o) eqn:Po.
    + split.
      * intros [= ->]. exists [], options. repeat split; [assumption | constructor].
      * intros (before & after & E & Pc & Hb).
        destruct before as [|b before]; simpl in E; injection E as -> ->.
        -- reflexivity.
        -- inversion Hb; congruence.
    + rewrite IH. split.
      * intros (before & after & -> & Pc & Hb).
        exists (o :: before), after. repeat split; [assumption | now constructor].
      * intros (before & after & E & Pc & Hb).
        destruct before as [|b before]; simpl in E; injection E as -> ->.
        -- congruence.
        -- exists before, after. inversion Hb. now repeat split.
Qed.

Lemma pickRecorder_find (options : list CodecOption) :
  App.pickRecorder env options = find (usable env) options.
Proof.
  induction options as [|o options IH]; simpl; [reflexivity|].
  unfold usable at 1.
  destruct (isTypeSupported env (codecMimeType o)); simpl; [|exact IH].
  destruct (recorderConstructs env (codecMimeType o)); [reflexivity | exact IH].
Qed.

Lemma drawFrames_trace (width height : nat) (frames : list Frame) (w : World) :
  drawFrames env width height frames w
  = (extend w (map (drawn env width height) frames), Normal tt).
Proof.
  revert w. induction frames as [|frame frames IH]; intros w.
  - simpl. unfold ret. now rewrite extend_nil.
  - cbn [drawFrames map]. unfold bind.
    assert (D : drawn env width height frame
                = match imageLoads env (src frame) with
                  | Some _ => DrawImage (src frame)
                  | None => FillBlack width height
                  end) by reflexivity.
    destruct (imageLoads env (src frame)); cbv beta iota;
      rewrite emit_extend, IH, extend_extend, D; reflexivity.
Qed.

(** The run of the application's [createVideoFromFrames] once the first
    frame has given the canvas its size. *)
Lemma App_createVideoFromFrames_run (first : Frame) (rest : list Frame)
    (fps width height : nat) (w : World) :
  imageLoads env (src first) = Some (width, height) ->
  App.createVideoFromFrames env (first :: rest) fps w
  = match App.pickRecorder env App.videoOptions with
    | Some c =>
        (extend w ([RecorderStart (codecMimeType c)]
                   ++ map (drawn env width height) (first :: rest)
                   ++ [RecorderStop]),
         Normal (mkVideo (createObjectURL env (codecMimeType c)) (extension c)))
    | None =>
        (w, Throw (Error "MediaRecorder could not be initialized. Cannot create video."))
    end.
Proof.
  intros Hload. unfold App.createVideoFromFrames. rewrite Hload.
  destruct (App.pickRecorder env App.videoOptions) as [c|]; [|reflexivity].
  unfold bind. rewrite emit_extend, drawFrames_trace, emit_extend.
  rewrite !extend_extend. reflexivity.
Qed.

(** The same for [createVideoFromFrames] of the effect layer. *)
Lemma Effects_createVideoFromFrames_run (first : Frame) (rest : list Frame)
    (fps width height : nat) (w : World) (c : CodecOption) :
  imageLoads env (src first) = Some (width, height) ->
  selectBestCodec
    (filter (isTypeSupported env)
       [ "video/webm; codecs=vp9"; "video/webm; codecs=vp8";
         "video/mp4"; "video/webm" ]) = Some c ->
  recorderConstructs env (codecMimeType c) = true ->
  Effects.createVideoFromFrames env (first :: rest) fps w
  = (extend w ([RecorderStart (codecMimeType c)]
               ++ map (drawn env width height) (first :: rest)
               ++ [RecorderStop]),
     Normal (mkVideo (createObjectURL env (codecMimeType c)) (extension c))).
Proof.
  intros Hload Hsel Hrec. unfold Effects.createVideoFromFrames.
  rewrite Hload, Hsel, Hrec.
  unfold bind. rewrite emit_extend, drawFrames_trace, emit_extend.
  rewrite !extend_extend. reflexivity.
Qed.

End Assembly.

(** Claim C7, amended: [selectBestCodec] returns the first entry of the
    ranked list (vp9-webm, vp8-webm, mp4, webm) whose type is among the
    supported ones, and [null] when there is none; video assembly selects
    the first entry that the environment reports as supported and for which
    a recorder can be constructed. When only [video/mp4] is supported, and
    its recorder can be constructed, the mp4 entry with extension ['mp4'] is
    chosen; when no entry is supported, assembly fails with the error of a
    recorder that could not be initialised. *)
Theorem codec_selection_first_usable :
  (forall supportedTypes c,
      selectBestCodec supportedTypes = Some c
      <-> firstSuch (fun o => arrayIncludes supportedTypes (codecMimeType o))
            codecOptions c)
  /\ (forall supportedTypes,
         selectBestCodec supportedTypes = None
         <-> forall o, In o codecOptions ->
                       arrayIncludes supportedTypes (codecMimeType o) = false)
  /\ selectBestCodec ["video/mp4"] = Some (mkCodec "video/mp4" "mp4")
  /\ (forall env first rest fps width height w,
         imageLoads env (src first) = Some (width, height) ->
         (forall c,
             firstSuch (usable env) App.videoOptions c ->
             exists w',
               App.createVideoFromFrames env (first :: rest) fps w
               = (w', Normal (mkVideo (createObjectURL env (codecMimeType c))
                                      (extension c)))
               /\ In (RecorderStart (codecMimeType c)) (trace w'))
         /\ ((forall t, isTypeSupported env t = String.eqb t "video/mp4") ->
             recorderConstructs env "video/mp4" = true ->
             exists w',
               App.createVideoFromFrames env (first :: rest) fps w
               = (w', Normal (mkVideo (createObjectURL env "video/mp4") "mp4")))
         /\ ((forall o, In o App.videoOptions ->
                        isTypeSupported env (codecMimeType o) = false) ->
             App.createVideoFromFrames env (first :: rest) fps w
             = (w, Throw (Error "MediaRecorder could not be initialized. Cannot create video.")))).
Proof.
  split; [|split; [|split]].
  - intros supportedTypes c. apply find_firstSuch.
  - intros supportedTypes. unfold selectBestCodec. split.
    + intros H o Ho. exact (find_none _ _ H o Ho).
    + intros H.
      destruct (find _ codecOptions) as [c|] eqn:E; [|reflexivity].
      apply find_some in E. destruct E as [Hin Hc].
      rewrite (H c Hin) in Hc. discriminate Hc.
  - reflexivity.
  - intros env first rest fps width height w Hload.
    rewrite (App_createVideoFromFrames_run env first rest fps width height w Hload).
    split; [|split].
    + intros c Hc. apply find_firstSuch in Hc.
      rewrite pickRecorder_find, Hc.
      eexists. split; [reflexivity|].
      rewrite trace_extend. apply in_or_app. right. now left.
    + intros Honly Hrec.
      unfold App.videoOptions, App.pickRecorder. simpl codecMimeType.
      rewrite !Honly, Hrec. simpl.
      eexists. reflexivity.
    + intros Hnone.
      assert (H1 := Hnone _ (or_introl eq_refl)).
      assert (H2 := Hnone _ (or_intror (or_introl eq_refl))).
      assert (H3 := Hnone _ (or_intror (or_intror (or_introl eq_refl)))).
      assert (H4 := Hnone _ (or_intror (or_intror (or_intror (or_introl eq_refl))))).
      simpl in H1, H2, H3, H4. unfold App.videoOptions. simpl.
      now rewrite H1, H2, H3, H4.
Qed.

Lemma codec_selection_first_usable_witness :
  exists w',
    App.createVideoFromFrames Examples.browserMp4Only
      [Examples.frameA; Examples.frameB] 10 Examples.start
    = (w', Normal (mkVideo "blob:video/mp4" "mp4")).
Proof.
  destruct codec_selection_first_usable as (_ & _ & _ & H).
  destruct (H Examples.browserMp4Only Examples.frameA [Examples.frameB] 10 640 480
              Examples.start eq_refl) as (_ & Hmp4 & _).
  apply Hmp4; reflexivity.
Defined.

(** Claim C7 as stated fails: vp9 is the first entry that the environment
    reports as supported, but its recorder cannot be constructed, and
    assembly goes on to select mp4. *)
Lemma codec_selection_skips_supported_codec :
  isTypeSupported Examples.browserVp9Throws "video/webm; codecs=vp9" = true
  /\ selectBestCodec
       (filter (isTypeSupported Examples.browserVp9Throws)
          (map codecMimeType App.videoOptions))
     = Some (mkCodec "video/webm; codecs=vp9" "webm")
  /\ App.createVideoFromFrames Examples.browserVp9Throws [Examples.frameA] 10
       Examples.start
     = (extend Examples.start
          [RecorderStart "video/mp4"; DrawImage (src Examples.frameA); RecorderStop],
        Normal (mkVideo "blob:video/mp4" "mp4")).
Proof. repeat split. Qed.

(** Claim C8: when the first frame has given the canvas its size and a
    recorder has been started, every one of the [n] frames is drawn, in
    order: a frame that decodes is drawn as it is, a frame that does not
    decode is replaced by a black rectangle of the size of the canvas, and
    the assembly still resolves with a video. This holds for the
    application's [createVideoFromFrames] and for that of the effect
    layer. Once the first frame has loaded, the application's assembly is
    aborted only for want of a recorder, never by a frame that does not
    decode. *)
Theorem undecodable_frame_becomes_black
    (env : Env) (first : Frame) (rest : list Frame) (fps width height : nat)
    (w : World) :
  imageLoads env (src first) = Some (width, height) ->
  (forall c,
      App.pickRecorder env App.videoOptions = Some c ->
      exists draws,
        App.createVideoFromFrames env (first :: rest) fps w
        = (extend w ([RecorderStart (codecMimeType c)] ++ draws ++ [RecorderStop]),
           Normal (mkVideo (createObjectURL env (codecMimeType c)) (extension c)))
        /\ List.length draws = List.length (first :: rest)
        /\ forall i frame,
             nth_error (first :: rest) i = Some frame ->
             (imageLoads env (src frame) = None ->
              nth_error draws i = Some (FillBlack width height))
             /\ (imageLoads env (src frame) <> None ->
                 nth_error draws i = Some (DrawImage (src frame))))
  /\ (forall c,
         selectBestCodec
           (filter (isTypeSupported env) (map codecMimeType codecOptions)) = Some c ->
         recorderConstructs env (codecMimeType c) = true ->
         exists draws,
           Effects.createVideoFromFrames env (first :: rest) fps w
           = (extend w ([RecorderStart (codecMimeType c)] ++ draws ++ [RecorderStop]),
              Normal (mkVideo (createObjectURL env (codecMimeType c)) (extension c)))
           /\ List.length draws = List.length (first :: rest)
           /\ forall i frame,
                nth_error (first :: rest) i = Some frame ->
                (imageLoads env (src frame) = None ->
                 nth_error draws i = Some (FillBlack width height))
                /\ (imageLoads env (src frame) <> None ->
                    nth_error draws i = Some (DrawImage (src frame))))
  /\ (forall w' e,
         App.createVideoFromFrames env (first :: rest) fps w = (w', Throw e) ->
         App.pickRecorder env App.videoOptions = None).
Proof.
  intros Hload.
  assert (Hdraws : forall i frame,
             nth_error (first :: rest) i = Some frame ->
             (imageLoads env (src frame) = None ->
              nth_error (map (drawn env width height) (first :: rest)) i
              = Some (FillBlack width height))
             /\ (imageLoads env (src frame) <> None ->
                 nth_error (map (drawn env width height) (first :: rest)) i
                 = Some (DrawImage (src frame)))).
  { intros i frame Hi. rewrite nth_error_map, Hi. simpl. unfold drawn.
    split; intros H.
    - now rewrite H.
    - destruct (imageLoads env (src frame)); [reflexivity | contradiction]. }
  split; [|split].
  - intros c Hc.
    exists (map (drawn env width height) (first :: rest)).
    rewrite (App_createVideoFromFrames_run env first rest fps width height w Hload), Hc.
    split; [reflexivity|]. split; [apply length_map | exact Hdraws].
  - intros c Hc Hrec.
    exists (map (drawn env width height) (first :: rest)).
    rewrite (Effects_createVideoFromFrames_run env first rest fps width height w c
               Hload Hc Hrec).
    split; [reflexivity|]. split; [apply length_map | exact Hdraws].
  - intros w' e.
    rewrite (App_createVideoFromFrames_run env first rest fps width height w Hload).
    destruct (App.pickRecorder env App.videoOptions); [discriminate | reflexivity].
Qed.

Lemma undecodable_frame_becomes_black_witness :
  exists draws,
    App.createVideoFromFrames Examples.browser
      [Examples.frameA; Examples.frameB; Examples.frameBroken;
       Examples.frameD; Examples.frameE] 10 Examples.start
    = (extend Examples.start
         ([RecorderStart "video/webm; codecs=vp9"] ++ draws ++ [RecorderStop]),
       Normal (mkVideo "blob:video/webm; codecs=vp9" "webm"))
    /\ List.length draws = 5
    /\ nth_error draws 2 = Some (FillBlack 640 480).
Proof.
  destruct (undecodable_frame_becomes_black Examples.browser Examples.frameA
              [Examples.frameB; Examples.frameBroken; Examples.frameD; Examples.frameE]
              10 640 480 Examples.start eq_refl) as (Happ & _ & _).
  destruct (Happ (mkCodec "video/webm; codecs=vp9" "webm") eq_refl)
    as (draws & Hrun & Hlen & Hnth).
  exists draws. split; [exact Hrun|]. split; [exact Hlen|].
  apply (Hnth 2 Examples.frameBroken eq_refl). reflexivity.
Defined.

(* ===================================================================== *)
(** ** The batch stylers *)
(* ===================================================================== *)

Lemma advance_zero (w : World) : advance w 0 [] = w.
Proof.
  destruct w. unfold advance. simpl. now rewrite app_nil_r, Nat.add_0_r.
Qed.

Lemma advance_step (w : World) (a b : Event) (n : nat) (events : list Event) :
  advance (mkWorld ((trace w ++ [a]) ++ [b]) (S (served w)) (ai w) (stylizedFrames w))
    n events
  = advance w (S n) (a :: b :: events).
Proof.
  unfold advance. simpl. rewrite <- !app_assoc. simpl.
  now rewrite Nat.add_succ_r.
Qed.

Lemma extend_advance (w : World) (n : nat) (a b : list Event) :
  extend (advance w n a) b = advance w n (a ++ b).
Proof. unfold extend, advance. simpl. now rewrite app_assoc. Qed.

Lemma expectedEntries_length (env : Env) (prompt : string) (frames : list Frame) :
  forall n, List.length (expectedEntries env prompt n frames) = List.length frames.
Proof. induction frames as [|f frames IH]; intros n; simpl; [|rewrite IH]; reflexivity. Qed.

Lemma expectedEntries_nth (env : Env) (prompt : string) (frames : list Frame) :
  forall n i frame,
    nth_error frames i = Some frame ->
    nth_error (expectedEntries env prompt n frames) i
    = Some (entryFor (outcomeAt env prompt (n + i) frame) frame).
Proof.
  induction frames as [|f frames IH]; intros n i frame H.
  - destruct i; discriminate H.
  - destruct i as [|i]; simpl in *.
    + injection H as ->. now rewrite Nat.add_0_r.
    + rewrite (IH (S n) i frame H). now rewrite Nat.add_succ_r.
Qed.

Lemma batchEntries_length (env : Env) (prompt : string) (frames : list Frame) :
  forall n, List.length (batchEntries env prompt n frames) = List.length frames.
Proof. induction frames as [|f frames IH]; intros n; simpl; [|rewrite IH]; reflexivity. Qed.

Lemma batchEntries_nth (env : Env) (prompt : string) (frames : list Frame) :
  forall n i frame,
    nth_error frames i = Some frame ->
    nth_error (batchEntries env prompt n frames) i
    = Some (batchEntry (outcomeAt env prompt (n + i) frame) frame).
Proof.
  induction frames as [|f frames IH]; intros n i frame H.
  - destruct i; discriminate H.
  - destruct i as [|i]; simpl in *.
    + injection H as ->. now rewrite Nat.add_0_r.
    + rewrite (IH (S n) i frame H). now rewrite Nat.add_succ_r.
Qed.

Lemma noAuthenticationFailure_of_service (env : Env) (prompt : string)
    (frames : list Frame) :
  (forall n d m p, isAuthenticationFailure (service env n d m p) = false) ->
  forall n, noAuthenticationFailure env prompt n frames.
Proof.
  intros H. induction frames as [|f frames IH]; intros n; simpl; [exact I|].
  split; [apply H | apply IH].
Qed.

Section Styling.

Variable env : Env.
Variables loadingMessagePrefix prompt : string.
Variable total : nat.

(** One turn of the loop of [styleFrames] that does not abort. *)
Lemma styleFramesLoop_turn (frame : Frame) (rest styledResults : list Frame)
    (i : nat) (w : World) :
  isAuthenticationFailure (outcomeAt env prompt (served w) frame) = false ->
  App.styleFramesLoop env loadingMessagePrefix prompt total i (frame :: rest)
    styledResults w
  = App.styleFramesLoop env loadingMessagePrefix prompt total (S i) rest
      (styledResults ++ [entryFor (outcomeAt env prompt (served w) frame) frame])
      (mkWorld ((trace w ++ [SetLoading true (App.progressMessage loadingMessagePrefix i total)])
                ++ [GenerateContent (data frame) (mimeType frame) prompt])
               (S (served w)) (ai w) (stylizedFrames w)).
Proof.
  intros Hno. cbn [App.styleFramesLoop]. rewrite emit_extend.
  unfold generateContent, outcomeAt, isAuthenticationFailure in *.
  cbn [extend served trace ai stylizedFrames].
  destruct (service env (served w) (data frame) (mimeType frame) prompt)
    as [[part|]|text]; cbn [entryFor]; try reflexivity.
  now rewrite Hno.
Qed.

(** The turn of the loop in which the key is found invalid. *)
Lemma styleFramesLoop_abort_turn (frame : Frame) (rest styledResults : list Frame)
    (i : nat) (w : World) :
  isAuthenticationFailure (outcomeAt env prompt (served w) frame) = true ->
  App.styleFramesLoop env loadingMessagePrefix prompt total i (frame :: rest)
    styledResults w
  = (advance w 1
       (SetLoading true (App.progressMessage loadingMessagePrefix i total)
        :: GenerateContent (data frame) (mimeType frame) prompt
        :: invalidKeyEvents),
     styledResults, Some (Error "Invalid API Key")).
Proof.
  intros Hauth. cbn [App.styleFramesLoop]. rewrite emit_extend.
  unfold generateContent, outcomeAt, isAuthenticationFailure in *.
  cbn [extend served trace ai stylizedFrames].
  destruct (service env (served w) (data frame) (mimeType frame) prompt)
    as [[part|]|text]; try discriminate Hauth.
  rewrite Hauth. unfold App.reportInvalidKey, bind. rewrite !emit_extend.
  unfold extend, advance, invalidKeyEvents. simpl.
  rewrite <- !app_assoc. simpl. now rewrite Nat.add_1_r.
Qed.

Lemma styleFramesLoop_completes (rest : list Frame) :
  forall i styledResults w,
    noAuthenticationFailure env prompt (served w) rest ->
    App.styleFramesLoop env loadingMessagePrefix prompt total i rest styledResults w
    = (advance w (List.length rest) (loopEvents loadingMessagePrefix prompt total i rest),
       styledResults ++ expectedEntries env prompt (served w) rest,
       None).
Proof.
  induction rest as [|frame rest IH]; intros i styledResults w Hno.
  - simpl. now rewrite advance_zero, app_nil_r.
  - destruct Hno as [Hframe Hrest].
    rewrite (styleFramesLoop_turn _ _ _ _ _ Hframe), IH by exact Hrest.
    rewrite advance_step. cbn [served expectedEntries loopEvents List.length].
    now rewrite <- app_assoc.
Qed.

Lemma styleFramesLoop_aborts (before : list Frame) (frame : Frame)
    (after : list Frame) :
  forall i styledResults w,
    noAuthenticationFailure env prompt (served w) before ->
    isAuthenticationFailure
      (outcomeAt env prompt (served w + List.length before) frame) = true ->
    App.styleFramesLoop env loadingMessagePrefix prompt total i
      (before ++ frame :: after) styledResults w
    = (advance w (S (List.length before))
         (loopEvents loadingMessagePrefix prompt total i (before ++ [frame])
          ++ invalidKeyEvents),
       styledResults ++ expectedEntries env prompt (served w) before,
       Some (Error "Invalid API Key")).
Proof.
  induction before as [|b before IH]; intros i styledResults w Hno Hauth.
  - cbn [app List.length expectedEntries] in *. rewrite Nat.add_0_r in Hauth.
    rewrite (styleFramesLoop_abort_turn _ _ _ _ _ Hauth).
    now rewrite app_nil_r.
  - destruct Hno as [Hb Hrest]. cbn [app].
    rewrite (styleFramesLoop_turn _ _ _ _ _ Hb), IH.
    + rewrite advance_step. cbn [served expectedEntries loopEvents List.length app].
      now rewrite <- app_assoc.
    + exact Hrest.
    + cbn [served List.length] in *. now rewrite Nat.add_succ_r in Hauth.
Qed.

End Styling.

(** [styleFrames] when no request is an authentication failure. *)
Lemma styleFrames_completes (env : Env) (frames : list Frame) (prefix : string)
    (w : World) :
  noAuthenticationFailure env (promptOf env) (served w) frames ->
  App.styleFrames env frames prefix w
  = (advance w (List.length frames)
       (loopEvents prefix (promptOf env) (List.length frames) 0 frames),
     Normal (expectedEntries env (promptOf env) (served w) frames)).
Proof.
  intros Hno. unfold App.styleFrames. fold (promptOf env).
  now rewrite styleFramesLoop_completes.
Qed.

(** [styleFrames] aborts at the first authentication failure: the error
    [Invalid API Key] reaches the caller, the requests sent are those for
    the frames up to index [k], and the local array holds the [k] entries
    of the frames before. *)
Lemma styleFrames_aborts (env : Env) (before : list Frame) (frame : Frame)
    (after : list Frame) (prefix : string) (w : World) :
  let frames := before ++ frame :: after in
  let k := List.length before in
  noAuthenticationFailure env (promptOf env) (served w) before ->
  isAuthenticationFailure (outcomeAt env (promptOf env) (served w + k) frame) = true ->
  App.styleFramesLoop env prefix (promptOf env) (List.length frames) 0 frames [] w
  = (advance w (S k)
       (loopEvents prefix (promptOf env) (List.length frames) 0 (before ++ [frame])
        ++ invalidKeyEvents),
     expectedEntries env (promptOf env) (served w) before,
     Some (Error "Invalid API Key"))
  /\ App.styleFrames env frames prefix w
     = (advance w (S k)
          (loopEvents prefix (promptOf env) (List.length frames) 0 (before ++ [frame])
           ++ invalidKeyEvents),
        Throw (Error "Invalid API Key"))
  /\ List.length (expectedEntries env (promptOf env) (served w) before) = k.
Proof.
  intros frames k Hno Hauth. subst frames k.
  assert (E := styleFramesLoop_aborts env prefix (promptOf env)
                 (List.length (before ++ frame :: after))
                 before frame after 0 [] w Hno Hauth).
  split; [exact E|]. split.
  - unfold App.styleFrames. fold (promptOf env). now rewrite E.
  - apply expectedEntries_length.
Qed.

(** The loop of [styleFramesBatch]: every frame is requested, whatever the
    outcome of the requests before. *)
Lemma styleFramesBatchLoop_run (env : Env) (prompt : string) (total : nat)
    (rest : list Frame) :
  forall i results w,
    Effects.styleFramesBatchLoop env prompt total i rest results w
    = (advance w (List.length rest) (batchEvents prompt total i rest),
       Normal (results ++ map (pair true) (batchEntries env prompt (served w) rest))).
Proof.
  induction rest as [|frame rest IH]; intros i results w.
  - simpl. unfold ret. now rewrite advance_zero, app_nil_r.
  - cbn [Effects.styleFramesBatchLoop]. unfold bind at 1. rewrite emit_extend.
    unfold bind at 1, tryCatch, Effects.generateStylizedFrame, bind, generateContent.
    cbn [extend served trace ai stylizedFrames].
    cbn [batchEntries batchEvents List.length map]. unfold outcomeAt at 1.
    destruct (service env (served w) (data frame) (mimeType frame) prompt)
      as [[part|]|text]; cbn [throw ret batchEntry];
      rewrite IH, advance_step; cbn [served]; now rewrite <- app_assoc.
Qed.

Lemma filter_successes (frames : list Frame) :
  map snd (filter fst (map (pair true) frames)) = frames.
Proof. induction frames as [|f frames IH]; simpl; [|rewrite IH]; reflexivity. Qed.

Lemma styleFramesBatch_run (env : Env) (frames : list Frame) (style : string)
    (w : World) :
  Effects.styleFramesBatch env frames style w
  = (advance w (List.length frames)
       (batchEvents (createStylePrompt style) (List.length frames) 0 frames),
     Normal (batchEntries env (createStylePrompt style) (served w) frames)).
Proof.
  unfold Effects.styleFramesBatch, bind.
  rewrite styleFramesBatchLoop_run. unfold ret. cbn [app].
  now rewrite filter_successes.
Qed.

(** Claim C3: when no request is answered with an authentication failure,
    the batch styler returns exactly as many frames as it was given. At
    each position stands the styled frame if the request for it gave an
    image, and otherwise the original: [styleFrames] puts there an entry
    with the [src] of the input frame, [styleFramesBatch] the input frame
    itself. *)
Theorem batch_styling_preserves_length
    (env : Env) (frames : list Frame) (prefix style : string) (w : World) :
  (forall n d m p, isAuthenticationFailure (service env n d m p) = false) ->
  (exists w' results,
      App.styleFrames env frames prefix w = (w', Normal results)
      /\ List.length results = List.length frames
      /\ forall i frame,
           nth_error frames i = Some frame ->
           exists entry,
             nth_error results i = Some entry
             /\ (stylingFailed (outcomeAt env (promptOf env) (served w + i) frame) = true ->
                 entry = App.fallbackEntry frame /\ src entry = src frame)
             /\ (forall part,
                    outcomeAt env (promptOf env) (served w + i) frame
                    = Responded (Some part) ->
                    entry = App.styledEntry part))
  /\ (exists w' results,
         Effects.styleFramesBatch env frames style w = (w', Normal results)
         /\ List.length results = List.length frames
         /\ forall i frame,
              nth_error frames i = Some frame ->
              exists entry,
                nth_error results i = Some entry
                /\ (stylingFailed
                      (outcomeAt env (createStylePrompt style) (served w + i) frame) = true ->
                    entry = frame)
                /\ (forall part,
                       outcomeAt env (createStylePrompt style) (served w + i) frame
                       = Responded (Some part) ->
                       entry = createFrame (Some (partData part))
                                 (Some (partMimeType part)))).
Proof.
  intros Hnever. split.
  - eexists. eexists.
    rewrite styleFrames_completes
      by (apply noAuthenticationFailure_of_service; exact Hnever).
    split; [reflexivity|]. split; [apply expectedEntries_length|].
    intros i frame Hi. eexists.
    split; [apply expectedEntries_nth; exact Hi|].
    split.
    + intros Hfail.
      destruct (outcomeAt env (promptOf env) (served w + i) frame) as [[part|]|text];
        [discriminate Hfail | split; reflexivity | split; reflexivity].
    + intros part ->. reflexivity.
  - eexists. eexists. rewrite styleFramesBatch_run.
    split; [reflexivity|]. split; [apply batchEntries_length|].
    intros i frame Hi. eexists.
    split; [apply batchEntries_nth; exact Hi|].
    split.
    + intros Hfail.
      destruct (outcomeAt env (createStylePrompt style) (served w + i) frame)
        as [[part|]|text]; [discriminate Hfail | reflexivity | reflexivity].
    + intros part ->. reflexivity.
Qed.

Lemma batch_styling_preserves_length_witness :
  exists w' results,
    App.styleFrames Examples.browserFlaky
      [Examples.frameA; Examples.frameB; Examples.frameC; Examples.frameD]
      "Styling frame" Examples.start
    = (w', Normal results)
    /\ List.length results = 4.
Proof.
  destruct (batch_styling_preserves_length Examples.browserFlaky
              [Examples.frameA; Examples.frameB; Examples.frameC; Examples.frameD]
              "Styling frame" "Pencil Sketch" Examples.start)
    as [(w' & results & Hrun & Hlen & _) _].
  - intros n d m p. destruct n as [|[|[|n]]]; reflexivity.
  - exists w', results. split; [exact Hrun | exact Hlen].
Defined.

(** Claim C2, at the failing input: the service rejects the request for
    the first of two frames with a 403, which [styleFrames] takes for an
    invalid key. [styleFramesBatch] catches the error, keeps the original
    frame, goes on to request the second frame, and returns two frames;
    [styleFrames] throws on the same input after the first request. *)
Theorem styleFramesBatch_swallows_authentication_failure :
  isAuthenticationFailure
    (outcomeAt (Examples.browserForbiddenAt 0) (createStylePrompt "Pencil Sketch") 0
       Examples.frameA) = true
  /\ Effects.styleFramesBatch (Examples.browserForbiddenAt 0)
       [Examples.frameA; Examples.frameB] "Pencil Sketch" Examples.start
     = (mkWorld
          [ OnProgress 1 2;
            GenerateContent (Some "QUFB") (Some "image/png")
              "Transform this image into a Pencil Sketch style.";
            OnProgress 2 2;
            GenerateContent (Some "QkJC") (Some "image/png")
              "Transform this image into a Pencil Sketch style." ]
          2 None [],
        Normal [ Examples.frameA;
                 createFrame (Some "c3R5bGVk") (Some "image/png") ])
  /\ App.styleFrames (Examples.browserForbiddenAt 0)
       [Examples.frameA; Examples.frameB] "Styling frame" Examples.start
     = (mkWorld
          [ SetLoading true "Styling frame 1 of 2...";
            GenerateContent (Some "QUFB") (Some "image/png")
              "Transform this image into a Pencil Sketch style.";
            ShowError "API Key Invalid. Please check your settings.";
            RemoveStoredKey; ShowApiKeyModal ]
          1 None [],
        Throw (Error "Invalid API Key")).
Proof. repeat split. Qed.

(** The application's [styleFrames], for its part, aborts at the first
    authentication failure, on the frame of index [k]: it throws, the
    requests sent are those for the frames of index [0] to [k], and the
    local array holds [k] entries, those of the frames before. *)
Lemma styleFrames_aborts_at_authentication_failure
    (env : Env) (frames : list Frame) (k : nat) (frame : Frame) (prefix : string)
    (w : World) :
  nth_error frames k = Some frame ->
  noAuthenticationFailure env (promptOf env) (served w) (firstn k frames) ->
  isAuthenticationFailure (outcomeAt env (promptOf env) (served w + k) frame) = true ->
  exists w' partial,
    App.styleFramesLoop env prefix (promptOf env) (List.length frames) 0 frames [] w
    = (w', partial, Some (Error "Invalid API Key"))
    /\ App.styleFrames env frames prefix w = (w', Throw (Error "Invalid API Key"))
    /\ List.length partial = k
    /\ served w' = served w + k + 1
    /\ trace w'
       = trace w
         ++ loopEvents prefix (promptOf env) (List.length frames) 0 (firstn (S k) frames)
         ++ invalidKeyEvents.
Proof.
  intros Hk Hno Hauth.
  destruct (nth_error_split frames k Hk) as (before & after & Hframes & Hlen).
  assert (Hfirst : firstn k frames = before).
  { rewrite Hframes, <- Hlen, firstn_app, Nat.sub_diag, firstn_all. simpl.
    apply app_nil_r. }
  assert (Hnext : firstn (S k) frames = before ++ [frame]).
  { rewrite Hframes, <- Hlen, firstn_app.
    rewrite firstn_all2 by lia.
    replace (S (List.length before) - List.length before) with 1 by lia.
    reflexivity. }
  rewrite Hfirst in Hno. rewrite <- Hlen in Hauth.
  destruct (styleFrames_aborts env before frame after prefix w Hno Hauth)
    as (Hloop & Hrun & Hpartial).
  rewrite <- Hframes in Hloop, Hrun. rewrite Hlen in Hpartial.
  eexists. eexists. split; [exact Hloop|]. split; [exact Hrun|].
  split; [exact Hpartial|]. split.
  - unfold advance. simpl. lia.
  - rewrite Hnext. reflexivity.
Qed.

(* ===================================================================== *)
(** ** Effects only add to the trace *)
(* ===================================================================== *)

Lemma emitsFirst_ret {A} (a : A) : emitsFirst [] (ret a).
Proof. intros w. exists []. simpl. now rewrite app_nil_r. Qed.

Lemma emitsFirst_throw {A} (e : Thrown) : emitsFirst [] (@throw A e).
Proof. intros w. exists []. simpl. now rewrite app_nil_r. Qed.

Lemma emitsFirst_emit (e : Event) : emitsFirst [] (emit e).
Proof. intros w. exists [e]. reflexivity. Qed.

Lemma emitsFirst_bind {A B} (events : list Event) (c : M A) (k : A -> M B) :
  emitsFirst events c -> (forall a, emitsFirst [] (k a)) ->
  emitsFirst events (bind c k).
Proof.
  intros Hc Hk w. destruct (Hc w) as [tail H]. unfold bind.
  destruct (c w) as [w' [a|e]]; simpl in H.
  - destruct (Hk a w') as [tail' H']. exists (tail ++ tail').
    rewrite H', H. simpl. now rewrite <- !app_assoc.
  - exists tail. exact H.
Qed.

Lemma emitsFirst_tryCatch {A} (events : list Event) (c : M A)
    (handler : Thrown -> M A) :
  emitsFirst events c -> (forall e, emitsFirst [] (handler e)) ->
  emitsFirst events (tryCatch c handler).
Proof.
  intros Hc Hh w. destruct (Hc w) as [tail H]. unfold tryCatch.
  destruct (c w) as [w' [a|e]]; simpl in H.
  - exists tail. exact H.
  - destruct (Hh e w') as [tail' H']. exists (tail ++ tail').
    rewrite H', H. simpl. now rewrite <- !app_assoc.
Qed.

Create HintDb effects.
#[local] Hint Resolve emitsFirst_ret emitsFirst_throw emitsFirst_emit : effects.

(** Splits a sequence of actions into its steps. *)
Ltac steps :=
  repeat (apply emitsFirst_bind; [|intro]); auto with effects.

Lemma emitsFirst_createVideoFromFrames (env : Env) (frames : list Frame) (fps : nat) :
  emitsFirst [] (App.createVideoFromFrames env frames fps).
Proof.
  intros w. destruct frames as [|first rest].
  - exists []. simpl. now rewrite app_nil_r.
  - destruct (imageLoads env (src first)) as [[width height]|] eqn:Hload.
    + rewrite (App_createVideoFromFrames_run env first rest fps width height w Hload).
      destruct (App.pickRecorder env App.videoOptions).
      * eexists. simpl. reflexivity.
      * exists []. simpl. now rewrite app_nil_r.
    + unfold App.createVideoFromFrames. rewrite Hload.
      exists []. simpl. now rewrite app_nil_r.
Qed.

Section StylingEffects.

Variable env : Env.
Variables loadingMessagePrefix prompt : string.
Variable total : nat.

Lemma styleFramesLoop_grows (rest : list Frame) :
  forall i styledResults w,
  exists tail,
    trace (fst (fst (App.styleFramesLoop env loadingMessagePrefix prompt total i
                       rest styledResults w)))
    = trace w ++ tail.
Proof.
  induction rest as [|frame rest IH]; intros i styledResults w.
  - exists []. simpl. now rewrite app_nil_r.
  - destruct (isAuthenticationFailure (outcomeAt env prompt (served w) frame)) eqn:E.
    + rewrite (styleFramesLoop_abort_turn _ _ _ _ _ _ _ _ _ E).
      eexists. reflexivity.
    + rewrite (styleFramesLoop_turn _ _ _ _ _ _ _ _ _ E).
      match goal with
      | |- context [App.styleFramesLoop _ _ _ _ ?j _ ?acc ?w2] =>
          destruct (IH j acc w2) as [tail H]
      end.
      rewrite H. simpl. eexists. rewrite <- !app_assoc. simpl. reflexivity.
Qed.

Lemma styleFramesLoop_starts (frame : Frame) (rest : list Frame) :
  forall i styledResults w,
  exists tail,
    trace (fst (fst (App.styleFramesLoop env loadingMessagePrefix prompt total i
                       (frame :: rest) styledResults w)))
    = trace w
      ++ [ SetLoading true (App.progressMessage loadingMessagePrefix i total);
           GenerateContent (data frame) (mimeType frame) prompt ]
      ++ tail.
Proof.
  intros i styledResults w.
  destruct (isAuthenticationFailure (outcomeAt env prompt (served w) frame)) eqn:E.
  - rewrite (styleFramesLoop_abort_turn _ _ _ _ _ _ _ _ _ E).
    eexists. reflexivity.
  - rewrite (styleFramesLoop_turn _ _ _ _ _ _ _ _ _ E).
    match goal with
    | |- context [App.styleFramesLoop _ _ _ _ ?j _ ?acc ?w2] =>
        destruct (styleFramesLoop_grows rest j acc w2) as [tail H]
    end.
    rewrite H. simpl. exists tail. rewrite <- !app_assoc. reflexivity.
Qed.

Lemma styleFramesLoop_entries (all : list Frame) (rest : list Frame) :
  forall i styledResults w,
    incl rest all ->
    Forall (srcOnlyEntry all) styledResults ->
    Forall (srcOnlyEntry all)
      (snd (fst (App.styleFramesLoop env loadingMessagePrefix prompt total i
                   rest styledResults w))).
Proof.
  induction rest as [|frame rest IH]; intros i styledResults w Hincl Hacc.
  - exact Hacc.
  - destruct (isAuthenticationFailure (outcomeAt env prompt (served w) frame)) eqn:E.
    + rewrite (styleFramesLoop_abort_turn _ _ _ _ _ _ _ _ _ E). exact Hacc.
    + rewrite (styleFramesLoop_turn _ _ _ _ _ _ _ _ _ E).
      apply IH.
      * intros f Hf. apply Hincl. now right.
      * apply Forall_app. split; [exact Hacc|].
        constructor; [|constructor].
        destruct (outcomeAt env prompt (served w) frame) as [[part|]|text];
          (split; [reflexivity|]; split; [reflexivity|]);
          [ left; now exists part
          | right; exists frame; split; [apply Hincl; now left | reflexivity]
          | right; exists frame; split; [apply Hincl; now left | reflexivity] ].
Qed.

End StylingEffects.

Lemma styleFrames_trace (env : Env) (frames : list Frame) (prefix : string) (w : World) :
  trace (fst (App.styleFrames env frames prefix w))
  = trace (fst (fst (App.styleFramesLoop env prefix (promptOf env)
                       (List.length frames) 0 frames [] w))).
Proof.
  unfold App.styleFrames. fold (promptOf env).
  destruct (App.styleFramesLoop _ _ _ _ _ _ _ _) as [[w' results] [e|]]; reflexivity.
Qed.

Lemma emitsFirst_styleFrames (env : Env) (frame : Frame) (rest : list Frame)
    (prefix : string) :
  emitsFirst
    [ SetLoading true (App.progressMessage prefix 0 (S (List.length rest)));
      GenerateContent (data frame) (mimeType frame) (promptOf env) ]
    (App.styleFrames env (frame :: rest) prefix).
Proof.
  intros w. rewrite styleFrames_trace. apply styleFramesLoop_starts.
Qed.

Lemma emitsFirst_finalPass (env : Env) (frame : Frame) (rest : list Frame) :
  emitsFirst
    [ SetLoading true
        (App.progressMessage "Styling high-quality frame" 0 (S (List.length rest)));
      GenerateContent (data frame) (mimeType frame) (promptOf env) ]
    (App.finalPass env (frame :: rest)).
Proof.
  unfold App.finalPass. steps.
  - apply emitsFirst_styleFrames.
  - destruct (negb _); auto with effects.
  - apply emitsFirst_createVideoFromFrames.
Qed.

(* ===================================================================== *)
(** ** The progressive preview *)
(* ===================================================================== *)

Lemma createLowResFrames_run (env : Env) (frames : list Frame) (scale : Q) (w : World) :
  Forall (fun frame => imageLoads env (src frame) <> None) frames ->
  App.createLowResFrames env frames scale w
  = (w, Normal (map (lowResFrame env scale) frames)).
Proof.
  induction 1 as [|frame frames Hload _ IH]; [reflexivity|].
  cbn [App.createLowResFrames map].
  destruct (imageLoads env (src frame)); [|contradiction].
  unfold bind. now rewrite IH.
Qed.

Lemma everyRequestFallsBack_no_auth (env : Env) (prompt : string) (frames : list Frame) :
  forall n,
    everyRequestFallsBack env prompt n frames ->
    noAuthenticationFailure env prompt n frames.
Proof.
  induction frames as [|f frames IH]; intros n H; [exact I|].
  destruct H as (_ & Hno & Hrest). split; [exact Hno | now apply IH].
Qed.

Lemma everyRequestFallsBack_entries (env : Env) (prompt : string) (frames : list Frame) :
  forall n,
    everyRequestFallsBack env prompt n frames ->
    expectedEntries env prompt n frames = map App.fallbackEntry frames.
Proof.
  induction frames as [|f frames IH]; intros n H; [reflexivity|].
  destruct H as (Hfail & _ & Hrest). simpl. rewrite (IH _ Hrest). f_equal.
  destruct (outcomeAt env prompt n f) as [[part|]|text];
    [discriminate Hfail | reflexivity | reflexivity].
Qed.

(** Pass 1 when every preview request falls back. *)
Lemma previewPass_of_fallbacks (env : Env) (capturedFrames : list Frame) (w : World) :
  let n := List.length capturedFrames in
  let lowResFrames := map (lowResFrame env (1 # 4)) capturedFrames in
  let preview := map App.fallbackEntry lowResFrames in
  0 < n ->
  Forall (fun frame => imageLoads env (src frame) <> None) capturedFrames ->
  everyRequestFallsBack env (promptOf env) (served w) lowResFrames ->
  App.previewPass env capturedFrames w
  = (mkWorld
       (trace w
        ++ SetLoading true "Generating low-quality preview..."
           :: loopEvents "Styling preview frame" (promptOf env) n 0 lowResFrames
        ++ [StartOutputAnimation preview])
       (served w + n) (ai w) preview,
     Normal tt).
Proof.
  intros n lowResFrames preview Hn Hloads Hfall.
  unfold App.previewPass, bind. rewrite emit_extend.
  rewrite (createLowResFrames_run _ _ _ _ Hloads). fold lowResFrames.
  rewrite styleFrames_completes
    by (apply everyRequestFallsBack_no_auth; exact Hfall).
  cbn [served extend].
  rewrite (everyRequestFallsBack_entries _ _ _ _ Hfall). fold preview.
  assert (Hlen : List.length preview = n).
  { unfold preview, lowResFrames. now rewrite !length_map. }
  assert (Hlow : List.length lowResFrames = n).
  { unfold lowResFrames. now rewrite length_map. }
  rewrite Hlen, Hlow.
  destruct n as [|n']; [inversion Hn|]. cbn [Nat.eqb].
  unfold setStylizedFrames, App.startOutputAnimation, getStylizedFrames, bind, emit,
    advance, extend.
  cbn [trace served ai stylizedFrames].
  rewrite <- !app_assoc. reflexivity.
Qed.

(** Claim C1, amended: for every captured sequence of more than one frame
    that can be downsampled, if the preview pass yields no styled frame
    (every request falls back, none being an authentication failure), pass 1
    still completes: the [n] downsampled originals become the preview that
    is shown, no preview failure is raised, and pass 2 is started with the
    request for the first full-resolution frame. *)
Theorem preview_of_fallbacks_starts_final_pass
    (env : Env) (capturedFrames : list Frame) (w : World) :
  let n := List.length capturedFrames in
  let lowResFrames := map (lowResFrame env (1 # 4)) capturedFrames in
  let preview := map App.fallbackEntry lowResFrames in
  1 < n ->
  Forall (fun frame => imageLoads env (src frame) <> None) capturedFrames ->
  everyRequestFallsBack env (promptOf env) (served w) lowResFrames ->
  exists w1 first,
    App.previewPass env capturedFrames w = (w1, Normal tt)
    /\ stylizedFrames w1 = preview
    /\ List.length preview = n
    /\ In (StartOutputAnimation preview) (trace w1)
    /\ nth_error capturedFrames 0 = Some first
    /\ exists tail,
         trace (fst (App.processVideoWithProgressivePreview env capturedFrames w))
         = trace w1
           ++ [ SetLoading true (App.progressMessage "Styling high-quality frame" 0 n);
                GenerateContent (data first) (mimeType first) (promptOf env) ]
           ++ tail.
Proof.
  intros n lowResFrames preview Hn Hloads Hfall.
  assert (Hpre := previewPass_of_fallbacks env capturedFrames w
                    (Nat.lt_trans _ _ _ Nat.lt_0_1 Hn) Hloads Hfall).
  fold n lowResFrames preview in Hpre.
  destruct capturedFrames as [|first rest] eqn:Hframes; [inversion Hn|].
  eexists. exists first.
  split; [exact Hpre|]. split; [reflexivity|].
  split; [unfold preview, lowResFrames; now rewrite !length_map|].
  split.
  { cbn [trace]. apply in_or_app. right. right. apply in_or_app. right. now left. }
  split; [reflexivity|].
  unfold App.processVideoWithProgressivePreview. rewrite Hpre.
  match goal with
  | |- context [fst (?c ?w1)] =>
      assert (Hgrow : emitsFirst
                        [ SetLoading true
                            (App.progressMessage "Styling high-quality frame" 0 n);
                          GenerateContent (data first) (mimeType first) (promptOf env) ]
                        c)
  end.
  { steps.
    apply emitsFirst_tryCatch; [apply emitsFirst_finalPass|].
    intros e. destruct (messageIs e "Invalid API Key"); auto with effects. }
  apply Hgrow.
Qed.

Lemma preview_of_fallbacks_starts_final_pass_witness :
  exists w1 tail,
    App.previewPass Examples.browserNoImage [Examples.frameA; Examples.frameB]
      Examples.start
    = (w1, Normal tt)
    /\ trace (fst (App.processVideoWithProgressivePreview Examples.browserNoImage
                     [Examples.frameA; Examples.frameB] Examples.start))
       = trace w1
         ++ [ SetLoading true "Styling high-quality frame 1 of 2...";
              GenerateContent (Some "QUFB") (Some "image/png")
                "Transform this image into a Pencil Sketch style." ]
         ++ tail.
Proof.
  destruct (preview_of_fallbacks_starts_final_pass Examples.browserNoImage
              [Examples.frameA; Examples.frameB] Examples.start)
    as (w1 & first & Hpre & _ & _ & _ & Hfirst & tail & Htrace).
  - unfold lt. apply le_n.
  - repeat constructor; discriminate.
  - repeat split.
  - injection Hfirst as <-.
    exists w1, tail. split; [exact Hpre | exact Htrace].
Defined.

(** Claim C1 as stated fails: with two frames and a service that never
    returns an image, every preview frame falls back to its downsampled
    original; the operation shows that preview, raises no failure, and goes
    through pass 2 to the final video. *)
Lemma preview_without_styled_frame_does_not_fail :
  everyRequestFallsBack Examples.browserNoImage (promptOf Examples.browserNoImage) 0
    (map (lowResFrame Examples.browserNoImage (1 # 4))
       [Examples.frameA; Examples.frameB])
  /\ App.processVideoWithProgressivePreview Examples.browserNoImage
       [Examples.frameA; Examples.frameB] Examples.start
     = (mkWorld
          [ SetLoading true "Generating low-quality preview...";
            SetLoading true "Styling preview frame 1 of 2...";
            GenerateContent (Some "bG93cmVz") (Some "image/jpeg")
              "Transform this image into a Pencil Sketch style.";
            SetLoading true "Styling preview frame 2 of 2...";
            GenerateContent (Some "bG93cmVz") (Some "image/jpeg")
              "Transform this image into a Pencil Sketch style.";
            StartOutputAnimation
              [ mkFrame None None "data:image/jpeg;base64,bG93cmVz";
                mkFrame None None "data:image/jpeg;base64,bG93cmVz" ];
            SetLoading true "Styling high-quality frame 1 of 2...";
            GenerateContent (Some "QUFB") (Some "image/png")
              "Transform this image into a Pencil Sketch style.";
            SetLoading true "Styling high-quality frame 2 of 2...";
            GenerateContent (Some "QkJC") (Some "image/png")
              "Transform this image into a Pencil Sketch style.";
            SetLoading true "Encoding final video...";
            RecorderStart "video/webm; codecs=vp9";
            DrawImage "data:image/png;base64,QUFB";
            DrawImage "data:image/png;base64,QkJC";
            RecorderStop;
            ShowVideo "blob:video/webm; codecs=vp9";
            OfferDownload "blob:video/webm; codecs=vp9" "stylized-video-1000.webm";
            SetLoading false "Loading..." ]
          4 None
          [ mkFrame None None "data:image/jpeg;base64,bG93cmVz";
            mkFrame None None "data:image/jpeg;base64,bG93cmVz" ],
        Normal tt).
Proof. repeat split. Qed.

(* ===================================================================== *)
(** ** The video sampler *)
(* ===================================================================== *)

Lemma nth_error_seq_lt (start len i : nat) :
  i < len -> nth_error (seq start len) i = Some (start + i).
Proof.
  revert start i. induction len as [|len IH]; intros start i H; [inversion H|].
  destruct i as [|i]; simpl.
  - now rewrite Nat.add_0_r.
  - rewrite IH by lia. now rewrite Nat.add_succ_r.
Qed.

Lemma calculateFrameTimes_nth (duration : float) (frameCount i : nat) :
  i < frameCount ->
  nth_error (calculateFrameTimes duration frameCount) i
  = Some ((number i * duration) / number frameCount)%float.
Proof.
  intros H. unfold calculateFrameTimes.
  rewrite nth_error_map, (nth_error_seq_lt 0 frameCount i H). reflexivity.
Qed.

Lemma extractFramesLoop_run (env : Env) (times : list float) :
  forall frames w,
    Effects.extractFramesLoop env times frames w
    = (extend w (map Seek times),
       Normal (frames ++ map (fun t => frameOfDataUrl (videoJpeg env t)) times)).
Proof.
  induction times as [|time times IH]; intros frames w.
  - simpl. unfold ret. now rewrite extend_nil, app_nil_r.
  - cbn [Effects.extractFramesLoop map]. unfold bind at 1. rewrite emit_extend.
    unfold bind, Effects.lift, frameOfDataUrl at 1.
    destruct (parseDataUrl_returns (videoJpeg env time)) as [parsed E]. rewrite E.
    rewrite IH, extend_extend, <- app_assoc. reflexivity.
Qed.

Lemma addSeekedListeners_run (interval : float) (count : nat) :
  forall i listeners w,
    App.addSeekedListeners interval i count listeners w
    = (extend w (map (fun j => Seek (number j * interval)%float) (seq i count)),
       Normal (listeners + count)).
Proof.
  induction count as [|count IH]; intros i listeners w.
  - simpl. unfold ret. now rewrite extend_nil, Nat.add_0_r.
  - cbn [App.addSeekedListeners seq map]. unfold bind. rewrite emit_extend.
    rewrite IH, extend_extend. f_equal. f_equal. lia.
Qed.

Lemma dispatchSeeked_run (env : Env) (position : float) (listeners : nat) :
  forall capturedFrames,
    App.dispatchSeeked env position listeners capturedFrames
    = capturedFrames ++ repeat (App.jpegFrame (videoJpeg env position)) listeners.
Proof.
  induction listeners as [|listeners IH]; intros capturedFrames; simpl.
  - now rewrite app_nil_r.
  - rewrite IH. unfold App.seekedListener. now rewrite <- app_assoc.
Qed.

Lemma App_handleExtractFrames_run (env : Env) (frameCountVal : nat)
    (duration position : float) (capturedFrames : list Frame) (w : World) :
  App.handleExtractFrames env true frameCountVal duration position capturedFrames w
  = (extend w
       (SetLoading true "Extracting frames..."
        :: map Seek (App.handleExtractFramesTimes duration frameCountVal)
        ++ [SetLoading false "Loading..."]),
     Normal (repeat (App.jpegFrame (videoJpeg env position)) frameCountVal)).
Proof.
  unfold App.handleExtractFrames. cbn [negb].
  unfold bind at 1. rewrite emit_extend.
  unfold bind at 1. rewrite addSeekedListeners_run.
  unfold bind, ret. rewrite emit_extend, !extend_extend, dispatchSeeked_run.
  unfold App.handleExtractFramesTimes. rewrite map_map. reflexivity.
Qed.

Lemma extractLoop_run (env : Env) (interval : float) (count : nat) :
  forall i capturedFrames w,
    MainApp.extractLoop env interval i count capturedFrames w
    = (extend w (map (fun j => Seek (number j * interval)%float) (seq i count)),
       Normal (capturedFrames
               ++ map (fun j => App.jpegFrame (videoJpeg env (number j * interval)%float))
                    (seq i count))).
Proof.
  induction count as [|count IH]; intros i capturedFrames w.
  - simpl. unfold ret. now rewrite extend_nil, app_nil_r.
  - cbn [MainApp.extractLoop seq map]. unfold bind. rewrite emit_extend.
    rewrite IH, extend_extend, <- app_assoc. reflexivity.
Qed.

Lemma MainApp_handleExtractFrames_run (env : Env) (frameCount : nat)
    (duration : float) (capturedFrames : list Frame) (w : World) :
  MainApp.handleExtractFrames env true frameCount duration capturedFrames w
  = (extend w
       (SetLoading true "Extracting frames..."
        :: map Seek (App.handleExtractFramesTimes duration frameCount)
        ++ [SetLoading false "Loading..."]),
     Normal (map (fun t => App.jpegFrame (videoJpeg env t))
               (App.handleExtractFramesTimes duration frameCount))).
Proof.
  unfold MainApp.handleExtractFrames. cbn [negb].
  unfold bind at 1. rewrite emit_extend.
  unfold bind at 1. rewrite extractLoop_run.
  unfold bind, ret. rewrite emit_extend, !extend_extend.
  unfold App.handleExtractFramesTimes. rewrite !map_map. reflexivity.
Qed.

(** Claim C6 fails on [handleExtractFrames] of the application script.
    The handler adds all its [seeked] listeners and assigns all its sample
    times to [currentTime] before it waits for anything, so that the first
    [seeked] event runs every listener: whatever the frame count, the
    duration and the position that the video then has, the frames captured
    are so many copies of the one frame at that position, not the frames
    at the sample times in their order. For 5 frames of a video of 10 s
    that shows a picture of its own at 0, 2, 4, 6 and 8 s, the handler
    returns five times the picture at 8 s. [handleExtractFrames] of the
    hybrid main application, which awaits each seek, and
    [extractFramesFromVideo] of the effect layer capture the frame at each
    sample time, in order; [calculateFrameTimes(10, 5)] is
    [0, 2, 4, 6, 8]. *)
Theorem handleExtractFrames_captures_one_position :
  (forall env frameCountVal duration position capturedFrames w,
      App.handleExtractFrames env true frameCountVal duration position
        capturedFrames w
      = (extend w
           (SetLoading true "Extracting frames..."
            :: map Seek (App.handleExtractFramesTimes duration frameCountVal)
            ++ [SetLoading false "Loading..."]),
         Normal (repeat (App.jpegFrame (videoJpeg env position)) frameCountVal)))
  /\ App.handleExtractFrames Examples.camcorder true 5 10 8 [] Examples.start
     = (extend Examples.start
          (SetLoading true "Extracting frames..."
           :: map Seek [0; 2; 4; 6; 8]%float
           ++ [SetLoading false "Loading..."]),
        Normal (repeat (App.jpegFrame "data:image/jpeg;base64,dDg=") 5))
  /\ (forall env frameCount duration capturedFrames w,
         MainApp.handleExtractFrames env true frameCount duration capturedFrames w
         = (extend w
              (SetLoading true "Extracting frames..."
               :: map Seek (App.handleExtractFramesTimes duration frameCount)
               ++ [SetLoading false "Loading..."]),
            Normal (map (fun t => App.jpegFrame (videoJpeg env t))
                      (App.handleExtractFramesTimes duration frameCount))))
  /\ MainApp.handleExtractFrames Examples.camcorder true 5 10 [] Examples.start
     = (extend Examples.start
          (SetLoading true "Extracting frames..."
           :: map Seek [0; 2; 4; 6; 8]%float
           ++ [SetLoading false "Loading..."]),
        Normal (map App.jpegFrame
                  [ "data:image/jpeg;base64,dDA="; "data:image/jpeg;base64,dDI=";
                    "data:image/jpeg;base64,dDQ="; "data:image/jpeg;base64,dDY=";
                    "data:image/jpeg;base64,dDg=" ]%string))
  /\ (forall env times w,
         Effects.extractFramesFromVideo env times w
         = (extend w (map Seek times),
            Normal (map (fun t => frameOfDataUrl (videoJpeg env t)) times)))
  /\ calculateFrameTimes 10 5 = [0; 2; 4; 6; 8]%float.
Proof.
  split; [exact App_handleExtractFrames_run|].
  split; [rewrite App_handleExtractFrames_run; reflexivity|].
  split; [exact MainApp_handleExtractFrames_run|].
  split; [rewrite MainApp_handleExtractFrames_run; reflexivity|].
  split; [|reflexivity].
  intros env times w. unfold Effects.extractFramesFromVideo.
  now rewrite extractFramesLoop_run.
Qed.

(** The times of [calculateFrameTimes] are rounded: for a duration of 1 s
    and 10 frames they are not evenly spaced, and the time of index 3 is
    not the [3 * (1 / 10)] of [handleExtractFrames]; for a duration of
    [Infinity], that of a live stream, the first time is [NaN]. *)
Lemma calculateFrameTimes_rounded :
  nth_error (calculateFrameTimes 1 10) 3 = Some 0x1.3333333333333p-2%float
  /\ nth_error (App.handleExtractFramesTimes 1 10) 3 = Some 0x1.3333333333334p-2%float
  /\ calculateFrameTimes infinity 3 = [nan; infinity; infinity].
Proof. repeat split. Qed.

(* ===================================================================== *)
(** ** The frame invariant *)
(* ===================================================================== *)

Lemma createFrame_invariant (data mimeType : option string) :
  frameInvariant (createFrame data mimeType).
Proof. reflexivity. Qed.

Lemma batchEntries_invariant (env : Env) (prompt : string) (frames : list Frame) :
  forall n,
    Forall frameInvariant frames ->
    Forall frameInvariant (batchEntries env prompt n frames).
Proof.
  induction frames as [|f frames IH]; intros n H; [constructor|].
  inversion H as [|? ? Hf Hrest]; subst. simpl. constructor; [|now apply IH].
  destruct (outcomeAt env prompt n f) as [[part|]|text];
    [apply createFrame_invariant | exact Hf | exact Hf].
Qed.

Lemma frameFromDataUrl_invariant (dataUrl : string) (w w' : World) (frame : Frame) :
  IO.run (IO.frameFromDataUrl dataUrl) w = (w', Normal frame) ->
  frameInvariant frame.
Proof.
  unfold IO.run, IO.frameFromDataUrl, IO.flatMap, IO.of_.
  destruct (parseDataUrl dataUrl) as [parsed|e]; intros H; [|discriminate H].
  injection H as _ <-. apply createFrame_invariant.
Qed.

Lemma frameOfDataUrl_invariant (dataUrl : string) :
  frameInvariant (frameOfDataUrl dataUrl).
Proof.
  unfold frameOfDataUrl. destruct (parseDataUrl dataUrl); apply createFrame_invariant.
Qed.

Lemma fileFrame_invariant (fileType readerResult : string) :
  mentions ","%char fileType = false ->
  frameInvariant (MainApp.fileFrame fileType readerResult)
  <-> exists payload,
        readerResult = ("data:" ++ fileType ++ ";base64," ++ payload)%string
        /\ mentions ","%char payload = false.
Proof.
  intros Htype. unfold frameInvariant, MainApp.fileFrame. cbn [src mimeType data tpl].
  split.
  - intros H. exists (tpl (nth_error (split ","%char readerResult) 1)).
    split; [exact H|].
    assert (Hpieces := split_pieces_without_separator ","%char readerResult).
    destruct (nth_error (split ","%char readerResult) 1) as [piece|] eqn:E;
      [|reflexivity].
    apply nth_error_In in E. rewrite Forall_forall in Hpieces.
    exact (Hpieces piece E).
  - intros (payload & -> & Hp).
    change ("data:" ++ fileType ++ ";base64," ++ payload)%string
      with (createDataUrl (Some fileType) (Some payload)) at 2.
    rewrite createDataUrl_shape, split_at_separator.
    + now rewrite (split_without_separator _ _ Hp).
    + cbn [mentions append]. rewrite mentions_append, Htype. reflexivity.
Qed.

Lemma jpegFrame_invariant (dataUrl : string) :
  frameInvariant (App.jpegFrame dataUrl) <-> jpegDataUrl dataUrl.
Proof. exact (fileFrame_invariant "image/jpeg" dataUrl eq_refl). Qed.

Lemma jpegFrames_invariant (dataUrls : list string) :
  Forall (fun frame => frameInvariant frame <-> jpegDataUrl (src frame))
    (map App.jpegFrame dataUrls).
Proof.
  apply Forall_forall. intros frame Hin. apply in_map_iff in Hin.
  destruct Hin as (dataUrl & <- & _). apply jpegFrame_invariant.
Qed.

Lemma createLowResFrames_rejects (env : Env) (frames : list Frame) (scale : Q)
    (w : World) :
  Exists (fun frame => imageLoads env (src frame) = None) frames ->
  App.createLowResFrames env frames scale w = (w, Throw OtherValue).
Proof.
  induction frames as [|frame rest IH]; intros H; [inversion H|].
  simpl. destruct (imageLoads env (src frame)) eqn:E; [|reflexivity].
  inversion H as [? ? Hhead|? ? Hrest]; subst; [congruence|].
  unfold bind. now rewrite (IH Hrest).
Qed.

Lemma all_load_or_one_does_not (env : Env) (frames : list Frame) :
  Forall (fun frame => imageLoads env (src frame) <> None) frames
  \/ Exists (fun frame => imageLoads env (src frame) = None) frames.
Proof.
  induction frames as [|frame rest [IH|IH]].
  - left. constructor.
  - destruct (imageLoads env (src frame)) eqn:E.
    + left. constructor; [congruence | exact IH].
    + right. now apply Exists_cons_hd.
  - right. now apply Exists_cons_tl.
Qed.

Lemma first_authentication_failure (env : Env) (prompt : string) (frames : list Frame) :
  forall n,
    noAuthenticationFailure env prompt n frames
    \/ exists before frame after,
         frames = before ++ frame :: after
         /\ noAuthenticationFailure env prompt n before
         /\ isAuthenticationFailure
              (outcomeAt env prompt (n + List.length before) frame) = true.
Proof.
  induction frames as [|f frames IH]; intros n; [left; exact I|].
  destruct (isAuthenticationFailure (outcomeAt env prompt n f)) eqn:Ef.
  - right. exists [], f, frames. repeat split. now rewrite Nat.add_0_r.
  - destruct (IH (S n)) as [Hall | (before & frame & after & -> & Hbefore & Hauth)].
    + left. split; [exact Ef | exact Hall].
    + right. exists (f :: before), frame, after.
      split; [reflexivity|]. split; [split; [exact Ef | exact Hbefore]|].
      cbn [List.length]. now rewrite Nat.add_succ_r.
Qed.

Lemma styleFrames_entries (env : Env) (frames : list Frame) (prefix : string)
    (w w' : World) (results : list Frame) :
  App.styleFrames env frames prefix w = (w', Normal results) ->
  results = expectedEntries env (promptOf env) (served w) frames.
Proof.
  intros H.
  destruct (first_authentication_failure env (promptOf env) frames (served w))
    as [Hnone | (before & frame & after & -> & Hbefore & Hauth)].
  - rewrite (styleFrames_completes env frames prefix w Hnone) in H.
    now injection H as _ <-.
  - destruct (styleFrames_aborts env before frame after prefix w Hbefore Hauth)
      as (_ & Habort & _).
    rewrite Habort in H. discriminate H.
Qed.

Lemma expectedEntries_src_only (env : Env) (prompt : string) (frames : list Frame) :
  forall n,
    Forall (fun entry => data entry = None /\ mimeType entry = None)
      (expectedEntries env prompt n frames).
Proof.
  induction frames as [|f frames IH]; intros n; [constructor|].
  simpl. constructor; [|apply IH].
  destruct (outcomeAt env prompt n f) as [[part|]|text]; split; reflexivity.
Qed.

(** Claim C9, amended: every frame built by [createFrame] has
    [src = 'data:' + mimeType + ';base64,' + data]; so has every frame
    that the effect layer returns ([generateStylizedFrame], [fileToFrame],
    [captureVideoFrame], [scaleFrame], [extractFramesFromVideo]) and the
    frame that [processImageFile] builds, and [styleFramesBatch] returns
    frames with the invariant when it is given such frames. A frame that
    the application builds by hand from the data URL of a canvas, in
    [createLowResFrames] and in the two [handleExtractFrames], has the
    invariant exactly when the data URL is [data:image/jpeg;base64,]
    followed by a payload without comma; the frame that
    [fileToGenerativePart] of the hybrid main application builds from the
    result of the reader has it exactly when the result is [data:], the
    type of the file, [;base64,] and a payload without comma. The entries
    that [styleFrames]
    returns carry a [src] only, without [data] and [mimeType]: the entry
    of a frame is the data URL of the image part that its own request
    returned, or the [src] of this frame when the request returned no
    image or failed. *)
Theorem frame_invariant_of_constructed_frames :
  (forall data mimeType, frameInvariant (createFrame data mimeType))
  /\ (forall env frame prompt w w' styled,
         Effects.generateStylizedFrame env frame prompt w = (w', Normal styled) ->
         frameInvariant styled)
  /\ (forall env frames style w w' results,
         Forall frameInvariant frames ->
         Effects.styleFramesBatch env frames style w = (w', Normal results) ->
         Forall frameInvariant results)
  /\ (forall env frames prefix w w' results,
         App.styleFrames env frames prefix w = (w', Normal results) ->
         results = expectedEntries env (promptOf env) (served w) frames
         /\ Forall (fun entry => data entry = None /\ mimeType entry = None) results)
  /\ (forall outcome w w' frame,
         IO.run (IO.fileToFrame outcome) w = (w', Normal frame) ->
         frameInvariant frame)
  /\ (forall env time w w' frame,
         IO.run (IO.captureVideoFrame env time) w = (w', Normal frame) ->
         frameInvariant frame)
  /\ (forall env original scale w w' frame,
         IO.run (IO.scaleFrame env original scale) w = (w', Normal frame) ->
         frameInvariant frame)
  /\ (forall env times w w' frames,
         Effects.extractFramesFromVideo env times w = (w', Normal frames) ->
         Forall frameInvariant frames)
  /\ (forall fileType readerResult,
         frameInvariant (App.imageFileFrame fileType readerResult))
  /\ (forall env frames scale w w' results,
         App.createLowResFrames env frames scale w = (w', Normal results) ->
         Forall (fun frame => frameInvariant frame <-> jpegDataUrl (src frame)) results)
  /\ (forall env frameCountVal duration position capturedFrames w w' results,
         App.handleExtractFrames env true frameCountVal duration position
           capturedFrames w = (w', Normal results) ->
         Forall (fun frame => frameInvariant frame <-> jpegDataUrl (src frame)) results)
  /\ (forall env frameCount duration capturedFrames w w' results,
         MainApp.handleExtractFrames env true frameCount duration capturedFrames w
         = (w', Normal results) ->
         Forall (fun frame => frameInvariant frame <-> jpegDataUrl (src frame)) results)
  /\ (forall fileType readerResult,
         mentions ","%char fileType = false ->
         frameInvariant (MainApp.fileFrame fileType readerResult)
         <-> exists payload,
               readerResult = ("data:" ++ fileType ++ ";base64," ++ payload)%string
               /\ mentions ","%char payload = false).
Proof.
  split; [exact createFrame_invariant|].
  split.
  { intros env frame prompt w w' styled.
    unfold Effects.generateStylizedFrame, bind, generateContent.
    destruct (service env (served w) (data frame) (mimeType frame) prompt)
      as [[part|]|text]; simpl; intros H; try discriminate H.
    injection H as _ <-. apply createFrame_invariant. }
  split.
  { intros env frames style w w' results Hframes.
    rewrite styleFramesBatch_run. intros [= _ <-].
    now apply batchEntries_invariant. }
  split.
  { intros env frames prefix w w' results H.
    rewrite (styleFrames_entries _ _ _ _ _ _ H).
    split; [reflexivity | apply expectedEntries_src_only]. }
  split.
  { intros outcome w w' frame. destruct outcome as [result| |].
    - apply frameFromDataUrl_invariant.
    - intros H. discriminate H.
    - intros H. discriminate H. }
  split.
  { intros env time w w' frame. apply frameFromDataUrl_invariant. }
  split.
  { intros env original scale w w' frame. unfold IO.scaleFrame.
    destruct (imageLoads env (src original)).
    - apply frameFromDataUrl_invariant.
    - intros H. discriminate H. }
  split.
  { intros env times w w' frames. unfold Effects.extractFramesFromVideo.
    rewrite extractFramesLoop_run. intros [= _ <-]. cbn [app].
    apply Forall_forall. intros frame Hin. apply in_map_iff in Hin.
    destruct Hin as (t & <- & _). apply frameOfDataUrl_invariant. }
  split.
  { intros fileType readerResult. reflexivity. }
  split.
  { intros env frames scale w w' results.
    destruct (all_load_or_one_does_not env frames) as [Hloads | Hnone].
    - rewrite (createLowResFrames_run _ _ _ _ Hloads). intros [= _ <-].
      rewrite <- (map_map (fun frame => canvasJpeg env scale (src frame)) App.jpegFrame).
      apply jpegFrames_invariant.
    - rewrite (createLowResFrames_rejects _ _ _ _ Hnone). intros H. discriminate H. }
  split.
  { intros env frameCountVal duration position capturedFrames w w' results.
    rewrite App_handleExtractFrames_run. intros [= _ <-].
    rewrite <- (map_repeat _ _ App.jpegFrame). apply jpegFrames_invariant. }
  split; [|exact fileFrame_invariant].
  intros env frameCount duration capturedFrames w w' results.
  rewrite MainApp_handleExtractFrames_run. intros [= _ <-].
  rewrite <- (map_map (videoJpeg env) App.jpegFrame). apply jpegFrames_invariant.
Qed.

Lemma frame_invariant_of_constructed_frames_witness :
  [ mkFrame None None "data:image/png;base64,c3R5bGVk";
    mkFrame None None (src Examples.frameB) ]
  = expectedEntries Examples.browserFlaky (promptOf Examples.browserFlaky) 0
      [Examples.frameA; Examples.frameB].
Proof.
  destruct frame_invariant_of_constructed_frames as (_ & _ & _ & H & _).
  apply (H Examples.browserFlaky [Examples.frameA; Examples.frameB]
           "Styling frame" Examples.start
           (mkWorld
              [ SetLoading true "Styling frame 1 of 2...";
                GenerateContent (Some "QUFB") (Some "image/png")
                  "Transform this image into a Pencil Sketch style.";
                SetLoading true "Styling frame 2 of 2...";
                GenerateContent (Some "QkJC") (Some "image/png")
                  "Transform this image into a Pencil Sketch style." ]
              2 None [])).
  reflexivity.
Defined.

(** Claim C9 as stated fails, in two ways. The entry that [styleFrames]
    returns for a styled frame has no [data] and no [mimeType], so that
    its [src] is not the concatenation of the prefix, its [mimeType] and
    its [data]. And the frame that [createLowResFrames] builds for a
    canvas without pixels, whose data URL is ["data:,"], has the
    [mimeType] ['image/jpeg'] and an empty [data] beside this [src]. *)
Lemma frames_without_the_invariant :
  (App.styleFrames Examples.browser [Examples.frameA] "Styling image" Examples.start
   = (mkWorld
        [ SetLoading true "Styling image 1 of 1...";
          GenerateContent (Some "QUFB") (Some "image/png")
            "Transform this image into a Pencil Sketch style." ]
        1 None [],
      Normal [ mkFrame None None "data:image/png;base64,c3R5bGVk" ])
   /\ ~ frameInvariant (mkFrame None None "data:image/png;base64,c3R5bGVk"))
  /\ (App.createLowResFrames Examples.browserEmptyCanvas [Examples.frameA] (1 # 4)
        Examples.start
      = (Examples.start,
         Normal [ mkFrame (Some ""%string) (Some "image/jpeg"%string) "data:," ])
      /\ ~ frameInvariant
             (mkFrame (Some ""%string) (Some "image/jpeg"%string) "data:,")).
Proof.
  split; (split; [reflexivity|]); unfold frameInvariant; simpl; discriminate.
Qed.

(* ===================================================================== *)
(** ** The application state of functional-core.js *)
(* ===================================================================== *)

Import MoreProps.

Lemma frameCycle_withFrameIndex (state : CoreState.AppState) (index : Z) :
  frameCycle (withFrameIndex state index) = frameCycle state.
Proof. reflexivity. Qed.

Lemma nextFrameIndex_step (state : CoreState.AppState) :
  (0 < frameCycle state)%Z ->
  (0 <= CoreState.currentFrameIndex state < 2 ^ 53)%Z ->
  CoreState.nextFrameIndex state
  = withFrameIndex state
      ((CoreState.currentFrameIndex state + 1) mod frameCycle state)%Z.
Proof.
  intros Hm Hi. unfold CoreState.nextFrameIndex, CoreState.increment.
  fold (frameCycle state).
  destruct (Z.eqb_spec (frameCycle state) 0) as [E|_]; [lia|].
  destruct (Z.eqb_spec (CoreState.currentFrameIndex state) (2 ^ 53)) as [E|_]; [lia|].
  rewrite Z.rem_mod_nonneg by lia. reflexivity.
Qed.

Lemma nextFrameIndex_iter (state : CoreState.AppState) (k : nat) :
  (0 < frameCycle state <= 2 ^ 53)%Z ->
  (0 <= CoreState.currentFrameIndex state < 2 ^ 53)%Z ->
  Nat.iter (S k) CoreState.nextFrameIndex state
  = withFrameIndex state
      ((CoreState.currentFrameIndex state + Z.of_nat (S k)) mod frameCycle state)%Z.
Proof.
  intros Hm Hi. induction k as [|k IH].
  - simpl Nat.iter. apply nextFrameIndex_step; [lia | exact Hi].
  - change (Nat.iter (S (S k)) CoreState.nextFrameIndex state)
      with (CoreState.nextFrameIndex (Nat.iter (S k) CoreState.nextFrameIndex state)).
    rewrite IH, nextFrameIndex_step.
    + rewrite frameCycle_withFrameIndex. unfold withFrameIndex. cbn.
      f_equal. rewrite Zplus_mod_idemp_l. f_equal. lia.
    + rewrite frameCycle_withFrameIndex. lia.
    + cbn [withFrameIndex CoreState.currentFrameIndex].
      assert (H := Z.mod_pos_bound
                     (CoreState.currentFrameIndex state + Z.of_nat (S k))
                     (frameCycle state) ltac:(lia)).
      lia.
Qed.

(** X1. [nextFrameIndex] changes nothing when there is no frame at all.
    Otherwise, from an index that is an integer from [0] to [2^53 - 1],
    [k >= 1] steps lead to the index [(i + k) mod m], where [m] is the
    larger of the numbers of stylized and of captured frames, and leave
    the other fields as they are; the index then lies in [0, m), and from
    an index below [m], [m] steps lead back to the state they started
    from. At the index [2^53] the increment is lost to rounding: the next
    index is the remainder of [2^53], not of [2^53 + 1]. *)
Theorem nextFrameIndex_cycles (state : CoreState.AppState) :
  (frameCycle state = 0%Z -> CoreState.nextFrameIndex state = state)
  /\ ((0 < frameCycle state <= 2 ^ 53)%Z ->
      (0 <= CoreState.currentFrameIndex state < 2 ^ 53)%Z ->
      (forall k,
          1 <= k ->
          Nat.iter k CoreState.nextFrameIndex state
          = withFrameIndex state
              ((CoreState.currentFrameIndex state + Z.of_nat k) mod frameCycle state)%Z
          /\ (0 <= CoreState.currentFrameIndex
                     (Nat.iter k CoreState.nextFrameIndex state)
              < frameCycle state)%Z)
      /\ ((CoreState.currentFrameIndex state < frameCycle state)%Z ->
          Nat.iter (Z.to_nat (frameCycle state)) CoreState.nextFrameIndex state
          = state))
  /\ ((0 < frameCycle state)%Z ->
      CoreState.currentFrameIndex state = (2 ^ 53)%Z ->
      CoreState.nextFrameIndex state
      = withFrameIndex state (Z.rem (2 ^ 53) (frameCycle state))).
Proof.
  split; [|split].
  - intros E. unfold CoreState.nextFrameIndex. fold (frameCycle state).
    now rewrite E.
  - intros Hm Hi. split.
    + intros k Hk. destruct k as [|k]; [inversion Hk|].
      rewrite (nextFrameIndex_iter state k Hm Hi). split; [reflexivity|].
      cbn. apply Z.mod_pos_bound. lia.
    + intros Hlt.
      destruct (Z.to_nat (frameCycle state)) as [|k] eqn:E; [lia|].
      rewrite (nextFrameIndex_iter state k Hm Hi), <- E, Z2Nat.id by lia.
      rewrite <- (Z.mul_1_l (frameCycle state)) at 1.
      rewrite Z.mod_add, Z.mod_small by lia.
      destruct state. reflexivity.
  - intros Hm Hi. unfold CoreState.nextFrameIndex, CoreState.increment.
    fold (frameCycle state).
    destruct (Z.eqb_spec (frameCycle state) 0) as [E|_]; [lia|].
    rewrite Hi. reflexivity.
Qed.

Lemma nextFrameIndex_cycles_witness :
  CoreState.currentFrameIndex
    (Nat.iter 4 CoreState.nextFrameIndex
       (CoreState.addCapturedFrames CoreState.createInitialState
          [Examples.frameA; Examples.frameB; Examples.frameC] CoreState.MediaVideo))
  = 1%Z
  /\ CoreState.currentFrameIndex
       (CoreState.nextFrameIndex
          (withFrameIndex
             (CoreState.addCapturedFrames CoreState.createInitialState
                [Examples.frameA; Examples.frameB; Examples.frameC]
                CoreState.MediaVideo)
             (2 ^ 53)))
     = 2%Z.
Proof.
  split.
  - destruct (nextFrameIndex_cycles
                (CoreState.addCapturedFrames CoreState.createInitialState
                   [Examples.frameA; Examples.frameB; Examples.frameC]
                   CoreState.MediaVideo)) as (_ & H & _).
    destruct H as [H _]; [split; [reflexivity | discriminate]
                         | split; [discriminate | reflexivity] |].
    destruct (H 4 (le_S _ _ (le_S _ _ (le_S _ _ (le_n 1))))) as [E _].
    rewrite E. reflexivity.
  - destruct (nextFrameIndex_cycles
                (withFrameIndex
                   (CoreState.addCapturedFrames CoreState.createInitialState
                      [Examples.frameA; Examples.frameB; Examples.frameC]
                      CoreState.MediaVideo)
                   (2 ^ 53))) as (_ & _ & H).
    rewrite H; reflexivity.
Defined.

(** X2. Generation is open exactly when there are captured frames, no
    load is running and no non-empty error message is set. Starting a
    load closes it; so does an error with a message, but not an error
    with the empty message. An error is wiped by new captured frames and
    by [setLoadingState], also when the latter ends a load. *)
Theorem canGenerate_after_transitions (state : CoreState.AppState) :
  (forall message, CoreState.canGenerate (CoreState.setLoadingState state true message) = false)
  /\ (forall errorMessage,
         errorMessage <> ""%string ->
         CoreState.canGenerate (CoreState.setErrorState state errorMessage) = false)
  /\ CoreState.canGenerate (CoreState.setErrorState state "") = CoreState.hasFrames state
  /\ (forall errorMessage message,
         CoreState.canGenerate
           (CoreState.setLoadingState (CoreState.setErrorState state errorMessage)
              false message)
         = CoreState.hasFrames state)
  /\ (forall errorMessage frame frames type,
         CoreState.canGenerate
           (CoreState.addCapturedFrames (CoreState.setErrorState state errorMessage)
              (frame :: frames) type)
         = true)
  /\ (forall frames type,
         CoreState.canGenerate (CoreState.addCapturedFrames state frames type)
         = negb (CoreState.isLoading state) && Nat.ltb 0 (List.length frames))
  /\ CoreState.canGenerate (CoreState.resetAppState state) = false.
Proof.
  unfold CoreState.canGenerate, CoreState.hasFrames.
  split; [|split; [|split; [|split; [|split; [|split]]]]].
  - intros message. cbn -[Nat.ltb]. now destruct (Nat.ltb _ _).
  - intros errorMessage Hne. cbn -[Nat.ltb].
    destruct errorMessage; [contradiction|]. now destruct (Nat.ltb _ _).
  - cbn -[Nat.ltb]. now destruct (Nat.ltb _ _).
  - intros errorMessage message. cbn -[Nat.ltb]. now destruct (Nat.ltb _ _).
  - intros errorMessage frame frames type. reflexivity.
  - intros frames type. cbn -[Nat.ltb].
    now destruct (Nat.ltb _ _), (CoreState.isLoading state).
  - reflexivity.
Qed.

Lemma canGenerate_after_transitions_witness :
  CoreState.canGenerate
    (CoreState.setErrorState
       (CoreState.addCapturedFrames CoreState.createInitialState [Examples.frameA]
          CoreState.MediaImage)
       "Could not process the uploaded file.")
  = false.
Proof.
  apply (proj1 (proj2 (canGenerate_after_transitions
                        (CoreState.addCapturedFrames CoreState.createInitialState
                           [Examples.frameA] CoreState.MediaImage)))).
  discriminate.
Defined.

(* ===================================================================== *)
(** ** The helpers of functional-core.js *)
(* ===================================================================== *)

Lemma extractSuccessfulFrames_frames (results : list CoreHelpers.StyleResult) :
  CoreHelpers.extractSuccessfulFrames results = map Some (successfulFrames results).
Proof.
  unfold CoreHelpers.extractSuccessfulFrames.
  induction results as [|r results IH]; [reflexivity|].
  cbn [filter successfulFrames].
  destruct (CoreHelpers.success r), (CoreHelpers.frame r) as [f|] eqn:E;
    cbn [andb map]; rewrite ?E, ?IH; reflexivity.
Qed.

Lemma successfulFrames_In (results : list CoreHelpers.StyleResult) (f : Frame) :
  In f (successfulFrames results)
  <-> exists r, In r results /\ CoreHelpers.success r = true
                /\ CoreHelpers.frame r = Some f.
Proof.
  induction results as [|r results IH]; simpl.
  - split; [contradiction | intros (r & [] & _)].
  - split.
    + intros H.
      assert (Hrest : In f (successfulFrames results) ->
                      exists r', (r = r' \/ In r' results)
                                 /\ CoreHelpers.success r' = true
                                 /\ CoreHelpers.frame r' = Some f).
      { intros Hin. apply IH in Hin. destruct Hin as (r' & ? & ? & ?).
        exists r'. auto. }
      destruct (CoreHelpers.success r) eqn:Es, (CoreHelpers.frame r) as [g|] eqn:Ef;
        simpl in H; auto.
      destruct H as [<- | H]; [exists r; auto | auto].
    + intros (r' & [<- | Hin] & Hs & Hf).
      * rewrite Hs, Hf. now left.
      * assert (Hf' : In f (successfulFrames results)) by (apply IH; exists r'; auto).
        destruct (CoreHelpers.success r), (CoreHelpers.frame r); simpl; auto.
Qed.

(** X3. [extractSuccessfulFrames] returns, in their order, the frames of
    the results that succeeded and have a frame, and nothing else: no
    element of its result is [undefined], there are at most as many as
    results, a list of successes gives back all its frames, and the
    frames of two batches put together are those of the first followed by
    those of the second. *)
Theorem extractSuccessfulFrames_spec :
  (forall results,
      exists frames,
        CoreHelpers.extractSuccessfulFrames results = map Some frames
        /\ List.length frames <= List.length results
        /\ forall f,
             In f frames
             <-> exists r, In r results /\ CoreHelpers.success r = true
                           /\ CoreHelpers.frame r = Some f)
  /\ (forall frames,
         CoreHelpers.extractSuccessfulFrames
           (map (fun f => CoreHelpers.mkResult true (Some f)) frames)
         = map Some frames)
  /\ (forall first second,
         CoreHelpers.extractSuccessfulFrames (first ++ second)
         = CoreHelpers.extractSuccessfulFrames first
           ++ CoreHelpers.extractSuccessfulFrames second).
Proof.
  split; [|split].
  - intros results. exists (successfulFrames results).
    split; [apply extractSuccessfulFrames_frames|]. split.
    + induction results as [|r results IH]; simpl; [apply le_n|].
      destruct (CoreHelpers.success r), (CoreHelpers.frame r); simpl; lia.
    + intros f. apply successfulFrames_In.
  - intros frames. rewrite extractSuccessfulFrames_frames. f_equal.
    induction frames as [|f frames IH]; simpl; [|rewrite IH]; reflexivity.
  - intros first second. unfold CoreHelpers.extractSuccessfulFrames.
    now rewrite filter_app, map_app.
Qed.

(** X4. [compose] applies its functions from the last to the first and
    [pipe] from the first to the last: composing is piping the reversed
    list, and a list of functions put together from two parts acts as
    one part after the other. *)
Theorem compose_pipe_order (A : Type) (fns more : list (A -> A)) (x : A) :
  CoreHelpers.compose fns x = CoreHelpers.pipe (rev fns) x
  /\ CoreHelpers.pipe (fns ++ more) x = CoreHelpers.pipe more (CoreHelpers.pipe fns x)
  /\ CoreHelpers.compose (fns ++ more) x
     = CoreHelpers.compose fns (CoreHelpers.compose more x).
Proof.
  unfold CoreHelpers.compose, CoreHelpers.pipe. split; [|split].
  - rewrite <- fold_left_rev_right, rev_involutive. reflexivity.
  - apply fold_left_app.
  - apply fold_right_app.
Qed.

Lemma extractSuccessfulFrames_spec_witness :
  CoreHelpers.extractSuccessfulFrames
    [ CoreHelpers.mkResult true (Some Examples.frameA);
      CoreHelpers.mkResult false (Some Examples.frameB);
      CoreHelpers.mkResult true None;
      CoreHelpers.mkResult true (Some Examples.frameC) ]
  = [ Some Examples.frameA; Some Examples.frameC ]
  /\ In Examples.frameC
       (successfulFrames
          [ CoreHelpers.mkResult true (Some Examples.frameA);
            CoreHelpers.mkResult false (Some Examples.frameB);
            CoreHelpers.mkResult true None;
            CoreHelpers.mkResult true (Some Examples.frameC) ]).
Proof.
  split; [reflexivity|].
  destruct (proj1 extractSuccessfulFrames_spec
              [ CoreHelpers.mkResult true (Some Examples.frameA);
                CoreHelpers.mkResult false (Some Examples.frameB);
                CoreHelpers.mkResult true None;
                CoreHelpers.mkResult true (Some Examples.frameC) ])
    as (frames & E & _ & Hin).
  simpl. right. now left.
Defined.

(* ===================================================================== *)
(** ** memoize *)
(* ===================================================================== *)

Section MemoizeFacts.

Variables A B : Type.
Variable stringify : A -> string.
Variable fn : A -> B.

Lemma cacheGet_added (m : CoreHelpers.MemoState B) (key : string) (value : B) (k : string) :
  CoreHelpers.cacheGet k
    (CoreHelpers.mkMemo (CoreHelpers.cache m ++ [(key, value)]) (S (CoreHelpers.calls m)))
  = match CoreHelpers.cacheGet k m with
    | Some cached => Some cached
    | None => if String.eqb key k then Some value else None
    end.
Proof.
  unfold CoreHelpers.cacheGet. cbn [CoreHelpers.cache].
  induction (CoreHelpers.cache m) as [|[k' v'] entries IH]; simpl.
  - now destruct (String.eqb key k).
  - destruct (String.eqb k' k); [reflexivity | exact IH].
Qed.

Lemma memoized_cached (arg : A) (m : CoreHelpers.MemoState B) :
  CoreHelpers.cacheGet (stringify arg) (fst (CoreHelpers.memoized stringify fn arg m))
  = Some (snd (CoreHelpers.memoized stringify fn arg m)).
Proof.
  unfold CoreHelpers.memoized.
  destruct (CoreHelpers.cacheGet (stringify arg) m) as [cached|] eqn:E; simpl.
  - exact E.
  - rewrite cacheGet_added, E, String.eqb_refl. reflexivity.
Qed.

Lemma memoized_sound (arg : A) (m : CoreHelpers.MemoState B) :
  cacheSound stringify fn m ->
  cacheSound stringify fn (fst (CoreHelpers.memoized stringify fn arg m)).
Proof.
  intros Hm. unfold CoreHelpers.memoized.
  destruct (CoreHelpers.cacheGet (stringify arg) m) as [cached|] eqn:E; simpl.
  - exact Hm.
  - intros key value. rewrite cacheGet_added.
    destruct (CoreHelpers.cacheGet key m) as [c|] eqn:Ek.
    + intros [= <-]. now apply Hm.
    + destruct (String.eqb_spec (stringify arg) key) as [<-|]; [|discriminate].
      intros [= <-]. now exists arg.
Qed.

Lemma memoRun_exact (args : list A) :
  (forall a b, stringify a = stringify b -> a = b) ->
  forall m,
    cacheSound stringify fn m ->
    snd (memoRun stringify fn args m) = map fn args
    /\ CoreHelpers.calls (fst (memoRun stringify fn args m))
       <= CoreHelpers.calls m + List.length args.
Proof.
  intros Hinj. induction args as [|arg args IH]; intros m Hm.
  - simpl. split; [reflexivity | lia].
  - cbn [memoRun].
    destruct (CoreHelpers.memoized stringify fn arg m) as [m1 value] eqn:E1.
    assert (Hm1 : cacheSound stringify fn m1).
    { replace m1 with (fst (CoreHelpers.memoized stringify fn arg m)) by now rewrite E1.
      now apply memoized_sound. }
    assert (Hvalue : value = fn arg /\ CoreHelpers.calls m1 <= S (CoreHelpers.calls m)).
    { unfold CoreHelpers.memoized in E1.
      destruct (CoreHelpers.cacheGet (stringify arg) m) as [cached|] eqn:Ec.
      - injection E1 as <- <-. destruct (Hm _ _ Ec) as (a & Ha & ->).
        rewrite (Hinj _ _ Ha). split; [reflexivity | lia].
      - injection E1 as <- <-. split; [reflexivity | apply le_n]. }
    destruct Hvalue as [-> Hcalls].
    destruct (IH m1 Hm1) as [Hvalues Hrest].
    destruct (memoRun stringify fn args m1) as [m2 values]. simpl in *.
    split; [now rewrite Hvalues | lia].
Qed.

End MemoizeFacts.

(** X5. A memoized function calls [fn] only when the key of its argument
    is not in the cache: a second call with an argument of the same key
    returns the value of the first call and leaves the cache and the
    number of calls of [fn] as they are, even when the two arguments
    differ. When [JSON.stringify] tells the arguments apart, a sequence of
    calls returns the values of [fn] and calls [fn] at most once per
    call. *)
Theorem memoize_caches_by_key (A B : Type) (stringify : A -> string) (fn : A -> B) :
  (forall first second m,
      stringify first = stringify second ->
      let m1 := fst (CoreHelpers.memoized stringify fn first m) in
      CoreHelpers.memoized stringify fn second m1
      = (m1, snd (CoreHelpers.memoized stringify fn first m)))
  /\ ((forall a b, stringify a = stringify b -> a = b) ->
      forall args,
        snd (memoRun stringify fn args CoreHelpers.emptyMemo) = map fn args
        /\ CoreHelpers.calls (fst (memoRun stringify fn args CoreHelpers.emptyMemo))
           <= List.length args).
Proof.
  split.
  - intros first second m Hkey m1.
    assert (Hc := memoized_cached A B stringify fn first m).
    fold m1 in Hc. unfold CoreHelpers.memoized at 1.
    now rewrite <- Hkey, Hc.
  - intros Hinj args.
    apply (memoRun_exact A B stringify fn args Hinj CoreHelpers.emptyMemo).
    intros key value H. discriminate H.
Qed.

Lemma memoize_caches_by_key_witness :
  memoRun (fun n : nat => Js.showNat n) (fun n => n * n) [3; 4; 3] CoreHelpers.emptyMemo
  = (CoreHelpers.mkMemo [("3"%string, 9); ("4"%string, 16)] 2, [9; 16; 9])
  /\ snd (CoreHelpers.memoized (fun _ : nat => "null"%string) (fun n => n * n) 4
            (fst (CoreHelpers.memoized (fun _ : nat => "null"%string) (fun n => n * n) 3
                    CoreHelpers.emptyMemo)))
     = 9.
Proof.
  split; [reflexivity|].
  rewrite (proj1 (memoize_caches_by_key nat nat (fun _ => "null"%string)
                    (fun n => n * n)) 3 4 CoreHelpers.emptyMemo eq_refl).
  reflexivity.
Defined.

(* ===================================================================== *)
(** ** The codec table *)
(* ===================================================================== *)

Lemma arrayIncludes_In (xs : list string) (t : string) :
  arrayIncludes xs t = true <-> In t xs.
Proof.
  unfold arrayIncludes. rewrite existsb_exists. split.
  - intros (x & Hin & E). apply String.eqb_eq in E. now subst.
  - intros Hin. exists t. split; [exact Hin | apply String.eqb_refl].
Qed.

Lemma arrayIncludes_same_members (xs ys : list string) (t : string) :
  (forall x, In x xs <-> In x ys) ->
  arrayIncludes xs t = arrayIncludes ys t.
Proof.
  intros H.
  destruct (arrayIncludes xs t) eqn:Ex, (arrayIncludes ys t) eqn:Ey; try reflexivity.
  - apply arrayIncludes_In, H, arrayIncludes_In in Ex. congruence.
  - apply arrayIncludes_In, H, arrayIncludes_In in Ey. congruence.
Qed.

Lemma find_pointwise {T : Type} (p q : T -> bool) (l : list T) :
  (forall x, p x = q x) -> find p l = find q l.
Proof.
  intros H. induction l as [|x l IH]; simpl; [reflexivity|].
  now rewrite H, IH.
Qed.

(** X7. [selectBestCodec] depends on the members of [supportedTypes]
    only, not on their order or on repetitions; the codec it returns is
    one of the four of the table and its type is among the supported
    ones; and vp9 is returned whenever it is supported, whatever else
    is. *)
Theorem selectBestCodec_by_membership :
  (forall supportedTypes others,
      (forall t, In t supportedTypes <-> In t others) ->
      selectBestCodec supportedTypes = selectBestCodec others)
  /\ (forall supportedTypes c,
         selectBestCodec supportedTypes = Some c ->
         In c codecOptions /\ In (codecMimeType c) supportedTypes)
  /\ (forall supportedTypes,
         In "video/webm; codecs=vp9"%string supportedTypes ->
         selectBestCodec supportedTypes
         = Some (mkCodec "video/webm; codecs=vp9" "webm")).
Proof.
  split; [|split].
  - intros supportedTypes others H. unfold selectBestCodec.
    apply find_pointwise. intros c. now apply arrayIncludes_same_members.
  - intros supportedTypes c H. unfold selectBestCodec in H.
    apply find_some in H. destruct H as [Hin Hc].
    split; [exact Hin | now apply arrayIncludes_In].
  - intros supportedTypes Hin. apply arrayIncludes_In in Hin.
    unfold selectBestCodec, codecOptions. simpl. now rewrite Hin.
Qed.

Lemma selectBestCodec_by_membership_witness :
  selectBestCodec [ "video/mp4"; "video/webm"; "video/mp4" ]%string
  = selectBestCodec [ "video/webm"; "video/mp4" ]%string.
Proof.
  apply (proj1 selectBestCodec_by_membership).
  intros t. simpl. tauto.
Defined.

(* ===================================================================== *)
(** ** What parseDataUrl returns, and frames made of data URLs *)
(* ===================================================================== *)

Lemma lazyUntilSemicolon_group_plain (s group : string) :
  lazyUntilSemicolon s = Some group ->
  mentions ","%char s = false ->
  plainChars group = true.
Proof.
  revert group. induction s as [|c s IH]; simpl; intros group H Hcomma; [discriminate|].
  apply orb_false_iff in Hcomma. destruct Hcomma as [Hc Hs].
  destruct (Ascii.eqb c ";"%char) eqn:Esemi; [now injection H as <-|].
  destruct (isLineTerminator c) eqn:Eline; [discriminate|].
  destruct (lazyUntilSemicolon s) as [g|]; [|discriminate].
  injection H as <-. simpl. now rewrite Hc, Esemi, Eline, (IH g eq_refl Hs).
Qed.

Lemma matchColonGroup_group_plain (s group : string) :
  matchColonGroup s = Some group ->
  mentions ","%char s = false ->
  plainChars group = true.
Proof.
  revert group. induction s as [|c s IH]; simpl; intros group H Hcomma; [discriminate|].
  apply orb_false_iff in Hcomma. destruct Hcomma as [_ Hs].
  destruct (Ascii.eqb c ":"%char).
  - destruct (lazyUntilSemicolon s) as [g|] eqn:El.
    + injection H as <-. now apply (lazyUntilSemicolon_group_plain s).
    + now apply IH.
  - now apply IH.
Qed.

Lemma parseDataUrl_parts_plain (dataUrl : string) (parsed : ParsedDataUrl) :
  parseDataUrl dataUrl = Normal parsed ->
  plainMimeType (parsedMimeType parsed) = true
  /\ (forall payload,
         parsedData parsed = Some payload -> mentions ","%char payload = false).
Proof.
  unfold parseDataUrl. intros H.
  assert (Hpieces := split_pieces_without_separator ","%char dataUrl).
  destruct (split ","%char dataUrl) as [|header pieces]; [discriminate H|].
  simpl in H. injection H as <-. simpl.
  inversion Hpieces as [|? ? Hheader Hrest]; subst. split.
  - destruct (matchColonGroup header) as [group|] eqn:Eg; [|reflexivity].
    assert (Hplain := matchColonGroup_group_plain _ _ Eg Hheader).
    destruct group as [|c group]; [reflexivity|].
    unfold plainMimeType. simpl orDefault. now rewrite Hplain.
  - intros payload Hp. destruct pieces as [|second pieces]; [discriminate Hp|].
    injection Hp as <-. now inversion Hrest.
Qed.

(** X8. Whatever its input, [parseDataUrl] returns a MIME type that is
    not empty and holds no [,], no [;] and no line terminator, and a
    payload, when there is one, that holds no comma: a payload with a
    comma is cut at that comma. *)
Theorem parseDataUrl_output_plain (dataUrl : string) (parsed : ParsedDataUrl) :
  parseDataUrl dataUrl = Normal parsed ->
  plainMimeType (parsedMimeType parsed) = true
  /\ (forall payload,
         parsedData parsed = Some payload -> mentions ","%char payload = false).
Proof. exact (parseDataUrl_parts_plain dataUrl parsed). Qed.

Lemma parseDataUrl_output_plain_witness :
  parseDataUrl "data:text/plain;charset=utf-8,a,b"
  = Normal (mkParsed "text/plain" (Some "a"%string))
  /\ plainMimeType "text/plain" = true.
Proof.
  split; [reflexivity|].
  apply (parseDataUrl_output_plain "data:text/plain;charset=utf-8,a,b"
           (mkParsed "text/plain" (Some "a"%string)) eq_refl).
Defined.

Lemma parseDataUrl_of_plain_parts (mime payload : string) :
  plainMimeType mime = true ->
  mentions ","%char payload = false ->
  parseDataUrl (createDataUrl (Some mime) (Some payload))
  = Normal (mkParsed mime (Some payload)).
Proof.
  intros Hm Hp. apply andb_true_iff in Hm. destruct Hm as [Hne Hplain].
  assert (Hmime : mime <> ""%string) by (intros ->; discriminate Hne).
  rewrite createDataUrl_shape, parseDataUrl_header.
  - simpl. rewrite (lazyUntilSemicolon_plain _ _ Hplain).
    now rewrite (orDefault_nonempty _ _ Hmime).
  - simpl. rewrite mentions_append, (plainChars_no_comma _ Hplain). reflexivity.
  - exact Hp.
Qed.

(** X9. Decoding is stable under encoding again: when [parseDataUrl]
    has returned a MIME type and a payload, the data URL that
    [createDataUrl] makes of them is parsed to the same two parts. So the
    frame that [fileToFrame] makes of a data URL with a comma has a [src]
    that is parsed to the frame's own [mimeType] and [data]. *)
Theorem parseDataUrl_stable_under_encoding (dataUrl : string) (parsed : ParsedDataUrl)
    (payload : string) :
  parseDataUrl dataUrl = Normal parsed ->
  parsedData parsed = Some payload ->
  parseDataUrl (createDataUrl (Some (parsedMimeType parsed)) (Some payload))
  = Normal parsed
  /\ (forall w,
         exists frame,
           IO.run (IO.fileToFrame (IO.ReadString dataUrl)) w = (w, Normal frame)
           /\ mimeType frame = Some (parsedMimeType parsed)
           /\ data frame = Some payload
           /\ parseDataUrl (src frame) = Normal parsed).
Proof.
  intros Hparse Hdata.
  destruct (parseDataUrl_parts_plain _ _ Hparse) as [Hplain Hcomma].
  assert (E : parseDataUrl (createDataUrl (Some (parsedMimeType parsed)) (Some payload))
              = Normal parsed).
  { rewrite parseDataUrl_of_plain_parts; [|exact Hplain | now apply Hcomma].
    destruct parsed as [m d]. simpl in *. now rewrite Hdata. }
  split; [exact E|].
  intros w. unfold IO.run, IO.fileToFrame, IO.frameFromDataUrl, IO.flatMap, IO.of_.
  rewrite Hparse.
  eexists. split; [reflexivity|]. simpl. rewrite Hdata.
  split; [reflexivity|]. split; [reflexivity | exact E].
Qed.

Lemma parseDataUrl_stable_under_encoding_witness :
  parseDataUrl
    (createDataUrl (Some "image/svg+xml"%string) (Some "PHN2Zz4="%string))
  = Normal (mkParsed "image/svg+xml" (Some "PHN2Zz4="%string)).
Proof.
  apply (parseDataUrl_stable_under_encoding
           "data:image/svg+xml;charset=utf-8;base64,PHN2Zz4="
           (mkParsed "image/svg+xml" (Some "PHN2Zz4="%string)) "PHN2Zz4=" eq_refl eq_refl).
Defined.

(** X10. The effect layer keeps a data URL of the plain form
    [data:<type>;base64,<payload>] as it is: the frame that [fileToFrame],
    [captureVideoFrame] and [scaleFrame] make of it has this URL as
    [src], its type as [mimeType] and its payload as [data].
    [fileToFrame] fails only when the reader gives no string, and
    [scaleFrame] only when the image does not load. *)
Theorem effect_frames_keep_plain_data_url (mime payload : string) (w : World) :
  plainMimeType mime = true ->
  mentions ","%char payload = false ->
  let dataUrl := ("data:" ++ mime ++ ";base64," ++ payload)%string in
  let frame := mkFrame (Some payload) (Some mime) dataUrl in
  IO.run (IO.fileToFrame (IO.ReadString dataUrl)) w = (w, Normal frame)
  /\ (forall env time,
         videoJpeg env time = dataUrl ->
         IO.run (IO.captureVideoFrame env time) w = (w, Normal frame))
  /\ (forall env original scale,
         canvasJpeg env scale (src original) = dataUrl ->
         IO.run (IO.scaleFrame env original scale) w
         = match imageLoads env (src original) with
           | Some _ => (w, Normal frame)
           | None => (w, Throw OtherValue)
           end)
  /\ (forall result,
         exists made, IO.run (IO.fileToFrame (IO.ReadString result)) w = (w, Normal made))
  /\ IO.run (IO.fileToFrame IO.ReadOther) w = (w, Throw (Error "Failed to read file")).
Proof.
  intros Hm Hp dataUrl frame.
  assert (E : IO.run (IO.frameFromDataUrl dataUrl) w = (w, Normal frame)).
  { unfold IO.run, IO.frameFromDataUrl, IO.flatMap, IO.of_.
    change dataUrl with (createDataUrl (Some mime) (Some payload)).
    now rewrite (parseDataUrl_of_plain_parts _ _ Hm Hp). }
  split; [exact E|]. split; [|split; [|split]].
  - intros env time Hv. unfold IO.captureVideoFrame. now rewrite Hv.
  - intros env original scale Hc. unfold IO.scaleFrame.
    destruct (imageLoads env (src original)); [now rewrite Hc | reflexivity].
  - intros result. unfold IO.run, IO.fileToFrame, IO.frameFromDataUrl, IO.flatMap, IO.of_.
    destruct (parseDataUrl_returns result) as [parsed ->]. eexists. reflexivity.
  - reflexivity.
Qed.

Lemma effect_frames_keep_plain_data_url_witness :
  IO.run (IO.fileToFrame (IO.ReadString "data:image/png;base64,QUFB")) Examples.start
  = (Examples.start, Normal Examples.frameA).
Proof.
  apply (effect_frames_keep_plain_data_url "image/png" "QUFB" Examples.start);
    reflexivity.
Defined.

(* ===================================================================== *)
(** ** The IO class and the stored key *)
(* ===================================================================== *)

(** X11. The [IO] class obeys the monad laws when run: [IO.of] is a left
    and a right unit of [flatMap], [flatMap] is associative, [map] is
    [flatMap] into [IO.of], and two [map]s are the [map] of the composed
    function. *)
Theorem IO_monad_laws (S A B C : Type) :
  (forall (a : A) (f : A -> IO.t S B) s,
      IO.run (IO.flatMap (IO.of_ a) f) s = IO.run (f a) s)
  /\ (forall (io : IO.t S A) s,
         IO.run (IO.flatMap io IO.of_) s = IO.run io s)
  /\ (forall (io : IO.t S A) (f : A -> IO.t S B) (g : B -> IO.t S C) s,
         IO.run (IO.flatMap (IO.flatMap io f) g) s
         = IO.run (IO.flatMap io (fun a => IO.flatMap (f a) g)) s)
  /\ (forall (io : IO.t S A) (f : A -> B) s,
         IO.run (IO.map io f) s = IO.run (IO.flatMap io (fun a => IO.of_ (f a))) s)
  /\ (forall (io : IO.t S A) (f : A -> B) (g : B -> C) s,
         IO.run (IO.map (IO.map io f) g) s = IO.run (IO.map io (fun a => g (f a))) s).
Proof.
  unfold IO.run, IO.flatMap, IO.map, IO.of_.
  repeat split; intros; try reflexivity;
    destruct (io s) as [s' [a|e]]; reflexivity.
Qed.

Lemma getItem_setItem (key v : string) (s : Storage.t) :
  Storage.getItem key (Storage.setItem key v s) = Some v.
Proof.
  unfold Storage.getItem, Storage.setItem, Storage.removeItem.
  induction s as [|[k x] s IH]; simpl.
  - now rewrite String.eqb_refl.
  - destruct (String.eqb k key) eqn:E; simpl; [exact IH|]. now rewrite E.
Qed.

Lemma getItem_removeItem (key : string) (s : Storage.t) :
  Storage.getItem key (Storage.removeItem key s) = None.
Proof.
  unfold Storage.getItem, Storage.removeItem.
  induction s as [|[k x] s IH]; simpl; [reflexivity|].
  destruct (String.eqb k key) eqn:E; simpl; [exact IH|]. now rewrite E.
Qed.

Lemma getItem_removeItem_other (key other : string) (s : Storage.t) :
  other <> key ->
  Storage.getItem other (Storage.removeItem key s) = Storage.getItem other s.
Proof.
  intros Hne. unfold Storage.getItem, Storage.removeItem.
  induction s as [|[k x] s IH]; simpl; [reflexivity|].
  destruct (String.eqb_spec k key) as [->|Hk]; simpl.
  - destruct (String.eqb_spec key other) as [->|_]; [contradiction | exact IH].
  - destruct (String.eqb k other); [reflexivity | exact IH].
Qed.

Lemma getItem_setItem_other (key other v : string) (s : Storage.t) :
  other <> key ->
  Storage.getItem other (Storage.setItem key v s) = Storage.getItem other s.
Proof.
  intros Hne. rewrite <- (getItem_removeItem_other key other s Hne).
  unfold Storage.getItem, Storage.setItem.
  induction (Storage.removeItem key s) as [|[k x] r IH]; simpl.
  - destruct (String.eqb_spec key other) as [->|_]; [contradiction | reflexivity].
  - destruct (String.eqb k other); [reflexivity | exact IH].
Qed.

(** X12. The storage effects round-trip the key: after [saveApiKey(key)],
    [getStoredApiKey()] gives [key], whatever was stored before; after
    [removeApiKey()] it gives [null]; and neither touches the items
    stored under other names, the world or the alerts. *)
Theorem stored_key_round_trip (key : string) (p : Page) :
  (exists p',
      IO.run (IO.flatMap (IO.saveApiKey key) (fun _ => IO.getStoredApiKey)) p
      = (p', Normal (Some key))
      /\ world p' = world p /\ alerts p' = alerts p
      /\ forall other,
           other <> "gemini_api_key"%string ->
           Storage.getItem other (localStorage p')
           = Storage.getItem other (localStorage p))
  /\ (exists p',
         IO.run (IO.flatMap IO.removeApiKey (fun _ => IO.getStoredApiKey)) p
         = (p', Normal None)
         /\ world p' = world p /\ alerts p' = alerts p
         /\ forall other,
              other <> "gemini_api_key"%string ->
              Storage.getItem other (localStorage p')
              = Storage.getItem other (localStorage p)).
Proof.
  unfold IO.run, IO.flatMap, IO.saveApiKey, IO.removeApiKey, IO.getStoredApiKey.
  split; eexists; cbn [localStorage world alerts].
  - rewrite getItem_setItem. split; [reflexivity|]. cbn.
    split; [reflexivity|]. split; [reflexivity|].
    intros other Hne. now apply getItem_setItem_other.
  - rewrite getItem_removeItem. split; [reflexivity|]. cbn.
    split; [reflexivity|]. split; [reflexivity|].
    intros other Hne. now apply getItem_removeItem_other.
Qed.

Lemma stored_key_round_trip_witness :
  snd (IO.run (IO.flatMap (IO.saveApiKey "AIzaSyExample-key")
                 (fun _ => IO.getStoredApiKey))
         (mkPage Examples.start [("gemini_api_key", "old"); ("theme", "dark")]%string []))
  = Normal (Some "AIzaSyExample-key"%string).
Proof.
  destruct (proj1 (stored_key_round_trip "AIzaSyExample-key"
                     (mkPage Examples.start
                        [("gemini_api_key", "old"); ("theme", "dark")]%string [])))
    as (p' & E & _).
  now rewrite E.
Defined.

(* ===================================================================== *)
(** ** Downsampling and assembly in the two layers *)
(* ===================================================================== *)

Lemma lowResFrame_of_jpeg (env : Env) (frame : Frame) (scale : Q) (payload : string) :
  canvasJpeg env scale (src frame) = ("data:image/jpeg;base64," ++ payload)%string ->
  mentions ","%char payload = false ->
  lowResFrame env scale frame
  = createFrame (Some payload) (Some "image/jpeg"%string).
Proof.
  intros E Hp. unfold lowResFrame. rewrite E.
  change ("data:image/jpeg;base64," ++ payload)%string
    with ("data:image/jpeg;base64" ++ String ","%char payload)%string at 1.
  rewrite split_at_separator by reflexivity.
  now rewrite (split_without_separator _ _ Hp).
Qed.

Lemma scaleFrame_of_jpeg (env : Env) (frame : Frame) (scale : Q) (payload : string)
    (w : World) :
  canvasJpeg env scale (src frame) = ("data:image/jpeg;base64," ++ payload)%string ->
  mentions ","%char payload = false ->
  IO.run (IO.scaleFrame env frame scale) w
  = match imageLoads env (src frame) with
    | Some _ => (w, Normal (lowResFrame env scale frame))
    | None => (w, Throw OtherValue)
    end.
Proof.
  intros E Hp. unfold IO.run, IO.scaleFrame.
  destruct (imageLoads env (src frame)); [|reflexivity].
  rewrite (lowResFrame_of_jpeg _ _ _ _ E Hp), E.
  unfold IO.frameFromDataUrl, IO.flatMap, IO.of_.
  change ("data:image/jpeg;base64," ++ payload)%string
    with (createDataUrl (Some "image/jpeg"%string) (Some payload)).
  now rewrite (parseDataUrl_of_plain_parts "image/jpeg" payload eq_refl Hp).
Qed.

(** X13. The two layers downsample alike. In a browser whose canvas
    encodes to [data:image/jpeg;base64,<payload>], [createLowResFrames]
    of the application resolves, when every image loads, with the frames
    with which [scaleFrame] of the effect layer resolves frame by frame;
    and it rejects, as [scaleFrame] does for that frame, as soon as one
    image does not load. Neither changes the page. *)
Theorem createLowResFrames_agrees_with_scaleFrame (env : Env) (frames : list Frame)
    (scale : Q) (w : World) :
  Forall (fun frame =>
            exists payload,
              canvasJpeg env scale (src frame)
              = ("data:image/jpeg;base64," ++ payload)%string
              /\ mentions ","%char payload = false) frames ->
  (Forall (fun frame => imageLoads env (src frame) <> None) frames ->
   exists results,
     App.createLowResFrames env frames scale w = (w, Normal results)
     /\ Forall2 (fun frame result =>
                   IO.run (IO.scaleFrame env frame scale) w = (w, Normal result))
          frames results)
  /\ (Exists (fun frame => imageLoads env (src frame) = None) frames ->
      App.createLowResFrames env frames scale w = (w, Throw OtherValue)
      /\ Exists (fun frame =>
                   IO.run (IO.scaleFrame env frame scale) w = (w, Throw OtherValue))
           frames).
Proof.
  intros Hjpeg. split.
  - intros Hloads. exists (map (lowResFrame env scale) frames).
    split; [now apply createLowResFrames_run|].
    induction frames as [|frame rest IH]; [constructor|].
    inversion Hjpeg as [|? ? (payload & E & Hp) Hrest]; subst.
    inversion Hloads as [|? ? Hl Hlrest]; subst.
    simpl. constructor; [|now apply IH].
    rewrite (scaleFrame_of_jpeg _ _ _ _ _ E Hp).
    destruct (imageLoads env (src frame)); [reflexivity | contradiction].
  - intros Hbroken. split; [now apply createLowResFrames_rejects|].
    induction Hbroken as [frame rest Hnone|frame rest Hrest IH].
    + inversion Hjpeg as [|? ? (payload & E & Hp) _]; subst.
      apply Exists_cons_hd. rewrite (scaleFrame_of_jpeg _ _ _ _ _ E Hp).
      now rewrite Hnone.
    + inversion Hjpeg; subst. apply Exists_cons_tl. now apply IH.
Qed.

Lemma createLowResFrames_agrees_with_scaleFrame_witness :
  exists results,
    App.createLowResFrames Examples.browser [Examples.frameA; Examples.frameB]
      (1 # 4) Examples.start
    = (Examples.start, Normal results)
    /\ Forall2 (fun frame result =>
                  IO.run (IO.scaleFrame Examples.browser frame (1 # 4)) Examples.start
                  = (Examples.start, Normal result))
         [Examples.frameA; Examples.frameB] results.
Proof.
  apply (createLowResFrames_agrees_with_scaleFrame Examples.browser
           [Examples.frameA; Examples.frameB] (1 # 4) Examples.start).
  - repeat constructor; exists "bG93cmVz"%string; split; reflexivity.
  - repeat constructor; discriminate.
Defined.





Lemma find_of_stronger {A : Type} (P R : A -> bool) (l : list A) (c : A) :
  (forall x, R x = true -> P x = true) ->
  find P l = Some c -> R c = true -> find R l = Some c.
Proof.
  intros Himp. induction l as [|x l IH]; simpl; [discriminate|].
  intros H Hc. destruct (P x) eqn:Ep.
  - injection H as ->. now rewrite Hc.
  - destruct (R x) eqn:Er; [|now apply IH].
    rewrite (Himp x Er) in Ep. discriminate.
Qed.

Lemma find_on_members {A : Type} (P R : A -> bool) (l : list A) :
  (forall x, In x l -> P x = R x) -> find P l = find R l.
Proof.
  induction l as [|x l IH]; simpl; intros H; [reflexivity|].
  rewrite (H x (or_introl eq_refl)). destruct (R x); [reflexivity|].
  apply IH. intros y Hy. apply H. now right.
Qed.

Lemma selectBestCodec_of_supported (env : Env) :
  selectBestCodec
    (filter (isTypeSupported env)
       [ "video/webm; codecs=vp9"; "video/webm; codecs=vp8";
         "video/mp4"; "video/webm" ]%string)
  = find (fun option => isTypeSupported env (codecMimeType option)) App.videoOptions.
Proof.
  unfold selectBestCodec, codecOptions, App.videoOptions. cbn [filter find codecMimeType].
  destruct (isTypeSupported env "video/webm; codecs=vp9");
    destruct (isTypeSupported env "video/webm; codecs=vp8");
    destruct (isTypeSupported env "video/mp4");
    destruct (isTypeSupported env "video/webm"); reflexivity.
Qed.

Lemma Effects_createVideoFromFrames_cases (env : Env) (frames : list Frame) (fps : nat)
    (w : World) :
  Effects.createVideoFromFrames env frames fps w
  = match frames with
    | [] => (w, Throw (Error "No frames to create video"))
    | first :: _ =>
        match imageLoads env (src first) with
        | None => (w, Throw (Error "Failed to load first frame"))
        | Some (width, height) =>
            match find (fun option => isTypeSupported env (codecMimeType option))
                    App.videoOptions with
            | None => (w, Throw (Error "No supported video codec found"))
            | Some c =>
                if recorderConstructs env (codecMimeType c) then
                  (extend w
                     ([RecorderStart (codecMimeType c)]
                      ++ map (drawn env width height) frames ++ [RecorderStop]),
                   Normal (mkVideo (createObjectURL env (codecMimeType c))
                             (extension c)))
                else (w, Throw (Error "Failed to initialize MediaRecorder"))
            end
        end
    end.
Proof.
  destruct frames as [|first rest]; [reflexivity|].
  destruct (imageLoads env (src first)) as [[width height]|] eqn:El.
  - destruct (find (fun option => isTypeSupported env (codecMimeType option))
                App.videoOptions) as [c|] eqn:Ef.
    + destruct (recorderConstructs env (codecMimeType c)) eqn:Er.
      * apply (Effects_createVideoFromFrames_run env first rest fps width height w c El);
          [now rewrite selectBestCodec_of_supported | exact Er].
      * unfold Effects.createVideoFromFrames.
        rewrite El, selectBestCodec_of_supported, Ef, Er. reflexivity.
    + unfold Effects.createVideoFromFrames.
      rewrite El, selectBestCodec_of_supported, Ef. reflexivity.
  - unfold Effects.createVideoFromFrames. now rewrite El.
Qed.

Lemma App_createVideoFromFrames_cases (env : Env) (frames : list Frame) (fps : nat)
    (w : World) :
  App.createVideoFromFrames env frames fps w
  = match frames with
    | [] => (w, Throw (Error "No frames to create video from."))
    | first :: _ =>
        match imageLoads env (src first) with
        | None =>
            (w, Throw (Error "Could not load first frame to get video dimensions."))
        | Some (width, height) =>
            match find (usable env) App.videoOptions with
            | None =>
                (w, Throw (Error
                             "MediaRecorder could not be initialized. Cannot create video."))
            | Some c =>
                (extend w
                   ([RecorderStart (codecMimeType c)]
                    ++ map (drawn env width height) frames ++ [RecorderStop]),
                 Normal (mkVideo (createObjectURL env (codecMimeType c)) (extension c)))
            end
        end
    end.
Proof.
  destruct frames as [|first rest]; [reflexivity|].
  destruct (imageLoads env (src first)) as [[width height]|] eqn:El.
  - rewrite (App_createVideoFromFrames_run env first rest fps width height w El).
    now rewrite pickRecorder_find.
  - unfold App.createVideoFromFrames. now rewrite El.
Qed.

Lemma createVideoFromFrames_versions_run (env : Env) (frames : list Frame)
    (fps : nat) (w : World) :
  (forall w' video,
      Effects.createVideoFromFrames env frames fps w = (w', Normal video) ->
      App.createVideoFromFrames env frames fps w = (w', Normal video))
  /\ ((forall option,
          In option App.videoOptions ->
          isTypeSupported env (codecMimeType option) = true ->
          recorderConstructs env (codecMimeType option) = true) ->
      forall w' video,
        App.createVideoFromFrames env frames fps w = (w', Normal video) ->
        Effects.createVideoFromFrames env frames fps w = (w', Normal video)).
Proof.
  rewrite Effects_createVideoFromFrames_cases, App_createVideoFromFrames_cases.
  destruct frames as [|first rest].
  { repeat split; intros; congruence. }
  destruct (imageLoads env (src first)) as [[width height]|].
  2: { repeat split; intros; congruence. }
  split.
  - intros w' video H.
    destruct (find (fun option => isTypeSupported env (codecMimeType option))
                App.videoOptions) as [c|] eqn:Ef; [|discriminate H].
    destruct (recorderConstructs env (codecMimeType c)) eqn:Er; [|discriminate H].
    assert (Eu : find (usable env) App.videoOptions = Some c).
    { apply (find_of_stronger
               (fun option => isTypeSupported env (codecMimeType option))
               (usable env) App.videoOptions c); [|exact Ef|].
      - intros x Hx. unfold usable in Hx. now apply andb_true_iff in Hx.
      - unfold usable. rewrite Er, andb_true_r.
        now destruct (find_some _ _ Ef). }
    now rewrite Eu.
  - intros Hall w' video H.
    rewrite <- (find_on_members (usable env)).
    + destruct (find (usable env) App.videoOptions) as [c|] eqn:Ef; [|discriminate H].
      destruct (find_some _ _ Ef) as [_ Hu]. unfold usable in Hu.
      apply andb_true_iff in Hu. destruct Hu as [_ ->]. exact H.
    + intros x Hx. unfold usable.
      destruct (isTypeSupported env (codecMimeType x)) eqn:Es; [|reflexivity].
      now rewrite (Hall x Hx Es).
Qed.

(** X14. The two versions of [createVideoFromFrames] agree where both
    can, for a recorder that records without an [error] event once it is
    constructed: whenever the version of the effect layer resolves, the
    version of the application resolves after the same recorder and canvas
    events, with a file of the same extension; the converse holds when
    every codec that the browser reports as supported also gives a
    recorder. The pacing of the frames, which only the effect layer has,
    is not modelled. *)
Theorem createVideoFromFrames_versions_agree (env : Env) (frames : list Frame)
    (fps : nat) (w : World) :
  (forall w' video,
      Effects.createVideoFromFrames env frames fps w = (w', Normal video) ->
      exists video',
        App.createVideoFromFrames env frames fps w = (w', Normal video')
        /\ fileExtension video' = fileExtension video)
  /\ ((forall option,
          In option App.videoOptions ->
          isTypeSupported env (codecMimeType option) = true ->
          recorderConstructs env (codecMimeType option) = true) ->
      forall w' video,
        App.createVideoFromFrames env frames fps w = (w', Normal video) ->
        exists video',
          Effects.createVideoFromFrames env frames fps w = (w', Normal video')
          /\ fileExtension video' = fileExtension video).
Proof.
  destruct (createVideoFromFrames_versions_run env frames fps w) as [Hfrom Hto].
  split.
  - intros w' video H. exists video. split; [now apply Hfrom | reflexivity].
  - intros Hall w' video H. exists video. split; [now apply Hto | reflexivity].
Qed.

Lemma createVideoFromFrames_versions_agree_witness :
  exists video',
    App.createVideoFromFrames Examples.browserMp4Only
      [Examples.frameA; Examples.frameBroken] 10 Examples.start
    = (extend Examples.start
         [ RecorderStart "video/mp4"; DrawImage (src Examples.frameA);
           FillBlack 640 480; RecorderStop ],
       Normal video')
    /\ fileExtension video' = "mp4"%string.
Proof.
  apply (proj1 (createVideoFromFrames_versions_agree Examples.browserMp4Only
                  [Examples.frameA; Examples.frameBroken] 10 Examples.start)
           _ (mkVideo "blob:video/mp4" "mp4")).
  reflexivity.
Defined.

(* ===================================================================== *)
(** ** The dispatcher and a single image *)
(* ===================================================================== *)

Lemma generateSingleImage_run (env : Env) (frame : Frame) (w : World) :
  let outcome := outcomeAt env (promptOf env) (served w) frame in
  let entry := entryFor outcome frame in
  AppFlow.generateSingleImage env [frame] w
  = if isAuthenticationFailure outcome then
      (mkWorld
         (trace w ++ singleImageRequest env frame ++ invalidKeyEvents
          ++ [SetLoading false "Loading..."])
         (S (served w)) (ai w) (stylizedFrames w),
       Normal tt)
    else
      (mkWorld
         (trace w ++ singleImageRequest env frame
          ++ [ StartOutputAnimation [entry];
               OfferDownload (src entry)
                 ("stylized-image-" ++ showNat (dateNow env) ++ ".png")%string;
               SetLoading false "Loading..." ])
         (S (served w)) (ai w) [entry],
       Normal tt).
Proof.
  intros outcome entry. subst entry outcome.
  unfold outcomeAt, isAuthenticationFailure, entryFor, singleImageRequest,
    invalidKeyEvents.
  unfold AppFlow.generateSingleImage, App.styleFrames, bind, tryCatch, emit.
  cbn [App.styleFramesLoop List.length trace served ai stylizedFrames emit].
  unfold emit, generateContent.
  cbn [trace served ai stylizedFrames].
  change ("Transform this image into a " ++ selectedStyle env ++ " style.")%string
    with (promptOf env).
  destruct (service env (served w) (data frame) (mimeType frame) (promptOf env))
    as [[part|]|text].
  - cbn. repeat rewrite <- app_assoc. reflexivity.
  - cbn. repeat rewrite <- app_assoc. reflexivity.
  - destruct (App.isInvalidKeyError (ServiceError text)) eqn:Eauth.
    + cbn. repeat rewrite <- app_assoc. reflexivity.
    + cbn. repeat rewrite <- app_assoc. reflexivity.
Qed.

(** X15. A click on Generate with a client and one captured frame sends
    exactly one request and always ends with the loading state off. When
    the request is an authentication failure, the invalid key is
    reported and nothing is shown or offered; in every other case an
    image is shown and offered for download as [stylized-image-<now>.png]:
    the styled image, or the captured frame itself when the service
    returned no image or failed. The errors [The model did not return an
    image] and [Failed to generate image] are never shown. Without a
    client, or without a frame, the click sends no request. *)
Theorem handleGenerateClick_single_image (env : Env) (frame : Frame)
    (client : Value) (w : World) :
  ai w = Some client ->
  let outcome := outcomeAt env (promptOf env) (served w) frame in
  let entry := entryFor outcome frame in
  AppFlow.handleGenerateClick env [frame] w
  = (if isAuthenticationFailure outcome then
       (mkWorld
          (trace w ++ singleImageRequest env frame ++ invalidKeyEvents
           ++ [SetLoading false "Loading..."])
          (S (served w)) (ai w) (stylizedFrames w),
        Normal tt)
     else
       (mkWorld
          (trace w ++ singleImageRequest env frame
           ++ [ StartOutputAnimation [entry];
                OfferDownload (src entry)
                  ("stylized-image-" ++ showNat (dateNow env) ++ ".png")%string;
                SetLoading false "Loading..." ])
          (S (served w)) (ai w) [entry],
        Normal tt))
  /\ AppFlow.handleGenerateClick env [] w
     = (extend w [ShowError "Please upload an image or extract frames first."],
        Normal tt)
  /\ (forall frames w0,
         ai w0 = None ->
         AppFlow.handleGenerateClick env frames w0
         = (extend w0 [ ShowError "API Key is missing. Please configure it in settings.";
                        ShowApiKeyModal ],
            Normal tt)).
Proof.
  intros Hai outcome entry. split; [|split].
  - assert (E : AppFlow.handleGenerateClick env [frame] w
                = AppFlow.generateSingleImage env [frame] w)
      by (unfold AppFlow.handleGenerateClick; now rewrite Hai).
    rewrite E. apply generateSingleImage_run.
  - unfold AppFlow.handleGenerateClick. rewrite Hai. reflexivity.
  - intros frames w0 H0. unfold AppFlow.handleGenerateClick. rewrite H0.
    unfold bind, emit, extend. cbn. now rewrite <- app_assoc.
Qed.

Lemma handleGenerateClick_single_image_witness :
  fst (AppFlow.handleGenerateClick Examples.browserNoImage [Examples.frameA] ready)
  = mkWorld
      (singleImageRequest Examples.browserNoImage Examples.frameA
       ++ [ StartOutputAnimation [App.fallbackEntry Examples.frameA];
            OfferDownload (src Examples.frameA) "stylized-image-1000.png";
            SetLoading false "Loading..." ])
      1 (ai ready) [App.fallbackEntry Examples.frameA].
Proof.
  rewrite (proj1 (handleGenerateClick_single_image Examples.browserNoImage
                    Examples.frameA (Str "AIzaSyExample-key") ready eq_refl)).
  reflexivity.
Defined.

(* ===================================================================== *)
(** ** The two passes over a video *)
(* ===================================================================== *)

Lemma styleFrames_aborts_world (env : Env) (frames : list Frame) (k : nat)
    (frame : Frame) (prefix : string) (w : World) :
  nth_error frames k = Some frame ->
  noAuthenticationFailure env (promptOf env) (served w) (firstn k frames) ->
  isAuthenticationFailure (outcomeAt env (promptOf env) (served w + k) frame) = true ->
  App.styleFrames env frames prefix w
  = (advance w (S k)
       (loopEvents prefix (promptOf env) (List.length frames) 0 (firstn (S k) frames)
        ++ invalidKeyEvents),
     Throw (Error "Invalid API Key")).
Proof.
  intros Hnth Hbefore Hauth.
  destruct (nth_error_split _ _ Hnth) as (before & after & -> & Hk).
  assert (E1 : firstn k (before ++ frame :: after) = before).
  { rewrite <- Hk, firstn_app, Nat.sub_diag, firstn_all. simpl. apply app_nil_r. }
  assert (E2 : firstn (S k) (before ++ frame :: after) = before ++ [frame]).
  { rewrite <- Hk, firstn_app, firstn_all2 by lia.
    replace (S (List.length before) - List.length before) with 1 by lia.
    reflexivity. }
  rewrite E1 in Hbefore. rewrite E2. subst k.
  exact (proj1 (proj2 (styleFrames_aborts env before frame after prefix w
                         Hbefore Hauth))).
Qed.

Lemma loopEvents_loading_on (prefix prompt : string) (total : nat)
    (frames : list Frame) (message : string) :
  forall i, ~ In (SetLoading false message) (loopEvents prefix prompt total i frames).
Proof.
  induction frames as [|frame rest IH]; intros i H; [exact H|].
  simpl in H. destruct H as [H|[H|H]]; [discriminate H | discriminate H |].
  exact (IH _ H).
Qed.

(** X16. An image that does not decode is fatal before styling, though
    it is not at assembly: when one captured frame does not load,
    [processVideoWithProgressivePreview] reports that no preview could be
    generated and turns the loading state off, and this is all it does:
    no request is sent, [stylizedFrames] is unchanged and no second pass
    takes place. *)
Theorem processVideo_undecodable_frame_sends_no_request (env : Env)
    (capturedFrames : list Frame) (w : World) :
  Exists (fun frame => imageLoads env (src frame) = None) capturedFrames ->
  App.processVideoWithProgressivePreview env capturedFrames w
  = (extend w
       [ SetLoading true "Generating low-quality preview...";
         ShowError "Could not generate a preview. Please try again.";
         SetLoading false "Loading..." ],
     Normal tt).
Proof.
  intros H. unfold App.processVideoWithProgressivePreview, App.previewPass.
  unfold bind at 1. rewrite emit_extend.
  unfold bind at 1. rewrite (createLowResFrames_rejects _ _ _ _ H).
  cbn [messageIs]. unfold bind. rewrite !emit_extend, !extend_extend. reflexivity.
Qed.

Lemma processVideo_undecodable_frame_sends_no_request_witness :
  served (fst (App.processVideoWithProgressivePreview Examples.browser
                 [Examples.frameA; Examples.frameBroken; Examples.frameC]
                 Examples.start))
  = 0.
Proof.
  rewrite (processVideo_undecodable_frame_sends_no_request Examples.browser
             [Examples.frameA; Examples.frameBroken; Examples.frameC] Examples.start).
  - reflexivity.
  - apply Exists_cons_tl. apply Exists_cons_hd. reflexivity.
Defined.

Lemma previewPass_aborts (env : Env) (capturedFrames : list Frame) (k : nat)
    (frame : Frame) (w : World) :
  let lowResFrames := map (lowResFrame env (1 # 4)) capturedFrames in
  Forall (fun frame => imageLoads env (src frame) <> None) capturedFrames ->
  nth_error lowResFrames k = Some frame ->
  noAuthenticationFailure env (promptOf env) (served w) (firstn k lowResFrames) ->
  isAuthenticationFailure (outcomeAt env (promptOf env) (served w + k) frame) = true ->
  App.previewPass env capturedFrames w
  = (advance w (S k)
       (SetLoading true "Generating low-quality preview..."
        :: loopEvents "Styling preview frame" (promptOf env)
             (List.length capturedFrames) 0 (firstn (S k) lowResFrames)
        ++ invalidKeyEvents),
     Throw (Error "Invalid API Key")).
Proof.
  intros lowResFrames Hloads Hnth Hbefore Hauth. unfold App.previewPass.
  unfold bind at 1. rewrite emit_extend.
  unfold bind at 1. rewrite (createLowResFrames_run _ _ _ _ Hloads).
  fold lowResFrames. unfold bind at 1.
  rewrite (styleFrames_aborts_world env lowResFrames k frame
             "Styling preview frame" (extend w _) Hnth Hbefore Hauth).
  unfold lowResFrames at 1. rewrite length_map.
  unfold advance, extend. cbn [trace served ai stylizedFrames].
  now rewrite <- app_assoc.
Qed.

(** X17. An authentication failure during the preview pass leaves the
    page loading: when the request for the low-resolution frame [k] is
    the first authentication failure, [processVideoWithProgressivePreview]
    returns after [k + 1] requests, having reported the invalid key;
    [stylizedFrames] is unchanged, no second pass takes place, and no
    [setLoading(false)] follows the [setLoading(true, ...)] of the last
    request. *)
Theorem processVideo_preview_authentication_failure (env : Env)
    (capturedFrames : list Frame) (k : nat) (frame : Frame) (w : World) :
  let lowResFrames := map (lowResFrame env (1 # 4)) capturedFrames in
  let events :=
    SetLoading true "Generating low-quality preview..."
    :: loopEvents "Styling preview frame" (promptOf env)
         (List.length capturedFrames) 0 (firstn (S k) lowResFrames)
    ++ invalidKeyEvents in
  Forall (fun frame => imageLoads env (src frame) <> None) capturedFrames ->
  nth_error lowResFrames k = Some frame ->
  noAuthenticationFailure env (promptOf env) (served w) (firstn k lowResFrames) ->
  isAuthenticationFailure (outcomeAt env (promptOf env) (served w + k) frame) = true ->
  App.processVideoWithProgressivePreview env capturedFrames w
  = (advance w (S k) events, Normal tt)
  /\ forall message, ~ In (SetLoading false message) events.
Proof.
  intros lowResFrames events Hloads Hnth Hbefore Hauth. split.
  - unfold App.processVideoWithProgressivePreview.
    now rewrite (previewPass_aborts env capturedFrames k frame w Hloads Hnth Hbefore Hauth).
  - intros message H. subst events. destruct H as [H|H]; [discriminate H|].
    apply in_app_or in H. destruct H as [H|H].
    + exact (loopEvents_loading_on _ _ _ _ _ _ H).
    + simpl in H. intuition discriminate.
Qed.

Lemma processVideo_preview_authentication_failure_witness :
  App.processVideoWithProgressivePreview (Examples.browserForbiddenAt 1)
    [Examples.frameA; Examples.frameB; Examples.frameC] Examples.start
  = (advance Examples.start 2
       (SetLoading true "Generating low-quality preview..."
        :: loopEvents "Styling preview frame"
             (promptOf (Examples.browserForbiddenAt 1)) 3 0
             (firstn 2 (map (lowResFrame (Examples.browserForbiddenAt 1) (1 # 4))
                          [Examples.frameA; Examples.frameB; Examples.frameC]))
        ++ invalidKeyEvents),
     Normal tt).
Proof.
  apply (processVideo_preview_authentication_failure (Examples.browserForbiddenAt 1)
           [Examples.frameA; Examples.frameB; Examples.frameC] 1
           (lowResFrame (Examples.browserForbiddenAt 1) (1 # 4) Examples.frameB)
           Examples.start).
  - repeat constructor; discriminate.
  - reflexivity.
  - simpl. split; [reflexivity | exact I].
  - reflexivity.
Defined.

Ltac known_message :=
  match goal with
  | |- context [messageIs (Error ?message) ?m] =>
      let b := eval vm_compute in (messageIs (Error message) m) in
      change (messageIs (Error message) m) with b; cbv iota
  end.

Lemma previewPass_completes (env : Env) (capturedFrames : list Frame) (w : World) :
  let n := List.length capturedFrames in
  let lowResFrames := map (lowResFrame env (1 # 4)) capturedFrames in
  let preview := expectedEntries env (promptOf env) (served w) lowResFrames in
  0 < n ->
  Forall (fun frame => imageLoads env (src frame) <> None) capturedFrames ->
  noAuthenticationFailure env (promptOf env) (served w) lowResFrames ->
  App.previewPass env capturedFrames w
  = (mkWorld
       (trace w
        ++ SetLoading true "Generating low-quality preview..."
           :: loopEvents "Styling preview frame" (promptOf env) n 0 lowResFrames
        ++ [StartOutputAnimation preview])
       (served w + n) (ai w) preview,
     Normal tt).
Proof.
  intros n lowResFrames preview Hn Hloads Hnone.
  unfold App.previewPass, bind. rewrite emit_extend.
  rewrite (createLowResFrames_run _ _ _ _ Hloads). fold lowResFrames.
  rewrite styleFrames_completes by exact Hnone.
  cbn [served extend]. fold preview.
  assert (Hlow : List.length lowResFrames = n).
  { unfold lowResFrames. now rewrite length_map. }
  assert (Hlen : List.length preview = n).
  { unfold preview. now rewrite expectedEntries_length. }
  rewrite Hlen, Hlow.
  destruct n as [|n']; [inversion Hn|]. cbn [Nat.eqb].
  unfold setStylizedFrames, App.startOutputAnimation, getStylizedFrames, bind, emit,
    advance, extend.
  cbn [trace served ai stylizedFrames].
  rewrite <- !app_assoc. reflexivity.
Qed.

Lemma finalPass_completes (env : Env) (capturedFrames : list Frame) (w : World) :
  let n := List.length capturedFrames in
  let final := expectedEntries env (promptOf env) (served w) capturedFrames in
  noAuthenticationFailure env (promptOf env) (served w) capturedFrames ->
  tryCatch (App.finalPass env capturedFrames)
    (fun error =>
       if messageIs error "Invalid API Key" then ret tt
       else emit (ShowError
                    "Failed to generate final video, but the preview is available."))
    w
  = (advance w n
       (loopEvents "Styling high-quality frame" (promptOf env) n 0 capturedFrames
        ++ [SetLoading true "Encoding final video..."]
        ++ assemblyEvents env final),
     Normal tt).
Proof.
  intros n final Hnone. unfold tryCatch, App.finalPass.
  unfold bind at 1. rewrite styleFrames_completes by exact Hnone.
  fold final. fold n.
  assert (Hlen : List.length final = n)
    by (unfold final; now rewrite expectedEntries_length).
  rewrite Hlen, Nat.eqb_refl. cbn [negb].
  unfold bind at 1. unfold ret at 1.
  unfold bind at 1. rewrite emit_extend, extend_advance.
  unfold bind at 1. rewrite App_createVideoFromFrames_cases.
  unfold assemblyEvents.
  destruct final as [|first rest].
  { known_message. rewrite emit_extend, extend_advance.
    now rewrite <- !app_assoc. }
  destruct (imageLoads env (src first)) as [[width height]|].
  2: { known_message. rewrite emit_extend, extend_advance.
       now rewrite <- !app_assoc. }
  destruct (find (usable env) App.videoOptions) as [c|].
  2: { known_message. rewrite emit_extend, extend_advance.
       now rewrite <- !app_assoc. }
  unfold bind. rewrite !emit_extend. cbn [url fileExtension].
  rewrite !extend_extend, extend_advance.
  f_equal. f_equal. cbn [app]. rewrite <- !app_assoc. cbn [app]. reflexivity.
Qed.

Lemma finalPass_aborts (env : Env) (capturedFrames : list Frame) (k : nat)
    (frame : Frame) (w : World) :
  nth_error capturedFrames k = Some frame ->
  noAuthenticationFailure env (promptOf env) (served w) (firstn k capturedFrames) ->
  isAuthenticationFailure (outcomeAt env (promptOf env) (served w + k) frame) = true ->
  tryCatch (App.finalPass env capturedFrames)
    (fun error =>
       if messageIs error "Invalid API Key" then ret tt
       else emit (ShowError
                    "Failed to generate final video, but the preview is available."))
    w
  = (advance w (S k)
       (loopEvents "Styling high-quality frame" (promptOf env)
          (List.length capturedFrames) 0 (firstn (S k) capturedFrames)
        ++ invalidKeyEvents),
     Normal tt).
Proof.
  intros Hnth Hbefore Hauth. unfold tryCatch, App.finalPass.
  unfold bind at 1.
  now rewrite (styleFrames_aborts_world env capturedFrames k frame
                 "Styling high-quality frame" w Hnth Hbefore Hauth).
Qed.

(** X18. The whole of [processVideoWithProgressivePreview] when no
    request is an authentication failure: for captured frames that all
    load, it sends [2n] requests, [n] for the downsampled frames and then
    [n] for the captured ones; it shows the preview between the two
    passes; it then announces the encoding and assembles the [n] entries
    of the second pass, or reports that the final video failed when their
    first image does not load or no recorder can be made; and it ends
    with the loading state off. [stylizedFrames] holds the preview at the
    end, not the frames of the second pass, and the error that not all
    frames could be stylized is never shown. *)
Theorem processVideo_without_authentication_failure (env : Env)
    (capturedFrames : list Frame) (w : World) :
  let n := List.length capturedFrames in
  let lowResFrames := map (lowResFrame env (1 # 4)) capturedFrames in
  let preview := expectedEntries env (promptOf env) (served w) lowResFrames in
  let final := expectedEntries env (promptOf env) (served w + n) capturedFrames in
  0 < n ->
  Forall (fun frame => imageLoads env (src frame) <> None) capturedFrames ->
  noAuthenticationFailure env (promptOf env) (served w) lowResFrames ->
  noAuthenticationFailure env (promptOf env) (served w + n) capturedFrames ->
  App.processVideoWithProgressivePreview env capturedFrames w
  = (mkWorld
       (trace w
        ++ SetLoading true "Generating low-quality preview..."
           :: loopEvents "Styling preview frame" (promptOf env) n 0 lowResFrames
        ++ [StartOutputAnimation preview]
        ++ loopEvents "Styling high-quality frame" (promptOf env) n 0 capturedFrames
        ++ [SetLoading true "Encoding final video..."]
        ++ assemblyEvents env final
        ++ [SetLoading false "Loading..."])
       (served w + n + n) (ai w) preview,
     Normal tt).
Proof.
  intros n lowResFrames preview final Hn Hloads Hpreview Hfinal.
  unfold App.processVideoWithProgressivePreview.
  rewrite (previewPass_completes env capturedFrames w Hn Hloads Hpreview).
  fold n lowResFrames preview.
  unfold bind at 1. rewrite finalPass_completes by exact Hfinal.
  rewrite emit_extend, extend_advance.
  unfold advance. cbn [trace served ai stylizedFrames]. fold n final.
  f_equal. f_equal. rewrite <- !app_assoc. cbn [app]. rewrite <- !app_assoc.
  reflexivity.
Qed.

Lemma processVideo_without_authentication_failure_witness :
  served (fst (App.processVideoWithProgressivePreview Examples.browserFlaky
                 [Examples.frameA; Examples.frameB; Examples.frameC] Examples.start))
  = 6
  /\ stylizedFrames
       (fst (App.processVideoWithProgressivePreview Examples.browserFlaky
               [Examples.frameA; Examples.frameB; Examples.frameC] Examples.start))
     = expectedEntries Examples.browserFlaky (promptOf Examples.browserFlaky) 0
         (map (lowResFrame Examples.browserFlaky (1 # 4))
            [Examples.frameA; Examples.frameB; Examples.frameC]).
Proof.
  rewrite (processVideo_without_authentication_failure Examples.browserFlaky
             [Examples.frameA; Examples.frameB; Examples.frameC] Examples.start).
  - split; reflexivity.
  - simpl. lia.
  - repeat constructor; discriminate.
  - simpl. repeat split.
  - simpl. repeat split.
Defined.

(** X19. An authentication failure during the second pass keeps the
    preview: when the preview pass has completed and the request for the
    captured frame [k] is the first authentication failure of the second
    pass, [processVideoWithProgressivePreview] reports the invalid key
    after [n + k + 1] requests, assembles nothing, and turns the loading
    state off; [stylizedFrames] holds the preview. *)
Theorem processVideo_final_authentication_failure (env : Env)
    (capturedFrames : list Frame) (k : nat) (frame : Frame) (w : World) :
  let n := List.length capturedFrames in
  let lowResFrames := map (lowResFrame env (1 # 4)) capturedFrames in
  let preview := expectedEntries env (promptOf env) (served w) lowResFrames in
  Forall (fun frame => imageLoads env (src frame) <> None) capturedFrames ->
  noAuthenticationFailure env (promptOf env) (served w) lowResFrames ->
  nth_error capturedFrames k = Some frame ->
  noAuthenticationFailure env (promptOf env) (served w + n) (firstn k capturedFrames) ->
  isAuthenticationFailure (outcomeAt env (promptOf env) (served w + n + k) frame)
  = true ->
  App.processVideoWithProgressivePreview env capturedFrames w
  = (mkWorld
       (trace w
        ++ SetLoading true "Generating low-quality preview..."
           :: loopEvents "Styling preview frame" (promptOf env) n 0 lowResFrames
        ++ [StartOutputAnimation preview]
        ++ loopEvents "Styling high-quality frame" (promptOf env) n 0
             (firstn (S k) capturedFrames)
        ++ invalidKeyEvents
        ++ [SetLoading false "Loading..."])
       (served w + n + S k) (ai w) preview,
     Normal tt).
Proof.
  intros n lowResFrames preview Hloads Hpreview Hnth Hbefore Hauth.
  assert (Hn : 0 < n).
  { assert (H : nth_error capturedFrames k <> None) by congruence.
    apply nth_error_Some in H. unfold n. lia. }
  unfold App.processVideoWithProgressivePreview.
  rewrite (previewPass_completes env capturedFrames w Hn Hloads Hpreview).
  fold n lowResFrames preview.
  unfold bind at 1.
  match goal with
  | |- context [tryCatch _ _ ?w1] =>
      rewrite (finalPass_aborts env capturedFrames k frame w1 Hnth Hbefore Hauth)
  end.
  rewrite emit_extend, extend_advance.
  unfold advance. cbn [trace served ai stylizedFrames]. fold n.
  f_equal. f_equal. rewrite <- !app_assoc. cbn [app]. rewrite <- !app_assoc.
  reflexivity.
Qed.

Lemma processVideo_final_authentication_failure_witness :
  served (fst (App.processVideoWithProgressivePreview (Examples.browserForbiddenAt 2)
                 [Examples.frameA; Examples.frameB] Examples.start))
  = 3
  /\ stylizedFrames
       (fst (App.processVideoWithProgressivePreview (Examples.browserForbiddenAt 2)
               [Examples.frameA; Examples.frameB] Examples.start))
     = [App.styledEntry Examples.styledPart; App.styledEntry Examples.styledPart].
Proof.
  rewrite (processVideo_final_authentication_failure (Examples.browserForbiddenAt 2)
             [Examples.frameA; Examples.frameB] 0 Examples.frameA Examples.start).
  - split; reflexivity.
  - repeat constructor; discriminate.
  - simpl. repeat split.
  - reflexivity.
  - exact I.
  - reflexivity.
Defined.

(* ===================================================================== *)
(** ** The key: saving, checking, forgetting *)
(* ===================================================================== *)

Lemma trimEnd_trimEnd (s : string) : JsText.trimEnd (JsText.trimEnd s) = JsText.trimEnd s.
Proof.
  induction s as [|c s IH]; [reflexivity|].
  cbn [JsText.trimEnd]. destruct (JsText.trimEnd s) as [|d kept] eqn:E.
  - destruct (JsText.isWhiteSpace c) eqn:Ec; [reflexivity|].
    cbn [JsText.trimEnd]. now rewrite Ec.
  - change (JsText.trimEnd (String c (String d kept)))
      with (match JsText.trimEnd (String d kept) with
            | EmptyString =>
                if JsText.isWhiteSpace c then EmptyString else String c EmptyString
            | String _ _ as k => String c k
            end).
    now rewrite IH.
Qed.

Lemma trimStart_head (s : string) :
  match JsText.trimStart s with
  | EmptyString => True
  | String c _ => JsText.isWhiteSpace c = false
  end.
Proof.
  induction s as [|c s IH]; [exact I|].
  cbn [JsText.trimStart]. destruct (JsText.isWhiteSpace c) eqn:Ec; [exact IH | exact Ec].
Qed.

Lemma trimStart_trimEnd (s : string) :
  match s with
  | EmptyString => True
  | String c _ => JsText.isWhiteSpace c = false
  end ->
  JsText.trimStart (JsText.trimEnd s) = JsText.trimEnd s.
Proof.
  destruct s as [|c s]; [reflexivity|]. intros Hc.
  cbn [JsText.trimEnd]. destruct (JsText.trimEnd s).
  - rewrite Hc. cbn [JsText.trimStart]. now rewrite Hc.
  - cbn [JsText.trimStart]. now rewrite Hc.
Qed.

Lemma trim_trim (s : string) : JsText.trim (JsText.trim s) = JsText.trim s.
Proof.
  unfold JsText.trim.
  rewrite (trimStart_trimEnd (JsText.trimStart s) (trimStart_head s)).
  apply trimEnd_trimEnd.
Qed.

Lemma skipn_past {A : Type} (l r : list A) : skipn (List.length l) (l ++ r) = r.
Proof. induction l as [|x l IH]; [reflexivity | exact IH]. Qed.

Lemma inWorld_run {A : Type} (c : M A) (p : Page) (w' : World) (r : Completion A)
    (events : list Event) :
  c (world p) = (w', r) ->
  trace w' = trace (world p) ++ events ->
  AppFlow.inWorld c p
  = (mkPage w' (AppFlow.storageAfter events (localStorage p)) (alerts p), r).
Proof.
  intros E Ht. unfold AppFlow.inWorld. now rewrite E, Ht, skipn_past.
Qed.

Lemma nonempty_length (s : string) : s <> ""%string -> Nat.ltb 0 (String.length s) = true.
Proof. destruct s; [congruence | reflexivity]. Qed.

Lemma truthy_nonempty (s : string) : s <> ""%string -> JsText.truthy (Some s) = true.
Proof. destruct s; [congruence | reflexivity]. Qed.

(** X20. A key that is saved is the key that the next page load uses.
    For an input that is not only white space, for which a client can be
    made, [saveApiKey] of the application script stores the trimmed
    input, which has no white space left to trim, makes the client with
    it and raises no alert; and [checkApiKey] on a page with this storage
    and no key of its own in the environment makes the client with the
    same key without showing the modal. For an input of white space only
    [saveApiKey] raises the alert and changes nothing else. *)
Theorem saveApiKey_then_checkApiKey (env : Env) (input : string) (p : Page) :
  let key := JsText.trim input in
  (key <> ""%string ->
   clientConstructs env (Str key) = true ->
   exists p1,
     AppFlow.saveApiKey env input p = (p1, Normal tt)
     /\ Storage.getItem "gemini_api_key" (localStorage p1) = Some key
     /\ JsText.trim key = key
     /\ ai (world p1) = Some (Str key)
     /\ alerts p1 = alerts p
     /\ forall envKey p2,
          AppFlow.isPlaceholder envKey = true ->
          localStorage p2 = localStorage p1 ->
          AppFlow.checkApiKey env envKey p2
          = (mkPage (mkWorld (trace (world p2)) (served (world p2)) (Some (Str key))
                       (stylizedFrames (world p2)))
               (localStorage p2) (alerts p2),
             Normal tt))
  /\ (key = ""%string ->
      AppFlow.saveApiKey env input p
      = (mkPage (world p) (localStorage p)
           (alerts p ++ ["Please enter a valid API Key."%string]),
         Normal tt)).
Proof.
  intros key. split.
  - intros Hkey Hclient. unfold AppFlow.saveApiKey. fold key.
    rewrite (nonempty_length _ Hkey).
    eexists. split.
    + eapply inWorld_run with (events := [HideApiKeyModal]).
      * cbn [world]. unfold bind, AppFlow.initializeAI. rewrite Hclient. reflexivity.
      * reflexivity.
    + cbn [localStorage world alerts AppFlow.storageAfter fold_left ai].
      split; [apply getItem_setItem|].
      split; [apply trim_trim|].
      split; [reflexivity|]. split; [reflexivity|].
      intros envKey p2 Hplace Hstore. unfold AppFlow.checkApiKey.
      rewrite Hplace, Hstore, getItem_setItem. cbn [negb].
      rewrite (truthy_nonempty _ Hkey). cbn [JsText.text].
      rewrite (inWorld_run _ p2
                 (mkWorld (trace (world p2)) (served (world p2)) (Some (Str key))
                    (stylizedFrames (world p2)))
                 (Normal tt) []).
      * cbn [AppFlow.storageAfter fold_left]. now rewrite Hstore.
      * unfold AppFlow.initializeAI. rewrite Hclient. reflexivity.
      * cbn [trace]. now rewrite app_nil_r.
  - intros Hkey. unfold AppFlow.saveApiKey. fold key. now rewrite Hkey.
Qed.

Lemma saveApiKey_then_checkApiKey_witness :
  exists p1,
    AppFlow.saveApiKey Examples.browser "  AIzaSyExample-key "
      (mkPage Examples.start [] [])
    = (p1, Normal tt)
    /\ Storage.getItem "gemini_api_key" (localStorage p1)
       = Some "AIzaSyExample-key"%string.
Proof.
  destruct (proj1 (saveApiKey_then_checkApiKey Examples.browser "  AIzaSyExample-key "
                     (mkPage Examples.start [] [])))
    as (p1 & E & Hstored & _).
  - discriminate.
  - reflexivity.
  - exists p1. split; [exact E | exact Hstored].
Defined.

(** X21. The hybrid main application stores a key before it validates
    it. For an input whose trimmed form is not empty and is not a valid
    key, [handleSaveApiKey] stores it, reports the invalid format and
    makes no client; and [checkApiKey] on a page with this storage and no
    key of its own in the environment reports the invalid format again:
    it makes no client and does not show the modal. *)
Theorem handleSaveApiKey_stores_before_validation (env : Env) (input : string)
    (p : Page) :
  let key := JsText.trim input in
  key <> ""%string ->
  isValidApiKey (Str key) = false ->
  MainFlow.handleSaveApiKey env input p
  = (mkPage (extend (world p) [ShowError "Invalid API Key format"])
       (Storage.setItem "gemini_api_key" key (localStorage p)) (alerts p),
     Normal tt)
  /\ forall envKey p2,
       AppFlow.isPlaceholder envKey = true ->
       localStorage p2 = Storage.setItem "gemini_api_key" key (localStorage p) ->
       MainFlow.checkApiKey env envKey p2
       = (mkPage (extend (world p2) [ShowError "Invalid API Key format"])
            (localStorage p2) (alerts p2),
          Normal tt).
Proof.
  intros key Hkey Hinvalid. split.
  - unfold MainFlow.handleSaveApiKey. fold key. rewrite (nonempty_length _ Hkey).
    rewrite (inWorld_run _ _ (extend (world p) [ShowError "Invalid API Key format"])
               (Normal tt) [ShowError "Invalid API Key format"]).
    + reflexivity.
    + unfold MainApp.initializeAI. rewrite Hinvalid. reflexivity.
    + reflexivity.
  - intros envKey p2 Hplace Hstore. unfold MainFlow.checkApiKey.
    rewrite Hplace, Hstore, getItem_setItem. cbn [negb].
    rewrite (truthy_nonempty _ Hkey). cbn [JsText.text].
    rewrite (inWorld_run _ _ (extend (world p2) [ShowError "Invalid API Key format"])
               (Normal tt) [ShowError "Invalid API Key format"]).
    + cbn [AppFlow.storageAfter fold_left]. now rewrite Hstore.
    + unfold MainApp.initializeAI. rewrite Hinvalid. reflexivity.
    + reflexivity.
Qed.

Lemma handleSaveApiKey_stores_before_validation_witness :
  Storage.getItem "gemini_api_key"
    (localStorage (fst (MainFlow.handleSaveApiKey Examples.browser " short-key "
                          (mkPage Examples.start [] []))))
  = Some "short-key"%string
  /\ ai (world (fst (MainFlow.handleSaveApiKey Examples.browser " short-key "
                       (mkPage Examples.start [] []))))
     = None.
Proof.
  rewrite (proj1 (handleSaveApiKey_stores_before_validation Examples.browser
                    " short-key " (mkPage Examples.start [] [])
                    ltac:(discriminate) eq_refl)).
  split; reflexivity.
Defined.

Lemma storageAfter_kept_out (events : list Event) :
  forall s,
    Storage.getItem "gemini_api_key" s = None ->
    Storage.getItem "gemini_api_key" (AppFlow.storageAfter events s) = None.
Proof.
  unfold AppFlow.storageAfter.
  induction events as [|e events IH]; intros s Hs; [exact Hs|].
  cbn [fold_left]. apply IH. destruct e; try exact Hs. apply getItem_removeItem.
Qed.

Lemma storageAfter_removal (events : list Event) :
  forall s,
    In RemoveStoredKey events ->
    Storage.getItem "gemini_api_key" (AppFlow.storageAfter events s) = None.
Proof.
  induction events as [|e events IH]; intros s H; [destruct H|].
  destruct H as [->|H].
  - apply (storageAfter_kept_out events). apply getItem_removeItem.
  - apply (IH _ H).
Qed.

(** X22. A key that the service rejects is forgotten. When the request
    of a click on Generate for one captured frame is an authentication
    failure, the page afterwards stores no key, though the client made
    with the rejected key is still in place; so [checkApiKey] on a page
    with this storage and no key of its own in the environment shows the
    modal and makes no client. *)
Theorem rejected_key_is_forgotten (env : Env) (frame : Frame) (client : Value)
    (p : Page) :
  ai (world p) = Some client ->
  isAuthenticationFailure
    (outcomeAt env (promptOf env) (served (world p)) frame) = true ->
  exists p1,
    AppFlow.clickGenerate env [frame] p = (p1, Normal tt)
    /\ Storage.getItem "gemini_api_key" (localStorage p1) = None
    /\ ai (world p1) = Some client
    /\ forall envKey p2,
         AppFlow.isPlaceholder envKey = true ->
         localStorage p2 = localStorage p1 ->
         AppFlow.checkApiKey env envKey p2
         = (mkPage (extend (world p2) [ShowApiKeyModal]) (localStorage p2) (alerts p2),
            Normal tt).
Proof.
  intros Hai Hauth.
  assert (E : AppFlow.handleGenerateClick env [frame] (world p)
              = AppFlow.generateSingleImage env [frame] (world p))
    by (unfold AppFlow.handleGenerateClick; now rewrite Hai).
  rewrite generateSingleImage_run, Hauth in E.
  eexists. split; [|split; [|split]].
  - unfold AppFlow.clickGenerate.
    eapply inWorld_run; [exact E | cbn [trace]; reflexivity].
  - cbn [localStorage]. apply storageAfter_removal.
    apply in_or_app. right. apply in_or_app. left. simpl. tauto.
  - exact Hai.
  - intros envKey p2 Hplace Hstore.
    assert (Hnone : Storage.getItem "gemini_api_key" (localStorage p2) = None).
    { rewrite Hstore. cbn [localStorage]. apply storageAfter_removal.
      apply in_or_app. right. apply in_or_app. left. simpl. tauto. }
    unfold AppFlow.checkApiKey. rewrite Hplace, Hnone. cbn [negb JsText.truthy].
    rewrite (inWorld_run _ p2 (extend (world p2) [ShowApiKeyModal]) (Normal tt)
               [ShowApiKeyModal]); reflexivity.
Qed.

Lemma rejected_key_is_forgotten_witness :
  Storage.getItem "gemini_api_key"
    (localStorage
       (fst (AppFlow.clickGenerate (Examples.browserForbiddenAt 0) [Examples.frameA]
               (mkPage ready [("gemini_api_key", "AIzaSyExample-key")]%string []))))
  = None.
Proof.
  destruct (rejected_key_is_forgotten (Examples.browserForbiddenAt 0) Examples.frameA
              (Str "AIzaSyExample-key")
              (mkPage ready [("gemini_api_key", "AIzaSyExample-key")]%string [])
              eq_refl eq_refl)
    as (p1 & E & Hnone & _).
  now rewrite E.
Defined.

(* ===================================================================== *)
(** ** view.js *)
(* ===================================================================== *)

Lemma hasClass_classAdd (className : string) (e : View.Element) :
  View.hasClass className (View.classAdd className e) = true.
Proof.
  unfold View.classAdd, View.hasClass. cbn [View.classList].
  destruct (existsb (String.eqb className) (View.classList e)) eqn:E; [exact E|].
  rewrite existsb_app. cbn [existsb].
  now rewrite String.eqb_refl, orb_true_r.
Qed.

Lemma hasClass_classRemove (className : string) (e : View.Element) :
  View.hasClass className (View.classRemove className e) = false.
Proof.
  unfold View.classRemove, View.hasClass. cbn [View.classList].
  induction (View.classList e) as [|c l IH]; [reflexivity|].
  cbn [filter]. destruct (String.eqb_spec c className) as [->|Hc]; cbn [negb].
  - exact IH.
  - cbn [existsb]. rewrite IH, orb_false_r.
    apply String.eqb_neq. congruence.
Qed.

Lemma hasAttribute_attributeSet (attr v : string) (e : View.Element) :
  View.hasAttribute attr (View.attributeSet attr v e) = true.
Proof.
  unfold View.attributeSet, View.hasAttribute. cbn [View.attributes].
  rewrite existsb_app. cbn [existsb fst].
  now rewrite String.eqb_refl, orb_true_r.
Qed.

Lemma hasAttribute_attributeRemove (attr : string) (e : View.Element) :
  View.hasAttribute attr (View.attributeRemove attr e) = false.
Proof.
  unfold View.attributeRemove, View.hasAttribute. cbn [View.attributes].
  induction (View.attributes e) as [|a l IH]; [reflexivity|].
  cbn [filter]. destruct (String.eqb (fst a) attr) eqn:Ea; cbn [negb].
  - exact IH.
  - cbn [existsb]. now rewrite Ea, IH.
Qed.

(** The renderers are run on the document, the changes of an element
    being kept as they are. *)
Ltac render :=
  lazy -[View.hasClass View.classAdd View.classRemove View.attributeSet
         View.attributeRemove View.hasAttribute View.classList View.attributes
         View.disabled View.textContent View.innerHTML View.source View.value
         View.style].

Ltac classes :=
  cbn [option_map negb andb];
  repeat match goal with
         | |- context [View.hasClass ?c
                         (View.mkElement (View.classList ?x) ?a ?d ?t ?h ?s ?v ?st)] =>
             change (View.hasClass c
                       (View.mkElement (View.classList x) a d t h s v st))
               with (View.hasClass c x)
         end;
  rewrite ?hasClass_classAdd, ?hasClass_classRemove;
  try reflexivity.

(** X23. The output panel shows one thing at a time. After
    [renderStylizedImage] the image wrapper is the one of the three
    displays of the output panel that is visible; after
    [renderOutputVideo] it is the video; after [renderError] and after
    [clearOutput] it is the placeholder; and [renderError] and
    [clearOutput] hide the download button. An element that is missing
    from the document is skipped. *)
Theorem output_displays_exclusive (elements : View.Elements) (s message name : string) :
  In name outputDisplays ->
  View.visible name (View.renderStylizedImage s elements)
  = String.eqb name "generatedImageWrapper" && present name elements
  /\ View.visible name (View.renderOutputVideo s elements)
     = String.eqb name "outputVideo" && present name elements
  /\ View.visible name (View.renderError message elements)
     = String.eqb name "outputPlaceholder" && present name elements
  /\ View.visible name (View.clearOutput elements)
     = String.eqb name "outputPlaceholder" && present name elements
  /\ View.visible "downloadBtn" (View.renderError message elements) = false
  /\ View.visible "downloadBtn" (View.clearOutput elements) = false.
Proof.
  intros Hname.
  assert (Hdownload :
            View.visible "downloadBtn" (View.renderError message elements) = false
            /\ View.visible "downloadBtn" (View.clearOutput elements) = false).
  { split; render; destruct (elements "downloadBtn"%string); classes. }
  destruct Hdownload as [Hd1 Hd2].
  destruct Hname as [<-|[<-|[<-|[]]]];
    (repeat split; [| | | |exact Hd1|exact Hd2]); render;
    match goal with
    | |- context [elements ?n] => destruct (elements n)
    end; classes.
Qed.

Lemma output_displays_exclusive_witness :
  View.visible "outputVideo" (View.renderOutputVideo "blob:video/mp4" allHidden) = true
  /\ View.visible "outputVideo" (View.renderError "Invalid API Key" allHidden) = false.
Proof.
  destruct (output_displays_exclusive allHidden "blob:video/mp4" "Invalid API Key"
              "outputVideo")
    as (_ & Hvideo & Herror & _).
  - right. left. reflexivity.
  - split; [exact Hvideo | exact Herror].
Defined.

(** X24. The preview panel shows one thing at a time. After
    [renderImagePreview] the image is the one of the three displays of
    the preview that is visible and the frame controls are hidden; after
    [renderVideoPreview] it is the video, with the frame controls
    visible; after [clearPreview] it is the placeholder, the frame
    controls are hidden and both sources are emptied. *)
Theorem preview_displays_exclusive (elements : View.Elements) (s name : string) :
  In name previewDisplays ->
  View.visible name (View.renderImagePreview s elements)
  = String.eqb name "imagePreview" && present name elements
  /\ View.visible name (View.renderVideoPreview s elements)
     = String.eqb name "videoPreview" && present name elements
  /\ View.visible name (View.clearPreview elements)
     = String.eqb name "previewPlaceholder" && present name elements
  /\ View.visible "frameControls" (View.renderImagePreview s elements) = false
  /\ View.visible "frameControls" (View.renderVideoPreview s elements)
     = present "frameControls" elements
  /\ View.visible "frameControls" (View.clearPreview elements) = false
  /\ (forall e,
         View.clearPreview elements "imagePreview"%string = Some e
         \/ View.clearPreview elements "videoPreview"%string = Some e ->
         View.source e = ""%string).
Proof.
  intros Hname.
  assert (Hcontrols :
            View.visible "frameControls" (View.renderImagePreview s elements) = false
            /\ View.visible "frameControls" (View.renderVideoPreview s elements)
               = present "frameControls" elements
            /\ View.visible "frameControls" (View.clearPreview elements) = false).
  { repeat split; render; destruct (elements "frameControls"%string); classes. }
  destruct Hcontrols as (Hc1 & Hc2 & Hc3).
  assert (Hsources :
            forall e,
              View.clearPreview elements "imagePreview"%string = Some e
              \/ View.clearPreview elements "videoPreview"%string = Some e ->
              View.source e = ""%string).
  { intros e [H|H]; revert H; render;
      match goal with
      | |- context [elements ?n] => destruct (elements n)
      end; cbn [option_map]; intros H; try discriminate H;
      injection H as <-; reflexivity. }
  destruct Hname as [<-|[<-|[<-|[]]]];
    (repeat split; [| | |exact Hc1|exact Hc2|exact Hc3|exact Hsources]); render;
    match goal with
    | |- context [elements ?n] => destruct (elements n)
    end; classes.
Qed.

Lemma preview_displays_exclusive_witness :
  View.visible "imagePreview" (View.renderVideoPreview "blob:clip" allHidden) = false
  /\ View.visible "videoPreview" (View.renderVideoPreview "blob:clip" allHidden) = true.
Proof.
  split.
  - destruct (preview_displays_exclusive allHidden "blob:clip" "imagePreview")
      as (_ & Hvideo & _); [left; reflexivity | exact Hvideo].
  - destruct (preview_displays_exclusive allHidden "blob:clip" "videoPreview")
      as (_ & Hvideo & _); [right; left; reflexivity | exact Hvideo].
Defined.

Ltac attributes :=
  cbn [option_map];
  eexists; split; [reflexivity|];
  cbn [View.disabled View.attributeSet View.attributeRemove View.classList
       View.classAdd View.classRemove View.textContent];
  rewrite ?hasAttribute_attributeSet, ?hasAttribute_attributeRemove;
  repeat split; reflexivity.

(** X25. [renderLoadingState] has the last word on the buttons. After
    [renderLoadingState(elements, isLoading)] each of the generate,
    camera and extract buttons has [disabled] equal to [isLoading] and
    carries [aria-disabled] exactly when it is disabled. So after
    [renderGenerateButton(elements, text, enabled)] followed by
    [renderLoadingState(elements, false)], and after [resetUI], which
    ends in this way, the generate button is enabled, though [resetUI]
    has asked [renderGenerateButton] to disable it. *)
Theorem renderLoadingState_controls (elements : View.Elements) (isLoading : bool)
    (message : option string) (name : string) (e : View.Element) :
  In name loadingControls ->
  elements name = Some e ->
  (exists e',
      View.renderLoadingState isLoading message elements name = Some e'
      /\ View.disabled e' = isLoading
      /\ View.hasAttribute "aria-disabled" e' = isLoading)
  /\ (forall g,
         elements "generateBtn"%string = Some g ->
         (forall t enabled,
             exists g',
               View.renderLoadingState false None
                 (View.renderGenerateButton t enabled elements) "generateBtn"%string
               = Some g'
               /\ View.disabled g' = false
               /\ View.hasAttribute "aria-disabled" g' = false
               /\ View.textContent g' = t)
         /\ exists g',
              View.resetUI elements "generateBtn"%string = Some g'
              /\ View.disabled g' = false
              /\ View.hasAttribute "aria-disabled" g' = false
              /\ View.textContent g' = "Apply Style"%string).
Proof.
  intros Hname He. split.
  - destruct Hname as [<-|[<-|[<-|[]]]]; destruct isLoading; render; rewrite He;
      attributes.
  - intros g Hg. split.
    + intros t enabled. unfold View.renderGenerateButton.
      destruct enabled; cbn [negb]; render; rewrite Hg; attributes.
    + render. rewrite Hg. attributes.
Qed.

Lemma renderLoadingState_controls_witness :
  exists g',
    View.resetUI allHidden "generateBtn"%string = Some g'
    /\ View.disabled g' = false
    /\ View.hasAttribute "aria-disabled" g' = false
    /\ View.textContent g' = "Apply Style"%string.
Proof.
  destruct (renderLoadingState_controls allHidden true None "generateBtn"
              (View.mkElement ["hidden"%string] [("aria-disabled", "true")]%string true
                 "" "" "" "" []))
    as [_ H].
  - left. reflexivity.
  - reflexivity.
  - exact (proj2 (H _ eq_refl)).
Defined.
